(** * The ai-service model cache, inference service and feature preprocessor

    A shallow embedding of
      - [utils/ml_utils.py]            (ModelManager, normalize_features)
      - [services/pytorch_service.py]  (monitor_resources, circuit_breaker,
                                        load_model, PyTorchService)
    and the properties of the specification that concern them.

    Python objects are modelled as follows.
      - A [dict] is an association list in insertion order: assignment to a
        resident key keeps its position, a new key goes to the end, [del]
        raises [KeyError] on a missing key.
      - An exception is a value of [exn]; a call returns [Ok] or [Raise]
        together with the state it leaves behind, because a Python
        exception does not undo the mutations made before it.
      - torch, transformers, time and prometheus are collaborators.  What
        they answer is read from an environment record, one answer per
        position of a tape; the position advances with every such call.
      - [time.time()] readings are rationals; numpy arrays and the
        quotient [memory_allocated() / max_memory_allocated()] are binary64
        floats.
      - [torch.cuda] has no attribute [current_timestamp]: where the code
        looks it up, an [AttributeError] is raised. *)

From Stdlib Require Import ZArith QArith List String Ascii Bool Lia.
From Stdlib Require Import PeanoNat Floats.
Import ListNotations.

Local Open Scope string_scope.
Local Open Scope nat_scope.
Local Open Scope list_scope.

Set Implicit Arguments.
Set Warnings "-register-all".

(* ================================================================== *)
(** ** Python values, exceptions and the state-and-exception monad *)
(* ================================================================== *)

Module Py.

Inductive exn : Type :=
| ValueError (msg : string)
| RuntimeError (msg : string)
| TimeoutError (msg : string)
| TypeError (msg : string)
| KeyError (key : string)
| AttributeError (msg : string)
| ZeroDivisionError (msg : string)
| OtherError (cls msg : string).

Inductive res (A : Type) : Type :=
| Ok (a : A)
| Raise (e : exn).
Arguments Ok {A} a.
Arguments Raise {A} e.

(** The values that travel through configuration and request
    dictionaries.  [VSeconds] is a float computed from clock readings,
    [VObj] an opaque object (a tensor, an encoding). *)
Inductive value : Type :=
| VNone
| VBool (b : bool)
| VInt (z : Z)
| VFloat (f : float)
| VSeconds (q : Q)
| VStr (s : string)
| VList (l : list value)
| VDict (d : list (string * value))
| VObj (o : nat).

(** Python truthiness, as used by [not x]. *)
Definition truthy (v : value) : bool :=
  match v with
  | VNone => false
  | VBool b => b
  | VInt z => negb (Z.eqb z 0)
  | VFloat f => negb (PrimFloat.eqb f 0%float)
  | VSeconds q => negb (Qeq_bool q 0)
  | VStr s => negb (String.eqb s "")
  | VList l => match l with [] => false | _ => true end
  | VDict d => match d with [] => false | _ => true end
  | VObj _ => true
  end.

Definition M (S A : Type) : Type := S -> res A * S.

Definition ret {S A} (a : A) : M S A := fun s => (Ok a, s).

Definition raise {S A} (e : exn) : M S A := fun s => (Raise e, s).

Definition bind {S A B} (m : M S A) (k : A -> M S B) : M S B :=
  fun s =>
    match m s with
    | (Ok a, s') => k a s'
    | (Raise e, s') => (Raise e, s')
    end.

Definition get_state {S} : M S S := fun s => (Ok s, s).

Definition modify {S} (f : S -> S) : M S unit := fun s => (Ok tt, f s).

(** [lift r] returns or raises what a collaborator answered. *)
Definition lift {S A} (r : res A) : M S A := fun s => (r, s).

(** [try: body  except Exception: handler; raise] *)
Definition try_except_reraise {S A} (body : M S A) (handler : M S unit)
  : M S A :=
  fun s =>
    match body s with
    | (Ok a, s') => (Ok a, s')
    | (Raise e, s') =>
        match handler s' with
        | (Ok _, s'') => (Raise e, s'')
        | (Raise e', s'') => (Raise e', s'')
        end
    end.

(** [try: body  finally: final] *)
Definition try_finally {S A} (body : M S A) (final : M S unit) : M S A :=
  fun s =>
    match body s with
    | (r, s') =>
        match final s' with
        | (Ok _, s'') => (r, s'')
        | (Raise e', s'') => (Raise e', s'')
        end
    end.

(** [logger.error(...)]: the log is not part of the model. *)
Definition log_error {S} : M S unit := ret tt.

End Py.

Import Py.

Declare Scope py_scope.
Delimit Scope py_scope with py.
Notation "x <- m ;; k" := (bind m (fun x => k))
  (at level 61, m at next level, right associativity) : py_scope.
Notation "m ;;; k" := (bind m (fun _ => k))
  (at level 61, right associativity) : py_scope.
Local Open Scope py_scope.

(* ================================================================== *)
(** ** Insertion-ordered dictionaries with string keys *)
(* ================================================================== *)

Module Dict.

Section Defs.
Context {V : Type}.

Definition t : Type := list (string * V).

Fixpoint get (d : t) (k : string) : option V :=
  match d with
  | [] => None
  | (k', v) :: r => if String.eqb k' k then Some v else get r k
  end.

(** [k in d] *)
Definition contains (d : t) (k : string) : bool :=
  match get d k with Some _ => true | None => false end.

(** [d[k] = v] *)
Fixpoint set (d : t) (k : string) (v : V) : t :=
  match d with
  | [] => [(k, v)]
  | (k', v') :: r =>
      if String.eqb k' k then (k', v) :: r else (k', v') :: set r k v
  end.

Fixpoint remove (d : t) (k : string) : t :=
  match d with
  | [] => []
  | (k', v') :: r =>
      if String.eqb k' k then r else (k', v') :: remove r k
  end.

(** [del d[k]]: [None] stands for the [KeyError]. *)
Definition del (d : t) (k : string) : option t :=
  if contains d k then Some (remove d k) else None.

Definition keys (d : t) : list string := map fst d.

Definition is_empty (d : t) : bool :=
  match d with [] => true | _ => false end.

End Defs.

Arguments t V : clear implicits.

End Dict.

(** [d[k]] on a dictionary of values. *)
Definition getitem {S} (d : Dict.t value) (k : string) : M S value :=
  match Dict.get d k with
  | Some v => ret v
  | None => raise (KeyError k)
  end.

(** [d.get(k, default)] *)
Definition get_default (d : Dict.t value) (k : string) (default : value)
  : value :=
  match Dict.get d k with
  | Some v => v
  | None => default
  end.

(** [v[k]] on an arbitrary value. *)
Definition subscript {S} (v : value) (k : string) : M S value :=
  match v with
  | VDict d => getitem d k
  | _ => raise (TypeError "object is not subscriptable")
  end.

(* ================================================================== *)
(** ** The collaborators: torch, transformers, time, prometheus *)
(* ================================================================== *)

Module Ext.

Inductive device : Type := cpu | cuda.

(** A loaded [torch.nn.Module].  [model_id] is the identity of the Python
    object: every load creates an object with a fresh identity. *)
Record Model : Type := {
  model_id : nat;
  model_source : value;
  model_device : device
}.

(** What the collaborators answer at each tape position. *)
Record Env : Type := {
  cuda_is_available : bool;
  memory_allocated : nat -> Z;
  max_memory_allocated : nat -> Z;
  time_time : nat -> Q;
  (* AIServiceConfig() and AIServiceConfig().get_model_path(name, version) *)
  new_config : nat -> res unit;
  get_model_path : nat -> string -> value -> res string;
  (* AutoModel.from_pretrained(name) *)
  from_pretrained : nat -> string -> res unit;
  (* torch.load(path); the answer tells isinstance(model, torch.nn.Module) *)
  torch_load : nat -> value -> res bool;
  (* model.to(device), model.eval(), model(torch.randn(1, *shape).to(DEVICE)),
     model(input.to(device)) *)
  module_to : nat -> device -> res unit;
  module_eval : nat -> res unit;
  module_warm_up : nat -> Model -> value -> res unit;
  module_forward : nat -> Model -> value -> res value;
  (* AutoTokenizer.from_pretrained(name), tokenizer(text, ..., max_length) *)
  tokenizer_from_pretrained : nat -> value -> res nat;
  tokenizer_call : nat -> nat -> value -> value -> res value;
  (* output.cpu().numpy().tolist() *)
  tensor_tolist : nat -> value -> res value
}.

(** The prometheus metrics of pytorch_service.py. *)
Record Metrics : Type := {
  MODEL_LOAD_TIME : list Q;       (* Histogram: the observations *)
  INFERENCE_TIME : list Q;        (* Histogram: the observations *)
  GPU_MEMORY_USAGE : Z;           (* Gauge *)
  PREDICTION_ERRORS : nat;        (* Counter *)
  CACHE_HITS : nat                (* Counter *)
}.

(** The process-wide state outside the Python objects: the tape position,
    the number of model objects created by loads, the number of
    [torch.cuda.empty_cache()] calls, and the metrics. *)
Record World : Type := {
  calls : nat;
  loads : nat;
  empty_cache_calls : nat;
  metrics : Metrics
}.

Definition DEVICE (e : Env) : device :=
  if cuda_is_available e then cuda else cpu.

(** The world after one more collaborator call, one more
    [torch.cuda.empty_cache()], one more loaded object. *)
Definition advance (w : World) : World :=
  {| calls := S (calls w); loads := loads w;
     empty_cache_calls := empty_cache_calls w; metrics := metrics w |}.

Definition released (w : World) : World :=
  {| calls := calls w; loads := loads w;
     empty_cache_calls := S (empty_cache_calls w); metrics := metrics w |}.

Definition loaded (w : World) : World :=
  {| calls := calls w; loads := S (loads w);
     empty_cache_calls := empty_cache_calls w; metrics := metrics w |}.

Definition with_metrics (f : Metrics -> Metrics) (w : World) : World :=
  {| calls := calls w; loads := loads w;
     empty_cache_calls := empty_cache_calls w; metrics := f (metrics w) |}.

Section OnWorld.
Context {Self : Type}.

Definition on_world (f : World -> World) : M (Self * World) unit :=
  modify (fun st : Self * World => (fst st, f (snd st))).

(** Advance the tape and return the position that was current. *)
Definition tick : M (Self * World) nat :=
  fun st => (Ok (calls (snd st)), (fst st, advance (snd st))).

(** A collaborator that answers. *)
Definition ask {A} (f : nat -> A) : M (Self * World) A :=
  i <- tick ;; ret (f i).

(** A collaborator that answers or raises. *)
Definition call {A} (f : nat -> res A) : M (Self * World) A :=
  i <- tick ;; lift (f i).

(** [torch.cuda.empty_cache()] *)
Definition empty_cache : M (Self * World) unit := on_world released.

(** The object a successful load returns. *)
Definition new_model (source : value) : M (Self * World) Model :=
  fun st =>
    (Ok {| model_id := loads (snd st); model_source := source;
           model_device := cpu |},
     (fst st, loaded (snd st))).

Definition on_metrics (f : Metrics -> Metrics) : M (Self * World) unit :=
  on_world (with_metrics f).

End OnWorld.

(** [torch.cuda.current_timestamp()]: the module [torch.cuda] has no
    attribute of that name, so that the lookup raises and nothing is
    called. *)
Definition no_current_timestamp : exn :=
  AttributeError "module 'torch.cuda' has no attribute 'current_timestamp'".

Definition current_timestamp {S} : M S Z := raise no_current_timestamp.

End Ext.

(* ================================================================== *)
(** ** utils/ml_utils.py: ModelManager *)
(* ================================================================== *)

Module MlUtils.

Import Ext.

Definition MODEL_TYPES : list string := ["BERT"; "GPT"; "CUSTOM"].

Record ModelManager : Type := {
  _model_cache : Dict.t Model;
  _last_accessed : Dict.t Z;
  _model_versions : value;
  _memory_usage : Dict.t Z;
  _device : device;
  _cache_size : Z
}.

Definition State : Type := (ModelManager * World)%type.

Definition DEVICE (e : Env) : device :=
  if cuda_is_available e then cuda else cpu.

(** [AIServiceConfig().MODEL_VERSIONS] of config.py. *)
Definition MODEL_VERSIONS : value :=
  VDict [
    ("gpt", VDict [("current", VStr "gpt-4");
                   ("fallback", VStr "gpt-3.5-turbo");
                   ("max_tokens", VInt 2048);
                   ("temperature", VFloat 0x1.6666666666666p-1%float)]);
    ("bert", VDict [("current", VStr "bert-base-uncased");
                    ("version", VStr "1.0.0");
                    ("max_sequence_length", VInt 512)]);
    ("custom_ml", VDict [("version", VStr "2.0.0");
                         ("architecture", VStr "transformer");
                         ("embedding_dim", VInt 768)])
  ].

(** [ModelManager.__init__]; [cache_size] is in GB and defaults to
    [CACHE_SETTINGS['max_size_gb']], which is 10. *)
Definition __init__ (e : Env) (cache_size : Z) (enable_gpu : bool)
  (version_config : value) : ModelManager :=
  {| _model_cache := [];
     _last_accessed := [];
     _model_versions :=
       if truthy version_config then version_config else MODEL_VERSIONS;
     _memory_usage := [];
     _device := if enable_gpu then DEVICE e else cpu;
     _cache_size := (cache_size * 1024 * 1024 * 1024)%Z |}.

(** *** State access *)

Definition self_ : M State ModelManager := fun st => (Ok (fst st), st).

Definition with_cache (f : Dict.t Model -> Dict.t Model) (m : ModelManager)
  : ModelManager :=
  {| _model_cache := f (_model_cache m);
     _last_accessed := _last_accessed m;
     _model_versions := _model_versions m;
     _memory_usage := _memory_usage m;
     _device := _device m;
     _cache_size := _cache_size m |}.

Definition with_last (f : Dict.t Z -> Dict.t Z) (m : ModelManager)
  : ModelManager :=
  {| _model_cache := _model_cache m;
     _last_accessed := f (_last_accessed m);
     _model_versions := _model_versions m;
     _memory_usage := _memory_usage m;
     _device := _device m;
     _cache_size := _cache_size m |}.

Definition on_self (f : ModelManager -> ModelManager) : M State unit :=
  modify (fun st : State => (f (fst st), snd st)).

(** [model.to(device)] moves the module in place. *)
Definition to_device (e : Env) (model : Model) (d : device) : M State Model :=
  call (fun i => module_to e i d) ;;;
  ret {| model_id := model_id model; model_source := model_source model;
         model_device := d |}.

(** [del self._model_cache[k]] and [del self._last_accessed[k]] *)
Definition del_model_cache (k : string) : M State unit :=
  self <- self_ ;;
  match Dict.del (_model_cache self) k with
  | Some d => on_self (with_cache (fun _ => d))
  | None => raise (KeyError k)
  end.

Definition del_last_accessed (k : string) : M State unit :=
  self <- self_ ;;
  match Dict.del (_last_accessed self) k with
  | Some d => on_self (with_last (fun _ => d))
  | None => raise (KeyError k)
  end.

(** [min(items, key=lambda x: x[1])]: the first item whose second
    component is the least. *)
Definition min_by_snd (items : list (string * Z)) : option (string * Z) :=
  match items with
  | [] => None
  | x :: r =>
      Some (fold_left
              (fun best y => if (snd y <? snd best)%Z then y else best) r x)
  end.

(** [sorted(items, key=lambda x: x[1])]: a stable sort. *)
Fixpoint insert_by_snd (x : string * Z) (l : list (string * Z))
  : list (string * Z) :=
  match l with
  | [] => [x]
  | y :: r => if (snd x <=? snd y)%Z then x :: y :: r
              else y :: insert_by_snd x r
  end.

Definition sorted_by_snd (items : list (string * Z)) : list (string * Z) :=
  fold_right insert_by_snd [] items.

(** *** _update_cache *)

(** The body of the [while] loop of [_update_cache]: remove the least
    recently used model and read the allocated memory again. *)
Definition evict_lru (e : Env) : M State Z :=
  self <- self_ ;;
  match min_by_snd (_last_accessed self) with
  | None => raise (ValueError "min() arg is an empty sequence")
  | Some (lru_key, _) =>
      del_model_cache lru_key ;;;
      del_last_accessed lru_key ;;;
      empty_cache ;;;
      ask (memory_allocated e)
  end.

(** The [while] loop of [_update_cache].  Every turn that returns has
    deleted one cache entry, so the loop makes at most
    [len(self._model_cache)] turns;
    [turns] bounds them, and [evict_loop_enough] shows that a larger
    bound changes nothing. *)
Fixpoint evict_loop (e : Env) (turns : nat) (current_memory : Z)
  : M State unit :=
  fun st =>
    if (current_memory >? _cache_size (fst st))%Z
       && negb (Dict.is_empty (_model_cache (fst st)))
    then
      match turns with
      | O => (Ok tt, st)
      | S turns' =>
          (current_memory' <- evict_lru e ;;
           evict_loop e turns' current_memory') st
      end
    else (Ok tt, st).

Definition _update_cache (e : Env) (cache_key : string) (model : Model)
  : M State unit :=
  (if cuda_is_available e then
     current_memory <- ask (memory_allocated e) ;;
     self <- self_ ;;
     evict_loop e (List.length (_model_cache self)) current_memory
   else ret tt) ;;;
  on_self (with_cache (fun d => Dict.set d cache_key model)) ;;;
  t <- (if cuda_is_available e then current_timestamp else ret 0%Z) ;;
  on_self (with_last (fun d => Dict.set d cache_key t)).

(** *** get_model *)

(** [f"{model_name}_{model_type}"] *)
Definition cache_key_of (model_name model_type : string) : string :=
  (model_name ++ "_" ++ model_type)%string.

Definition get_model (e : Env) (model_name model_type : string)
  (force_reload : bool) : M State Model :=
  if negb (existsb (String.eqb model_type) MODEL_TYPES) then
    raise (ValueError
      "Invalid model type. Must be one of ['BERT', 'GPT', 'CUSTOM']")
  else
    let cache_key := cache_key_of model_name model_type in
    self <- self_ ;;
    match (if force_reload then None
           else Dict.get (_model_cache self) cache_key) with
    | Some cached =>
        t <- current_timestamp ;;
        on_self (with_last (fun d => Dict.set d cache_key t)) ;;;
        ret cached
    | None =>
        try_except_reraise
          (loaded <-
             (if String.eqb model_type "BERT" then
                call (fun i => from_pretrained e i model_name) ;;;
                new_model (VStr model_name)
              else if String.eqb model_type "GPT" then
                call (fun i => from_pretrained e i model_name) ;;;
                new_model (VStr model_name)
              else
                call (new_config e) ;;;
                versions <- subscript (_model_versions self) "custom_ml" ;;
                version <- subscript versions "version" ;;
                path <- call (fun i => get_model_path e i model_name version) ;;
                call (fun i => torch_load e i (VStr path)) ;;;
                new_model (VStr path)) ;;
           model <- to_device e loaded (_device self) ;;
           _update_cache e cache_key model ;;;
           ret model)
          log_error
    end.

(** *** clear_cache *)

Inductive freed : Type :=
| freed_all                 (* "all" *)
| freed_ratio (q : float)   (* f"{current_memory:.2f}%" *)
| freed_none.               (* "0%" *)

(** [a / b] on integers: the float nearest to the quotient, the
    [ZeroDivisionError] and the [OverflowError] of Python. *)
Definition int_to_float (z : Z) : SpecFloat.spec_float :=
  match z with
  | Z0 => SpecFloat.S754_zero false
  | Zpos p => SpecFloat.S754_finite false p 0
  | Zneg p => SpecFloat.S754_finite true p 0
  end.

Definition truediv (a b : Z) : res float :=
  if (b =? 0)%Z then Raise (ZeroDivisionError "division by zero")
  else
    let q := SF2Prim (FloatAxioms.SF64div (int_to_float a) (int_to_float b)) in
    if PrimFloat.is_infinity q then
      Raise (OtherError "OverflowError"
               "integer division result too large for a float")
    else Ok q.

Record ClearStats : Type := {
  cleared_models : nat;
  memory_freed : freed
}.

(** [for model_key, _ in models_to_remove: del ...; del ...] *)
Fixpoint remove_models (models_to_remove : list (string * Z))
  : M State unit :=
  match models_to_remove with
  | [] => ret tt
  | (model_key, _) :: r =>
      del_model_cache model_key ;;;
      del_last_accessed model_key ;;;
      remove_models r
  end.

Definition clear_cache (e : Env) (force_clear : bool)
  (memory_threshold : float) : M State ClearStats :=
  if force_clear then
    on_self (with_cache (fun _ => [])) ;;;
    on_self (with_last (fun _ => [])) ;;;
    (if cuda_is_available e then empty_cache else ret tt) ;;;
    self <- self_ ;;
    ret {| cleared_models := List.length (_model_cache self);
           memory_freed := freed_all |}
  else
    let nothing := {| cleared_models := 0; memory_freed := freed_none |} in
    if cuda_is_available e then
      allocated <- ask (memory_allocated e) ;;
      peak <- ask (max_memory_allocated e) ;;
      current_memory <- lift (truediv allocated peak) ;;
      if PrimFloat.ltb memory_threshold current_memory then
        self <- self_ ;;
        let models_to_remove :=
          firstn (List.length (_model_cache self) / 2)
                 (sorted_by_snd (_last_accessed self)) in
        remove_models models_to_remove ;;;
        empty_cache ;;;
        ret {| cleared_models := List.length models_to_remove;
               memory_freed := freed_ratio current_memory |}
      else ret nothing
    else ret nothing.

(** *** preprocess_text_data *)

Definition MAX_BATCH_SIZE : nat := 32.

Definition lower_ascii (c : ascii) : ascii :=
  let n := nat_of_ascii c in
  if (65 <=? n) && (n <=? 90) then ascii_of_nat (n + 32) else c.

(** [s.lower()] on ASCII text. *)
Fixpoint lower (s : string) : string :=
  match s with
  | EmptyString => EmptyString
  | String c r => String (lower_ascii c) (lower r)
  end.

(** [range(0, stop, step)] *)
Definition range0 (stop step : nat) : res (list nat) :=
  match step with
  | O => Raise (ValueError "range() arg 3 must not be zero")
  | S _ => Ok (map (fun j => j * step) (seq 0 ((stop + step - 1) / step)))
  end.

(** [l[i:i + n]] *)
Definition slice {A} (l : list A) (i n : nat) : list A :=
  firstn n (skipn i l).

(** [[f(x) for x in l]] where [f] can raise. *)
Fixpoint for_each {S A B} (f : A -> M S B) (l : list A) : M S (list B) :=
  match l with
  | [] => ret []
  | x :: r => y <- f x ;; ys <- for_each f r ;; ret (y :: ys)
  end.

(** The decorator [validate_input], on a call that passes arguments. *)
Definition validate_input {S A} (func : M S A) : M S A :=
  try_except_reraise func log_error.

Definition preprocess_text_data {Self} (e : Env) (text model_type : value)
  (batch_mode : bool) (preprocessing_config : option (Dict.t value))
  : M (Self * World) value :=
  validate_input
    (let config := match preprocessing_config with
                   | Some c => c
                   | None => []
                   end in
     let max_length := get_default config "max_length" (VInt 512) in
     try_except_reraise
       (call (new_config e) ;;;
        key <- match model_type with
               | VStr s => ret (lower s)
               | _ => raise (AttributeError "object has no attribute 'lower'")
               end ;;
        versions <- subscript MODEL_VERSIONS key ;;
        current <- subscript versions "current" ;;
        tokenizer <- call (fun i => tokenizer_from_pretrained e i current) ;;
        if batch_mode then
          let text := match text with VList l => l | other => [other] end in
          match range0 (List.length text) MAX_BATCH_SIZE with
          | Raise x => raise x
          | Ok starts =>
              let batches :=
                map (fun i => slice text i MAX_BATCH_SIZE) starts in
              processed_batches <-
                for_each
                  (fun batch =>
                     call (fun i =>
                       tokenizer_call e i tokenizer (VList batch) max_length))
                  batches ;;
              ret (VList processed_batches)
          end
        else
          call (fun i => tokenizer_call e i tokenizer text max_length))
       log_error).

(** *** normalize_features *)

(** A two-dimensional float64 array with at least one row, its rows one
    after the other in memory, as the list of its rows. *)
Definition ndarray : Type := list (list float).

Local Open Scope float_scope.

Definition max_float : float := 0x1.fffffffffffffp+1023.

(** [np.nan_to_num(x, nan=0.0)] on one element: NaN becomes [nan], that is
    0.0; the infinities become the largest and the smallest finite
    float64, numpy's defaults for [posinf] and [neginf]. *)
Definition nan_to_num1 (x : float) : float :=
  if PrimFloat.is_nan x then 0
  else if PrimFloat.eqb x infinity then max_float
  else if PrimFloat.eqb x neg_infinity then - max_float
  else x.

Definition nan_to_num (a : ndarray) : ndarray := map (map nan_to_num1) a.

Definition ncols (a : ndarray) : nat :=
  match a with [] => O | row :: _ => List.length row end.

(** Column [j], top to bottom. *)
Definition column {A} (d : A) (a : list (list A)) (j : nat) : list A :=
  map (fun row => nth j row d) a.

Definition columns (a : ndarray) : list (list float) :=
  map (column nan a) (seq 0 (ncols a)).

(** [np.add.reduce] along axis 0 of an array of two or more columns:
    the rows are added in order to the initial zero. *)
Definition np_sum (col : list float) : float :=
  fold_left PrimFloat.add col 0.

(** Along the column of an array of one column the values lie side by
    side in memory, and numpy adds them pairwise: fewer than 8 values in
    order; up to 128 values in eight running sums, each of which takes
    every eighth value, added up as a tree, and the values left over at
    the end added in order; more than 128 values in two parts, the
    first a multiple of 8 long, summed each in the same way. *)
Fixpoint add_each (r a : list float) : list float :=
  match r, a with
  | x :: r', y :: a' => (x + y) :: add_each r' a'
  | _, _ => r
  end.

Fixpoint add_blocks (blocks : nat) (r a : list float)
  : list float * list float :=
  match blocks with
  | O => (r, a)
  | S blocks' => add_blocks blocks' (add_each r (firstn 8 a)) (skipn 8 a)
  end.

Definition sum_unrolled (a : list float) : float :=
  let '(r, rest) :=
    add_blocks (List.length a / 8 - 1) (firstn 8 a) (skipn 8 a) in
  let r_ j := nth j r 0 in
  fold_left PrimFloat.add rest
    (((r_ 0%nat + r_ 1%nat) + (r_ 2%nat + r_ 3%nat))
     + ((r_ 4%nat + r_ 5%nat) + (r_ 6%nat + r_ 7%nat))).

(** [depth] bounds the number of times the values are parted; a part is
    at most half as long as the whole, so that the length of [a] is
    enough, as [pairwise_sum_enough] shows. *)
Fixpoint pairwise_sum (depth : nat) (a : list float) : float :=
  let n := List.length a in
  if Nat.ltb n 8 then fold_left PrimFloat.add a 0
  else if Nat.leb n 128 then sum_unrolled a
  else
    match depth with
    | O => sum_unrolled a
    | S depth' =>
        let n2 := (n / 2 - (n / 2) mod 8)%nat in
        pairwise_sum depth' (firstn n2 a) + pairwise_sum depth' (skipn n2 a)
    end.

Definition np_sum_contiguous (col : list float) : float :=
  0 + pairwise_sum (List.length col) col.

(** The sum of a column of an array of [k] columns. *)
Definition np_sum_axis0 (k : nat) (col : list float) : float :=
  if Nat.eqb k 1 then np_sum_contiguous col else np_sum col.

Definition of_nat (n : nat) : float := PrimFloat.of_uint63 (Uint63.of_Z (Z.of_nat n)).

Definition np_mean1 (k : nat) (col : list float) : float :=
  np_sum_axis0 k col / of_nat (List.length col).

(** [np.std]: the square root of the mean of the squared deviations. *)
Definition np_std1 (k : nat) (col : list float) : float :=
  let m := np_mean1 k col in
  PrimFloat.sqrt (np_mean1 k (map (fun x => (x - m) * (x - m)) col)).

Definition np_sign (x : float) : float :=
  if PrimFloat.ltb x 0 then -1
  else if PrimFloat.ltb 0 x then 1
  else if PrimFloat.eqb x 0 then 0
  else nan.

Fixpoint insert_float (x : float) (l : list float) : list float :=
  match l with
  | [] => [x]
  | y :: r => if PrimFloat.leb x y then x :: y :: r else y :: insert_float x r
  end.

Definition sort_floats (l : list float) : list float :=
  fold_right insert_float [] l.

(** [np.median] of a column without NaN: the middle element, or the mean
    of the two middle elements. *)
Definition np_median1 (col : list float) : float :=
  let s := sort_floats col in
  let n := List.length s in
  if Nat.eqb n 0 then nan
  else if Nat.odd n then nth (n / 2) s nan
  else (nth (n / 2 - 1) s nan + nth (n / 2) s nan) / 2.

(** [np.abs((features - np.mean(features, axis=0))
            / np.std(features, axis=0))] *)
Definition z_scores (features : ndarray) : ndarray :=
  let k := ncols features in
  let means := map (np_mean1 k) (columns features) in
  let stds := map (np_std1 k) (columns features) in
  map (fun row =>
         map (fun j =>
                PrimFloat.abs ((nth j row nan - nth j means nan)
                               / nth j stds nan))
             (seq 0 (List.length row)))
      features.

(** [a > threshold], element by element. *)
Definition greater (a : ndarray) (threshold : float) : list (list bool) :=
  map (map (fun z => PrimFloat.ltb threshold z)) a.

(** [a[mask]]: the selected elements in row-major order. *)
Fixpoint select_row (row : list float) (mask : list bool) : list float :=
  match row, mask with
  | x :: r, b :: m => if b then x :: select_row r m else select_row r m
  | _, _ => []
  end.

Fixpoint select (a : ndarray) (mask : list (list bool)) : list float :=
  match a, mask with
  | row :: a', m :: mask' => select_row row m ++ select a' mask'
  | _, _ => []
  end.

(** [x * y] on one-dimensional arrays, with numpy's broadcasting. *)
Definition broadcast_mul (x y : list float) : res (list float) :=
  if Nat.eqb (List.length x) (List.length y) then
    Ok (map (fun p => fst p * snd p) (combine x y))
  else if Nat.eqb (List.length x) 1 then
    Ok (map (fun b => hd nan x * b) y)
  else if Nat.eqb (List.length y) 1 then
    Ok (map (fun a => a * hd nan y) x)
  else Raise (ValueError "operands could not be broadcast together").

(** Write [vals] over the selected elements of a row; the values left
    over are returned with the row. *)
Fixpoint assign_row (row : list float) (mask : list bool)
  (vals : list float) : list float * list float :=
  match row, mask with
  | x :: r, b :: m =>
      if b then
        match vals with
        | v :: vals' =>
            let '(r', rest) := assign_row r m vals' in (v :: r', rest)
        | [] => let '(r', rest) := assign_row r m [] in (x :: r', rest)
        end
      else let '(r', rest) := assign_row r m vals in (x :: r', rest)
  | _, _ => (row, vals)
  end.

Fixpoint assign_rows (a : ndarray) (mask : list (list bool))
  (vals : list float) : ndarray :=
  match a, mask with
  | row :: a', m :: mask' =>
      let '(row', rest) := assign_row row m vals in
      row' :: assign_rows a' mask' rest
  | _, _ => a
  end.

(** [a[mask] = vals]: [vals] must have one value per selected element, or
    be a single value. *)
Definition assign_masked (a : ndarray) (mask : list (list bool))
  (vals : list float) : res ndarray :=
  let m := List.length (select a mask) in
  if Nat.eqb (List.length vals) m then Ok (assign_rows a mask vals)
  else if Nat.eqb (List.length vals) 1 then
    Ok (assign_rows a mask (repeat (hd nan vals) m))
  else Raise (ValueError
    "NumPy boolean array indexing assignment cannot assign input values to the output values where the mask is true").

(** Lines 260 to 263: the outlier handling of the robust strategy. *)
Definition clip_outliers (features : ndarray) (outlier_threshold : float)
  : res ndarray :=
  let mask := greater (z_scores features) outlier_threshold in
  let medians :=
    map np_median1 (columns (map (map PrimFloat.abs) features)) in
  match broadcast_mul (map np_sign (select features mask)) medians with
  | Raise x => Raise x
  | Ok vals => assign_masked features mask vals
  end.

Local Close Scope float_scope.

Definition scaling_methods : list string := ["robust"; "standard"; "minmax"].

(** The array handed to [scaler.fit_transform] on line 265. *)
Definition features_before_scaling (features : ndarray)
  (scaling_method : string) (outlier_threshold : float) : res ndarray :=
  let features := nan_to_num features in
  if negb (existsb (String.eqb scaling_method) scaling_methods) then
    Raise (ValueError
      "Invalid scaling method. Must be one of ['robust', 'standard', 'minmax']")
  else if String.eqb scaling_method "robust" then
    clip_outliers features outlier_threshold
  else Ok features.

(** [normalize_features], called with a dense array or with a sparse
    matrix that [handle_sparse_matrix] has made dense.  The scikit-learn
    scalers are the parameter [fit_transform]. *)
Definition normalize_features
  (fit_transform : string -> ndarray -> res ndarray)
  (features : ndarray) (scaling_method : string) (outlier_threshold : float)
  : res ndarray :=
  match features_before_scaling features scaling_method outlier_threshold with
  | Raise x => Raise x
  | Ok prepared => fit_transform scaling_method prepared
  end.

End MlUtils.

(* ================================================================== *)
(** ** services/pytorch_service.py *)
(* ================================================================== *)

Module PytorchService.

Import Ext.

Definition MODEL_CACHE_SIZE : nat := 5.
Definition MAX_GPU_MEMORY_PERCENT : Q := 9 # 10.
Definition MODEL_TIMEOUT_SECONDS : Q := 30 # 1.
Definition INFERENCE_TIMEOUT_SECONDS : Q := 10 # 1.

(** The service object.  [_cache_lock] is a mutex; the model is of one
    thread, for which [with self._cache_lock] does nothing. *)
Record PyTorchService : Type := {
  _model_cache : Dict.t Model;
  _device : device
}.

Definition State : Type := (PyTorchService * World)%type.

Definition __init__ (e : Env) : PyTorchService :=
  {| _model_cache := []; _device := DEVICE e |}.

Definition self_ : M State PyTorchService := fun st => (Ok (fst st), st).

Definition on_cache (f : Dict.t Model -> Dict.t Model) : M State unit :=
  modify (fun st : State =>
    ({| _model_cache := f (_model_cache (fst st));
        _device := _device (fst st) |}, snd st)).

(** *** The metrics *)

Definition observe_load (d : Q) (m : Metrics) : Metrics :=
  {| MODEL_LOAD_TIME := MODEL_LOAD_TIME m ++ [d];
     INFERENCE_TIME := INFERENCE_TIME m;
     GPU_MEMORY_USAGE := GPU_MEMORY_USAGE m;
     PREDICTION_ERRORS := PREDICTION_ERRORS m;
     CACHE_HITS := CACHE_HITS m |}.

Definition observe_inference (d : Q) (m : Metrics) : Metrics :=
  {| MODEL_LOAD_TIME := MODEL_LOAD_TIME m;
     INFERENCE_TIME := INFERENCE_TIME m ++ [d];
     GPU_MEMORY_USAGE := GPU_MEMORY_USAGE m;
     PREDICTION_ERRORS := PREDICTION_ERRORS m;
     CACHE_HITS := CACHE_HITS m |}.

Definition set_gpu_memory (z : Z) (m : Metrics) : Metrics :=
  {| MODEL_LOAD_TIME := MODEL_LOAD_TIME m;
     INFERENCE_TIME := INFERENCE_TIME m;
     GPU_MEMORY_USAGE := z;
     PREDICTION_ERRORS := PREDICTION_ERRORS m;
     CACHE_HITS := CACHE_HITS m |}.

Definition inc_errors (m : Metrics) : Metrics :=
  {| MODEL_LOAD_TIME := MODEL_LOAD_TIME m;
     INFERENCE_TIME := INFERENCE_TIME m;
     GPU_MEMORY_USAGE := GPU_MEMORY_USAGE m;
     PREDICTION_ERRORS := S (PREDICTION_ERRORS m);
     CACHE_HITS := CACHE_HITS m |}.

Definition inc_cache_hits (m : Metrics) : Metrics :=
  {| MODEL_LOAD_TIME := MODEL_LOAD_TIME m;
     INFERENCE_TIME := INFERENCE_TIME m;
     GPU_MEMORY_USAGE := GPU_MEMORY_USAGE m;
     PREDICTION_ERRORS := PREDICTION_ERRORS m;
     CACHE_HITS := S (CACHE_HITS m) |}.

(** [x > y] on clock readings. *)
Definition Qgtb (x y : Q) : bool := negb (Qle_bool x y).

(** [x < y] on clock readings. *)
Definition Qltb (x y : Q) : bool := negb (Qle_bool y x).

(** *** monitor_resources *)

(** The decorator applied to a function whose [__name__] is [name]. *)
Definition monitor_resources {Self A} (e : Env) (name : string)
  (func : M (Self * World) A) : M (Self * World) A :=
  start_time <- ask (time_time e) ;;
  try_finally
    (try_except_reraise
       (result <- func ;;
        (if cuda_is_available e then
           allocated <- ask (memory_allocated e) ;;
           on_metrics (set_gpu_memory allocated)
         else ret tt) ;;;
        ret result)
       (on_metrics inc_errors))
    (now <- ask (time_time e) ;;
     let duration := (now - start_time)%Q in
     if String.eqb name "predict" then
       on_metrics (observe_inference duration)
     else if String.eqb name "load_model" then
       on_metrics (observe_load duration)
     else ret tt).

(** *** circuit_breaker *)

(** The two variables the decorator closes over. *)
Record Breaker : Type := {
  failures : Z;
  last_failure_time : Q
}.

Definition breaker_init : Breaker :=
  {| failures := 0; last_failure_time := 0 |}.

Definition circuit_open : exn := RuntimeError "Circuit breaker is open".

(** The wrapper that [circuit_breaker(max_failures, reset_timeout)(func)]
    returns, on a state that pairs the two variables with the state of
    [func].  [current_time] is the reading of [time.time()] on entry. *)
Definition circuit_breaker {S A} (max_failures reset_timeout : Z)
  (func : M S A) (current_time : Q) : M (Breaker * S) A :=
  fun st =>
    let b := fst st in
    if (failures b >=? max_failures)%Z
       && Qltb (current_time - last_failure_time b) (inject_Z reset_timeout)
    then (Raise circuit_open, st)
    else
      match func (snd st) with
      | (Ok result, s') =>
          (Ok result,
           ({| failures := 0; last_failure_time := last_failure_time b |}, s'))
      | (Raise x, s') =>
          (Raise x,
           ({| failures := failures b + 1;
               last_failure_time := current_time |}, s'))
      end.

(** The defaults [max_failures=3, reset_timeout=300]. *)
Definition circuit_breaker_default {S A} : M S A -> Q -> M (Breaker * S) A :=
  circuit_breaker 3 300.

(** *** load_model *)

Definition load_model_body {Self} (e : Env) (model_path model_config : value)
  (warm_up : bool) : M (Self * World) Model :=
  try_except_reraise
    (if negb (truthy model_path) || negb (truthy model_config) then
       raise (ValueError "Invalid model path or configuration")
     else
       start_time <- ask (time_time e) ;;
       is_module <- call (fun i => torch_load e i model_path) ;;
       model <- new_model model_path ;;
       now <- ask (time_time e) ;;
       if Qgtb (now - start_time) MODEL_TIMEOUT_SECONDS then
         raise (TimeoutError "Model loading timeout exceeded")
       else if negb is_module then
         raise (TypeError "Invalid model type")
       else
         call (fun i => module_to e i (DEVICE e)) ;;;
         call (module_eval e) ;;;
         let model := {| model_id := model_id model;
                         model_source := model_source model;
                         model_device := DEVICE e |} in
         (if warm_up then
            match model_config with
            | VDict d =>
                let input_shape :=
                  get_default d "input_shape" (VList [VInt 1]) in
                call (fun i => module_warm_up e i model input_shape)
            | _ => raise (AttributeError "object has no attribute 'get'")
            end
          else ret tt) ;;;
         ret model)
    log_error.

Definition load_model {Self} (e : Env) (model_path model_config : value)
  (warm_up : bool) : M (Self * World) Model :=
  monitor_resources e "load_model"
    (load_model_body e model_path model_config warm_up).

(** *** PyTorchService.predict *)

Definition predict_body (e : Env) (model_name : string)
  (input_data prediction_config : Dict.t value) : M State value :=
  try_except_reraise
    (if Dict.is_empty input_data || String.eqb model_name "" then
       raise (ValueError "Invalid input data or model name")
     else
       self <- self_ ;;
       model <-
         match Dict.get (_model_cache self) model_name with
         | Some model => on_metrics inc_cache_hits ;;; ret model
         | None =>
             model_path <- getitem prediction_config "model_path" ;;
             model_config <- getitem prediction_config "model_config" ;;
             model <- load_model e model_path model_config true ;;
             on_cache (fun d => Dict.set d model_name model) ;;;
             ret model
         end ;;
       text <- getitem input_data "text" ;;
       preprocessed_input <-
         MlUtils.preprocess_text_data e text
           (get_default prediction_config "model_type" (VStr "CUSTOM"))
           false None ;;
       start_time <- ask (time_time e) ;;
       output <- call (fun i => module_forward e i model preprocessed_input) ;;
       now <- ask (time_time e) ;;
       if Qgtb (now - start_time) INFERENCE_TIMEOUT_SECONDS then
         raise (TimeoutError "Inference timeout exceeded")
       else
         prediction <- call (fun i => tensor_tolist e i output) ;;
         finished <- ask (time_time e) ;;
         ret (VDict [("prediction", prediction);
                     ("model_name", VStr model_name);
                     ("inference_time",
                      VSeconds (finished - start_time)%Q)]))
    log_error.

Definition predict (e : Env) (model_name : string)
  (input_data prediction_config : Dict.t value) : M State value :=
  monitor_resources e "predict"
    (predict_body e model_name input_data prediction_config).

(** *** PyTorchService.batch_predict *)

(** [results.extend(x)]: [x] is iterated. *)
Definition extend {S} (results : list value) (x : value)
  : M S (list value) :=
  match x with
  | VList l => ret (results ++ l)
  | VDict d => ret (results ++ map (fun kv => VStr (fst kv)) d)
  | VStr s =>
      ret (results ++
           map (fun c => VStr (String c EmptyString)) (list_ascii_of_string s))
  | _ => raise (TypeError "object is not iterable")
  end.

(** The right-hand side [batch_result['prediction']] of one turn of the
    [for] loop. *)
Definition batch_prediction (e : Env) (model_name : string)
  (batch_config : Dict.t value) (batch : list (Dict.t value))
  : M State value :=
  texts <- MlUtils.for_each (fun item => getitem item "text") batch ;;
  preprocessed_batch <-
    MlUtils.preprocess_text_data e (VList texts)
      (get_default batch_config "model_type" (VStr "CUSTOM")) true None ;;
  batch_result <-
    predict e model_name [("text", preprocessed_batch)] batch_config ;;
  subscript batch_result "prediction".

(** One turn of the [for] loop. *)
Definition batch_step (e : Env) (model_name : string)
  (batch_config : Dict.t value) (results : list value)
  (batch : list (Dict.t value)) : M State (list value) :=
  prediction <- batch_prediction e model_name batch_config batch ;;
  extend results prediction.

Fixpoint batch_loop (e : Env) (model_name : string)
  (batch_config : Dict.t value) (results : list value)
  (batches : list (list (Dict.t value))) : M State (list value) :=
  match batches with
  | [] => ret results
  | batch :: rest =>
      results' <- batch_step e model_name batch_config results batch ;;
      batch_loop e model_name batch_config results' rest
  end.

Section BatchSize.

(** The module constant; 32 in the source. *)
Variable BATCH_SIZE : nat.

(** The batches of the [for] loop:
    [batch_data[i:i + batch_size] for i in range(0, len(batch_data),
    batch_size)]. *)
Definition batches_of (batch_data : list (Dict.t value))
  : res (list (list (Dict.t value))) :=
  let batch_size := Nat.min (List.length batch_data) BATCH_SIZE in
  match MlUtils.range0 (List.length batch_data) batch_size with
  | Raise x => Raise x
  | Ok starts =>
      Ok (map (fun i => MlUtils.slice batch_data i batch_size) starts)
  end.

Definition batch_predict_body (e : Env) (model_name : string)
  (batch_data : list (Dict.t value)) (batch_config : Dict.t value)
  : M State (list value) :=
  try_except_reraise
    (match batch_data with
     | [] => raise (ValueError "Empty batch data")
     | _ =>
         batches <- lift (batches_of batch_data) ;;
         results <- batch_loop e model_name batch_config [] batches ;;
         ret (map (fun pred => VDict [("prediction", pred)]) results)
     end)
    log_error.

Definition batch_predict_with (e : Env) (model_name : string)
  (batch_data : list (Dict.t value)) (batch_config : Dict.t value)
  : M State (list value) :=
  monitor_resources e "batch_predict"
    (batch_predict_body e model_name batch_data batch_config).

End BatchSize.

Definition BATCH_SIZE : nat := 32.

Definition batch_predict : Env -> string -> list (Dict.t value) ->
  Dict.t value -> M State (list value) :=
  batch_predict_with BATCH_SIZE.

(** *** PyTorchService.clear_cache *)

Definition clear_cache (e : Env) : M State unit :=
  try_except_reraise
    (on_cache (fun _ => []) ;;;
     (if cuda_is_available e then empty_cache else ret tt))
    log_error.

End PytorchService.

(* ================================================================== *)
(** ** Environments and states used in the examples *)
(* ================================================================== *)

Module Examples.

Import Ext.

(** Every collaborator succeeds; the clock counts the tape positions;
    the accelerator reports [allocated i] bytes at position [i]. *)
Definition env (gpu : bool) (allocated : nat -> Z) : Env :=
  {| cuda_is_available := gpu;
     memory_allocated := allocated;
     max_memory_allocated := fun _ => 100%Z;
     time_time := fun i => inject_Z (Z.of_nat i);
     new_config := fun _ => Ok tt;
     get_model_path := fun _ name _ => Ok name;
     from_pretrained := fun _ _ => Ok tt;
     torch_load := fun _ _ => Ok true;
     module_to := fun _ _ => Ok tt;
     module_eval := fun _ => Ok tt;
     module_warm_up := fun _ _ _ => Ok tt;
     module_forward := fun _ _ x => Ok x;
     tokenizer_from_pretrained := fun _ _ => Ok O;
     tokenizer_call := fun _ _ text _ => Ok text;
     tensor_tolist := fun _ out => Ok out |}.

Definition no_metrics : Metrics :=
  {| MODEL_LOAD_TIME := []; INFERENCE_TIME := []; GPU_MEMORY_USAGE := 0%Z;
     PREDICTION_ERRORS := 0; CACHE_HITS := 0 |}.

Definition world0 : World :=
  {| calls := 0; loads := 0; empty_cache_calls := 0; metrics := no_metrics |}.

(** A host without accelerator, and an accelerator that always reports
    [bytes] allocated. *)
Definition host : Env := env false (fun _ => 0%Z).
Definition gpu (bytes : Z) : Env := env true (fun _ => bytes).

(** A manager with a budget of one GB. *)
Definition manager0 (e : Env) : MlUtils.State :=
  (MlUtils.__init__ e 1 true VNone, world0).

(** The state an operation leaves behind. *)
Definition after {S A} (m : M S A) (s : S) : S := snd (m s).

(** The manager after one [get_model] call for each of [names], all of
    type BERT. *)
Definition manager_with (e : Env) (names : list string) : MlUtils.State :=
  fold_left
    (fun st name => after (MlUtils.get_model e name "BERT" false) st)
    names (manager0 e).

(** The manager after calls for the models "a" and "b" on an accelerator
    that reports no memory in use: both calls stored their model and
    raised at the lookup of the clock. *)
Definition two_models : MlUtils.State :=
  Eval vm_compute in manager_with (gpu 0) ["a"; "b"].

(** A service without cached models, a configuration that names a BERT
    tokenizer, and three request items. *)
Definition service0 (e : Env) : PytorchService.State :=
  (PytorchService.__init__ e, world0).

Definition batch_config : Dict.t value :=
  [("model_path", VStr "models/campaign.pt");
   ("model_config", VDict [("input_shape", VList [VInt 4])]);
   ("model_type", VStr "BERT")].

Definition item (text : string) : Dict.t value := [("text", VStr text)].

Definition three_items : list (Dict.t value) :=
  [item "first"; item "second"; item "third"].

(** What [batch_predict] returns for the three items on the host, and
    the state it leaves. *)
Definition batch_records : list value * PytorchService.State :=
  Eval vm_compute in
    match PytorchService.batch_predict host "campaign_model" three_items
            batch_config (service0 host) with
    | (Ok r, st) => (r, st)
    | (Raise _, st) => ([], st)
    end.

End Examples.

(* ================================================================== *)
(** ** The vocabulary of the properties *)
(* ================================================================== *)

Module ManagerSpec.

Import Ext MlUtils.

(** The manager after [self._last_accessed[key] = t] and after
    [self._model_cache[key] = model]. *)
Definition touch (key : string) (t : Z) (self : ModelManager)
  : ModelManager :=
  with_last (fun d => Dict.set d key t) self.

Definition store (key : string) (model : Model) (self : ModelManager)
  : ModelManager :=
  with_cache (fun d => Dict.set d key model) self.

(** What the operations make of a manager.  With an accelerator no time
    is ever recorded, because the clock that is asked for it does not
    exist; without one every model is recorded with the time 0. *)
Definition as_left (e : Env) (self : ModelManager) : Prop :=
  NoDup (Dict.keys (_model_cache self)) /\
  if cuda_is_available e then _last_accessed self = []
  else
    Dict.keys (_model_cache self) = Dict.keys (_last_accessed self) /\
    Forall (fun kt => snd kt = 0%Z) (_last_accessed self).

(** The entries whose key is not among [ks]. *)
Definition drop {V} (ks : list string) (d : Dict.t V) : Dict.t V :=
  filter (fun kv => negb (existsb (String.eqb (fst kv)) ks)) d.

(** A computation that leaves the manager alone. *)
Definition world_only {A} (m : M State A) : Prop :=
  forall self w, fst (snd (m (self, w))) = self.

End ManagerSpec.

Module ServiceSpec.

Import Ext PytorchService.

(** A computation that does not raise the circuit-open error. *)
Definition never_open {S A} (m : M S A) : Prop :=
  forall s, fst (m s) <> Raise circuit_open.

Definition quiet {A} (r : res A) : Prop := r <> Raise circuit_open.

(** No collaborator raises the error of the circuit breaker. *)
Record quiet_env (e : Env) : Prop := {
  quiet_new_config : forall i, quiet (new_config e i);
  quiet_torch_load : forall i p, quiet (torch_load e i p);
  quiet_module_to : forall i d, quiet (module_to e i d);
  quiet_module_eval : forall i, quiet (module_eval e i);
  quiet_module_warm_up : forall i m x, quiet (module_warm_up e i m x);
  quiet_module_forward : forall i m x, quiet (module_forward e i m x);
  quiet_tokenizer_from_pretrained :
    forall i n, quiet (tokenizer_from_pretrained e i n);
  quiet_tokenizer_call : forall i t x n, quiet (tokenizer_call e i t x n);
  quiet_tensor_tolist : forall i x, quiet (tensor_tolist e i x)
}.

(** A batch of rows is a list; [y] has a row for every row of [x]. *)
Definition same_rows (x y : value) : Prop :=
  forall l, x = VList l ->
  exists l', y = VList l' /\ List.length l' = List.length l.

(** Collaborators that answer row by row: the tokenizer encodes every
    text of a list, the model predicts for every row of its input, and
    the conversion to a list keeps the rows. *)
Record row_wise (e : Env) : Prop := {
  rows_tokenizer :
    forall i t x n y, tokenizer_call e i t x n = Ok y -> same_rows x y;
  rows_forward :
    forall i m x y, module_forward e i m x = Ok y -> same_rows x y;
  rows_tolist :
    forall i x y, tensor_tolist e i x = Ok y -> same_rows x y
}.


End ServiceSpec.

Module FeaturesSpec.

Import MlUtils.

Local Open Scope float_scope.

(** Neither NaN nor an infinity. *)
Definition finite (x : float) : bool :=
  negb (PrimFloat.is_nan x) && negb (PrimFloat.is_infinity x).

(** The array with the single column [col], and the z-scores numpy
    computes for that column. *)
Definition as_column {A} (col : list A) : list (list A) :=
  map (fun x => [x]) col.

Definition column_z_scores (col : list float) : list float :=
  map (fun x => PrimFloat.abs ((x - np_mean1 1 col) / np_std1 1 col)) col.

End FeaturesSpec.

(* ================================================================== *)
(** ** Further vocabulary: operations in sequence, steady worlds *)
(* ================================================================== *)

Module MoreSpec.

Import Ext.

(** The public operations of a [ModelManager]. *)
Inductive manager_op : Type :=
| op_get_model (model_name model_type : string) (force_reload : bool)
| op_clear_cache (force_clear : bool) (memory_threshold : float).

(** The state an operation leaves behind, whether it returns or raises. *)
Definition apply_op (e : Env) (st : MlUtils.State) (o : manager_op)
  : MlUtils.State :=
  match o with
  | op_get_model model_name model_type force_reload =>
      snd (MlUtils.get_model e model_name model_type force_reload st)
  | op_clear_cache force_clear memory_threshold =>
      snd (MlUtils.clear_cache e force_clear memory_threshold st)
  end.

(** [m] leaves the observation [f] of the world as it was. *)
Definition steady {Self A X} (f : World -> X) (m : M (Self * World) A)
  : Prop :=
  forall st, f (snd (snd (m st))) = f (snd st).

(** [m] leaves the Python object as it was. *)
Definition keeps_self {Self A} (m : M (Self * World) A) : Prop :=
  forall st, fst (snd (m st)) = fst st.

(** [m] leaves the observation [g] of the whole state as it was. *)
Definition invariant {Self A X} (g : Self * World -> X)
  (m : M (Self * World) A) : Prop :=
  forall st, g (snd (m st)) = g st.

(** What a load touches: the number of model objects, the observed load
    times and the cache-hit counter. *)
Definition load_facts (w : World) : nat * list Q * nat :=
  (loads w, MODEL_LOAD_TIME (metrics w), CACHE_HITS (metrics w)).

(** The loading step of [get_model]: the branch on the model type
    inside its [try] block. *)
Definition load_by_type (e : Env) (self : MlUtils.ModelManager)
  (model_name model_type : string) : M MlUtils.State Model :=
  if String.eqb model_type "BERT" then
    call (fun i => from_pretrained e i model_name) ;;;
    new_model (VStr model_name)
  else if String.eqb model_type "GPT" then
    call (fun i => from_pretrained e i model_name) ;;;
    new_model (VStr model_name)
  else
    call (new_config e) ;;;
    versions <- subscript (MlUtils._model_versions self) "custom_ml" ;;
    version <- subscript versions "version" ;;
    path <- call (fun i => get_model_path e i model_name version) ;;
    call (fun i => torch_load e i (VStr path)) ;;;
    new_model (VStr path).

(** A computation of the manager that, when it returns, has created
    exactly one model object and returns it, and when it raises has
    created none; the manager itself is not touched. *)
Definition loads_one (m : M MlUtils.State Model) : Prop :=
  forall self w r st,
    m (self, w) = (r, st) ->
    fst st = self /\
    match r with
    | Ok loaded => model_id loaded = loads w /\ loads (snd st) = S (loads w)
    | Raise _ => loads (snd st) = loads w
    end.

End MoreSpec.

Module MoreExamples.

Import Ext Examples.

(** A host on which no pretrained model can be fetched. *)
Definition offline : Env :=
  {| cuda_is_available := false;
     memory_allocated := fun _ => 0%Z;
     max_memory_allocated := fun _ => 100%Z;
     time_time := fun i => inject_Z (Z.of_nat i);
     new_config := fun _ => Ok tt;
     get_model_path := fun _ name _ => Ok name;
     from_pretrained := fun _ _ => Raise (OtherError "OSError" "not found");
     torch_load := fun _ _ => Raise (OtherError "OSError" "not found");
     module_to := fun _ _ => Ok tt;
     module_eval := fun _ => Ok tt;
     module_warm_up := fun _ _ _ => Ok tt;
     module_forward := fun _ _ x => Ok x;
     tokenizer_from_pretrained := fun _ _ => Ok O;
     tokenizer_call := fun _ _ text _ => Ok text;
     tensor_tolist := fun _ out => Ok out |}.

(** The host manager that holds "campaign_model", and the same after a
    forced reload of it. *)
Definition one_model : MlUtils.State :=
  Eval vm_compute in manager_with host ["campaign_model"].

Definition reloaded : MlUtils.State :=
  Eval vm_compute in
    snd (MlUtils.get_model host "campaign_model" "BERT" true one_model).

(** The first call for "campaign_model" of type CUSTOM on the host: the
    handle it returns and the state it leaves. *)
Definition first_call : Model * MlUtils.State :=
  Eval vm_compute in
    match MlUtils.get_model host "campaign_model" "CUSTOM" false
            (manager0 host) with
    | (Ok m, st) => (m, st)
    | (Raise _, st) =>
        ({| model_id := 0; model_source := VNone; model_device := cpu |}, st)
    end.

(** An accelerator that reports two GB in use, the manager with a
    budget of one GB after a call for the model "a" on it, and a second
    model. *)
Definition crowded : Env := gpu (2 * 1024 * 1024 * 1024).

Definition one_resident : MlUtils.State :=
  Eval vm_compute in manager_with crowded ["a"].

Definition second_model : Model :=
  {| model_id := 1; model_source := VStr "b"; model_device := cuda |}.

(** The result and the state of a single [predict] call on the host. *)
Definition predicted : (nat * value) * PytorchService.State :=
  Eval vm_compute in
    match PytorchService.predict host "campaign_model"
            [("text", VList [VStr "first"; VStr "second"])] batch_config
            (service0 host) with
    | (Ok r, st) => ((0, r), st)
    | (Raise _, st) => ((1, VNone), st)
    end.

End MoreExamples.
(* ================================================================== *)
(** ** Further vocabulary: what the service keeps and observes *)
(* ================================================================== *)

Module CacheSpec.

Import Ext.

(** Every entry of [c] is an entry of [c'], with the same object. *)
Definition retains {V} (c c' : Dict.t V) : Prop :=
  forall k v, Dict.get c k = Some v -> Dict.get c' k = Some v.

(** The service object [s'] has the device of [s] and every model that
    [s] has cached. *)
Definition keeps (s s' : PytorchService.PyTorchService) : Prop :=
  retains (PytorchService._model_cache s) (PytorchService._model_cache s') /\
  PytorchService._device s' = PytorchService._device s.

(** [m] takes no model out of the cache of the service and replaces
    none. *)
Definition never_evicts {A} (m : M PytorchService.State A) : Prop :=
  forall st, keeps (fst st) (fst (snd (m st))).

(** The Python object, the number of model objects created so far and
    the load-time histogram. *)
Definition kept {Self} (st : Self * World) : Self * nat * list Q :=
  (fst st, loads (snd st), MODEL_LOAD_TIME (metrics (snd st))).

Definition hits_of {Self} (st : Self * World) : nat :=
  CACHE_HITS (metrics (snd st)).

Definition errors_of {Self} (st : Self * World) : nat :=
  PREDICTION_ERRORS (metrics (snd st)).

(** A request item with a "text" entry. *)
Definition has_text (item : Dict.t value) : Prop :=
  exists text, Dict.get item "text" = Some text.

End CacheSpec.

Module CacheExamples.

Import Ext Examples.

(** The host service after one [predict] call for "campaign_model", and
    the model that call has cached. *)
Definition warm : PytorchService.State :=
  Eval vm_compute in snd MoreExamples.predicted.

Definition warm_model : Model :=
  Eval vm_compute in
    {| model_id := 0; model_source := VStr "models/campaign.pt";
       model_device := DEVICE host |}.

Definition request : Dict.t value :=
  [("text", VList [VStr "first"; VStr "second"])].

(** The state a [load_model] call leaves on a host where [torch.load]
    fails. *)
Definition failed_load : PytorchService.State :=
  Eval vm_compute in
    snd (PytorchService.load_model MoreExamples.offline
           (VStr "models/campaign.pt")
           (VDict [("input_shape", VList [VInt 4])]) true
           (PytorchService.__init__ MoreExamples.offline, advance world0)).

(** The records and the state of a [batch_predict] call on the host. *)
Definition batch_predicted : list value * PytorchService.State :=
  Eval vm_compute in
    match PytorchService.batch_predict host "campaign_model" three_items
            batch_config (service0 host) with
    | (Ok r, st) => (r, st)
    | (Raise _, st) => ([], st)
    end.

End CacheExamples.
(* ================================================================== *)
(** ** Further vocabulary: outliers *)
(* ================================================================== *)

Module OutlierSpec.

Import MlUtils FeaturesSpec.

Local Open Scope float_scope.

(** The elements that the robust strategy finds more than the threshold
    away from the mean of their column, in row-major order. *)
Definition outliers (features : ndarray) (outlier_threshold : float)
  : list float :=
  let features := nan_to_num features in
  select features (greater (z_scores features) outlier_threshold).

(** A column with every outlier replaced by its sign times the median
    of the absolute values of the column. *)
Definition clip_column (col : list float) (outlier_threshold : float)
  : list float :=
  let median := np_median1 (map PrimFloat.abs col) in
  map (fun xz =>
         if PrimFloat.ltb outlier_threshold (snd xz)
         then np_sign (fst xz) * median
         else fst xz)
      (combine col (column_z_scores col)).

(** Twelve rows of two columns; the value 1000 of the first column is
    the only one more than three standard deviations from the mean of
    its column. *)
Definition twelve_rows : ndarray :=
  [[1; 1]; [2; 2]; [3; 3]; [4; 4]; [5; 5]; [6; 6]; [7; 7]; [8; 8];
   [9; 9]; [10; 10]; [11; 11]; [1000; 12]].

End OutlierSpec.

Module TextExamples.

Import Ext Examples.

Definition three_texts : value :=
  VList [VStr "first"; VStr "second"; VStr "third"].

(** What [preprocess_text_data] returns for three texts in batch mode
    on the host, and the state it leaves. *)
Definition encoded : value * PytorchService.State :=
  Eval vm_compute in
    match MlUtils.preprocess_text_data host three_texts (VStr "BERT") true
            None (service0 host) with
    | (Ok v, st) => (v, st)
    | (Raise _, st) => (VNone, st)
    end.

End TextExamples.

Module BreakerSpec.

Import PytorchService.

(** The wrapped function called once at each of the clock readings
    [times], in their order; what is left is the state after the last
    call. *)
Fixpoint calls_at {S A} (wrapped : Q -> M (Breaker * S) A) (times : list Q)
  (st : Breaker * S) : Breaker * S :=
  match times with
  | [] => st
  | t :: rest => calls_at wrapped rest (snd (wrapped t st))
  end.

(** The state after [n] runs of [func] in a row. *)
Fixpoint runs {S A} (func : M S A) (n : nat) (s : S) : S :=
  match n with
  | O => s
  | S n' => runs func n' (snd (func s))
  end.

Definition always_raises {S A} (func : M S A) : Prop :=
  forall s, exists x, fst (func s) = Raise x.

(** An operation that counts its attempts and fails. *)
Definition down : M nat unit :=
  fun attempts => (Raise (RuntimeError "down"), S attempts).

End BreakerSpec.
(* ================================================================== *)
(** ** config.py: the path of a model file *)
(* ================================================================== *)

Module Config.

(** [os.path.join] on POSIX paths: a component that begins with a slash
    replaces what was joined before it; otherwise it is appended, behind
    a slash unless the path is empty or ends in one. *)
Definition is_absolute (s : string) : bool :=
  match s with
  | String c _ => Ascii.eqb c "/"
  | EmptyString => false
  end.

Fixpoint ends_with_sep (s : string) : bool :=
  match s with
  | EmptyString => false
  | String c EmptyString => Ascii.eqb c "/"
  | String _ r => ends_with_sep r
  end.

Definition join2 (path b : string) : string :=
  if is_absolute b then b
  else if String.eqb path "" || ends_with_sep path then (path ++ b)%string
  else (path ++ "/" ++ b)%string.

Definition join (a : string) (p : list string) : string :=
  fold_left join2 p a.

Section Files.

(** The directory of config.py and [os.path.exists]. *)
Variable BASE_DIR : string.
Variable path_exists : string -> bool.

Definition MODEL_CACHE_DIR : string := join BASE_DIR ["models"; "cache"].

Definition get_model_path (model_name version : string) : res string :=
  if String.eqb model_name "" || String.eqb version "" then
    Raise (ValueError "Model name and version must be provided")
  else
    let cache_path :=
      join MODEL_CACHE_DIR [(model_name ++ "-" ++ version)%string] in
    if path_exists cache_path then Ok cache_path
    else
      let model_path :=
        join BASE_DIR
          ["models"; model_name; version; (model_name ++ ".pt")%string] in
      if negb (path_exists model_path) then
        Raise (ValueError ("Model not found at path: " ++ model_path))
      else Ok model_path.

End Files.

(** A file system that holds the one file [file]. *)
Definition only_file (file path : string) : bool := String.eqb path file.

End Config.
(* ================================================================== *)
(** ** models/audience_analyzer.py: the caller of [predict] *)
(* ================================================================== *)

Module AudienceAnalyzer.

Import Ext.

Definition BATCH_SIZE : Z := 32.
Definition CACHE_TTL : Z := 3600.

(** [timedelta.seconds] of a difference of [us] microseconds: the seconds
    within the day, the days are a field of their own. *)
Definition timedelta_seconds (us : Z) : Z :=
  ((us mod 86400000000) / 1000000)%Z.

(** A cache entry [{"result": ..., "timestamp": ...}]; the time stamp in
    microseconds. *)
Record CacheEntry : Type := {
  result : value;
  timestamp : Z
}.

Record AudienceAnalyzer : Type := {
  _platform : string;
  _cache : Dict.t CacheEntry;
  _pytorch_service : PytorchService.PyTorchService
}.

Definition State : Type := (AudienceAnalyzer * World)%type.

Definition __init__ (e : Env) (platform : string) : AudienceAnalyzer :=
  {| _platform := platform; _cache := [];
     _pytorch_service := PytorchService.__init__ e |}.

Definition self_ : M State AudienceAnalyzer := fun st => (Ok (fst st), st).

Definition with_cache (c : Dict.t CacheEntry) (self : AudienceAnalyzer)
  : AudienceAnalyzer :=
  {| _platform := _platform self; _cache := c;
     _pytorch_service := _pytorch_service self |}.

Definition with_service (s : PytorchService.PyTorchService)
  (self : AudienceAnalyzer) : AudienceAnalyzer :=
  {| _platform := _platform self; _cache := _cache self;
     _pytorch_service := s |}.

(** A method of [self._pytorch_service]. *)
Definition on_service {A} (m : M PytorchService.State A) : M State A :=
  fun st =>
    match m (_pytorch_service (fst st), snd st) with
    | (r, (service, w)) => (r, (with_service service (fst st), w))
    end.

(** A module-level function: it has neither the analyzer nor the
    service at hand. *)
Definition outside {A} (f : World -> res A * World) : M State A :=
  fun st => match f (snd st) with (r, w) => (r, (fst st, w)) end.

(** [del self._cache[k]] *)
Definition del_cache (k : string) : M State unit :=
  self <- self_ ;;
  match Dict.del (_cache self) k with
  | Some c => modify (fun st : State => (with_cache c (fst st), snd st))
  | None => raise (KeyError k)
  end.

Section Collaborators.

Variable e : Env.

(** [datetime.now()], in microseconds. *)
Variable datetime_now : nat -> Z.

(** [f"{hash(str(audience_data))}_{language}"] *)
Variable cache_key_of : value -> string -> string.

(** [preprocess_audience_data(audience_data, platform, language)] *)
Variable preprocess_audience_data :
  value -> string -> string -> World -> res value * World.

(** Lines 216 to 239: the segments, the insights and the result that is
    made of them, from [embeddings["prediction"]], the analysis
    parameters, the audience data and the language. *)
Variable build_result : value -> value -> value -> string -> M State value.

(** The decorator [performance_monitored]. *)
Definition performance_monitored {A} (func : M State A) : M State A :=
  start_time <- ask datetime_now ;;
  try_except_reraise
    (result <- func ;;
     finished <- ask datetime_now ;;
     ret result)
    log_error.

Definition _cleanup_cache : M State unit :=
  current_time <- ask datetime_now ;;
  self <- self_ ;;
  let expired_keys :=
    map fst
      (filter
         (fun kv =>
            (CACHE_TTL <? timedelta_seconds
                            (current_time - timestamp (snd kv)))%Z)
         (_cache self)) in
  MlUtils.for_each del_cache expired_keys ;;;
  ret tt.

(** What [analyze_audience] does when the cache has no fresh entry. *)
Definition analyze (cache_key : string)
  (audience_data analysis_params : value) (language : string)
  : M State value :=
  self <- self_ ;;
  processed_features <-
    outside (preprocess_audience_data audience_data (_platform self)
               language) ;;
  embeddings <-
    on_service
      (PytorchService.predict e "audience_embeddings"
         [("features", processed_features)]
         [("batch_size", VInt BATCH_SIZE)]) ;;
  prediction <- subscript embeddings "prediction" ;;
  result <- build_result prediction analysis_params audience_data language ;;
  now <- ask datetime_now ;;
  modify (fun st : State =>
            (with_cache
               (Dict.set (_cache (fst st)) cache_key
                  {| result := result; timestamp := now |})
               (fst st),
             snd st)) ;;;
  _cleanup_cache ;;;
  ret result.

Definition analyze_audience_body
  (audience_data analysis_params : value) (language : string)
  : M State value :=
  try_except_reraise
    (let cache_key := cache_key_of audience_data language in
     self <- self_ ;;
     match Dict.get (_cache self) cache_key with
     | Some cache_entry =>
         now <- ask datetime_now ;;
         if (timedelta_seconds (now - timestamp cache_entry) <? CACHE_TTL)%Z
         then ret (result cache_entry)
         else analyze cache_key audience_data analysis_params language
     | None => analyze cache_key audience_data analysis_params language
     end)
    log_error.

Definition analyze_audience
  (audience_data analysis_params : value) (language : string)
  : M State value :=
  performance_monitored
    (analyze_audience_body audience_data analysis_params language).

End Collaborators.

End AudienceAnalyzer.

Module AnalyzerExamples.

Import Ext Examples.

(** A clock that counts the tape positions, a key made of the language,
    a preprocessor that hands the data on and a result made of the
    prediction alone. *)
Definition clock (i : nat) : Z := Z.of_nat i.

Definition key_of (audience_data : value) (language : string) : string :=
  language.

Definition hand_on (audience_data : value) (platform language : string)
  (w : World) : res value * World :=
  (Ok audience_data, w).

Definition prediction_only (prediction analysis_params audience_data : value)
  (language : string) : M AudienceAnalyzer.State value :=
  ret prediction.

Definition audience : value := VDict [("industry", VStr "software")].

(** An analyzer whose one entry was made at time 0, and a clock that
    shows 25 hours. *)
Definition stale : AudienceAnalyzer.AudienceAnalyzer :=
  {| AudienceAnalyzer._platform := "linkedin";
     AudienceAnalyzer._cache :=
       [("en", {| AudienceAnalyzer.result := VNone;
                  AudienceAnalyzer.timestamp := 0 |})];
     AudienceAnalyzer._pytorch_service := PytorchService.__init__ host |}.

Definition a_day_later (i : nat) : Z := 90000000000.

End AnalyzerExamples.
(* ================================================================== *)
(** * Properties *)
(* ================================================================== *)

(** ** Running monadic code *)

Ltac run :=
  unfold Ext.ask, Ext.call, Ext.empty_cache, Ext.on_metrics, Ext.on_world,
    Ext.new_model, Ext.tick, try_except_reraise, try_finally, log_error,
    bind, ret, raise, lift, modify, get_state in *;
  cbn [fst snd] in *.

(** ** Dictionaries *)

Module DictFacts.

Section Facts.
Context {V : Type}.
Implicit Types (d : Dict.t V) (k : string) (v : V).

Lemma get_set_same d k v : Dict.get (Dict.set d k v) k = Some v.
Proof.
  induction d as [|[k' v'] r IH]; simpl.
  - now rewrite String.eqb_refl.
  - destruct (String.eqb k' k) eqn:E; simpl; rewrite E; auto.
Qed.

Lemma get_set_other d k k' v :
  k <> k' -> Dict.get (Dict.set d k v) k' = Dict.get d k'.
Proof.
  intros N. induction d as [|[k0 v0] r IH]; simpl.
  - destruct (String.eqb k k') eqn:E; auto.
    apply String.eqb_eq in E. contradiction.
  - destruct (String.eqb k0 k) eqn:E; simpl.
    + apply String.eqb_eq in E. subst k0.
      destruct (String.eqb k k') eqn:E'; auto.
      apply String.eqb_eq in E'. contradiction.
    + now rewrite IH.
Qed.

Lemma contains_keys d k : Dict.contains d k = true <-> In k (Dict.keys d).
Proof.
  unfold Dict.contains. induction d as [|[k' v'] r IH]; simpl.
  - split; [discriminate | tauto].
  - destruct (String.eqb k' k) eqn:E.
    + apply String.eqb_eq in E. tauto.
    + apply String.eqb_neq in E. rewrite IH. tauto.
Qed.

Lemma get_in d k v : Dict.get d k = Some v -> In (k, v) d.
Proof.
  induction d as [|[k' v'] r IH]; simpl; [discriminate|].
  destruct (String.eqb k' k) eqn:E.
  - apply String.eqb_eq in E. intros [= ->]. subst. now left.
  - auto.
Qed.

Lemma in_get d k v : NoDup (Dict.keys d) -> In (k, v) d -> Dict.get d k = Some v.
Proof.
  induction d as [|[k' v'] r IH]; simpl; [tauto|].
  intros ND [H|H].
  - inversion H; subst. now rewrite String.eqb_refl.
  - inversion ND as [|? ? Hn ND']; subst.
    destruct (String.eqb k' k) eqn:E.
    + apply String.eqb_eq in E. subst k'. exfalso. apply Hn.
      change k with (fst (k, v)). now apply in_map.
    + auto.
Qed.

End Facts.

(** The keys after an assignment or a deletion depend on the keys alone,
    so two dictionaries that agree on their keys keep agreeing. *)
Lemma keys_set {V W} (d : Dict.t V) (d' : Dict.t W) k v w :
  Dict.keys d = Dict.keys d' ->
  Dict.keys (Dict.set d k v) = Dict.keys (Dict.set d' k w).
Proof.
  revert d'. induction d as [|[k0 v0] r IH]; intros [|[k1 v1] r'] H;
    simpl in *; try discriminate; auto.
  injection H as -> H.
  destruct (String.eqb k1 k); simpl; f_equal; auto.
Qed.

Lemma remove_filter {V} (d : Dict.t V) k :
  NoDup (Dict.keys d) ->
  Dict.remove d k = filter (fun kv => negb (String.eqb (fst kv) k)) d.
Proof.
  induction d as [|[k0 v0] r IH]; simpl; auto.
  intros ND. inversion ND as [|? ? Hn ND']; subst.
  destruct (String.eqb k0 k) eqn:E; simpl.
  - apply String.eqb_eq in E. subst k0.
    symmetry. apply forallb_filter_id.
    apply forallb_forall. intros [k1 v1] Hin. simpl.
    destruct (String.eqb k1 k) eqn:E1; auto.
    apply String.eqb_eq in E1. subst. exfalso. apply Hn.
    change k with (fst (k, v1)). now apply in_map.
  - f_equal. auto.
Qed.

Lemma keys_filter_nodup {V} (d : Dict.t V) f :
  NoDup (Dict.keys d) -> NoDup (Dict.keys (filter f d)).
Proof.
  induction d as [|[k0 v0] r IH]; simpl; auto.
  intros ND. inversion ND as [|? ? Hn ND']; subst.
  destruct (f (k0, v0)); simpl; auto.
  constructor; auto.
  intros Hin. apply Hn. unfold Dict.keys in *.
  apply in_map_iff in Hin as [[k1 v1] [Hk Hin]]. simpl in Hk. subst.
  apply filter_In in Hin as [Hin _].
  change k0 with (fst (k0, v1)). now apply in_map.
Qed.

End DictFacts.

(** ** Inversion of successful runs *)

Lemma bind_inv_ok {S A B} (m : M S A) (k : A -> M S B) s b s1 :
  bind m k s = (Ok b, s1) ->
  exists a s', m s = (Ok a, s') /\ k a s' = (Ok b, s1).
Proof.
  unfold bind. destruct (m s) as [[a|x] s']; [eauto | discriminate].
Qed.

Lemma try_except_inv_ok {S A} (body : M S A) handler s a s1 :
  try_except_reraise body handler s = (Ok a, s1) -> body s = (Ok a, s1).
Proof.
  unfold try_except_reraise. destruct (body s) as [[a'|x] s']; auto.
  destruct (handler s') as [[|] ?]; discriminate.
Qed.


(* ================================================================== *)
(** ** Steady observations *)
(* ================================================================== *)

Module SteadyFacts.

Import Ext MlUtils MoreSpec.

Section Steady.
Context {Self X : Type}.
Variable f : World -> X.
Hypothesis f_advance : forall w, f (advance w) = f w.

Lemma steady_ret {A} (a : A) : steady f (ret a : M (Self * World) A).
Proof. intros st. reflexivity. Qed.

Lemma steady_raise {A} x : steady f (raise x : M (Self * World) A).
Proof. intros st. reflexivity. Qed.

Lemma steady_bind {A B} (m : M (Self * World) A) (k : A -> M _ B) :
  steady f m -> (forall a, steady f (k a)) -> steady f (bind m k).
Proof.
  intros Hm Hk st. unfold bind. specialize (Hm st).
  destruct (m st) as [[a|x] st']; simpl in *; auto.
  now rewrite Hk.
Qed.

Lemma steady_try_except {A} (body : M (Self * World) A) handler :
  steady f body -> steady f handler ->
  steady f (try_except_reraise body handler).
Proof.
  intros Hb Hh st. unfold try_except_reraise. specialize (Hb st).
  destruct (body st) as [[a|x] st']; simpl in *; auto.
  specialize (Hh st'). destruct (handler st') as [[[]|x'] st'']; simpl in *;
    congruence.
Qed.

Lemma steady_try_finally {A} (body : M (Self * World) A) final :
  steady f body -> steady f final -> steady f (try_finally body final).
Proof.
  intros Hb Hf st. unfold try_finally. specialize (Hb st).
  destruct (body st) as [r st']. specialize (Hf st').
  destruct (final st') as [[[]|x'] st'']; simpl in *; congruence.
Qed.

Lemma steady_call {A} (g : nat -> res A) :
  steady f (call g : M (Self * World) A).
Proof.
  intros st. unfold call, bind, tick, lift. simpl. apply f_advance.
Qed.

Lemma steady_on_self (g : Self * World -> Self * World) :
  (forall st, snd (g st) = snd st) ->
  steady f (modify g).
Proof. intros Hg st. simpl. now rewrite Hg. Qed.

Lemma steady_for_each {A B} (g : A -> M (Self * World) B) l :
  (forall a, steady f (g a)) -> steady f (for_each g l).
Proof.
  intros Hg. induction l as [|x r IH]; simpl.
  - apply steady_ret.
  - apply steady_bind; auto. intros y.
    apply steady_bind; auto. intros ys. apply steady_ret.
Qed.

Lemma steady_getitem d k : steady f (getitem d k : M (Self * World) value).
Proof.
  unfold getitem. destruct (Dict.get d k);
    [apply steady_ret | apply steady_raise].
Qed.

Lemma steady_subscript v k :
  steady f (subscript v k : M (Self * World) value).
Proof.
  destruct v; simpl; try apply steady_raise. apply steady_getitem.
Qed.

Lemma steady_preprocess e text model_type batch_mode config :
  steady f (preprocess_text_data e text model_type batch_mode config
            : M (Self * World) value).
Proof.
  unfold preprocess_text_data, validate_input.
  apply steady_try_except; [|apply steady_ret].
  apply steady_try_except; [|apply steady_ret].
  apply steady_bind; [apply steady_call|]. intros _.
  apply steady_bind.
  { destruct model_type; first [apply steady_ret | apply steady_raise]. }
  intros key.
  apply steady_bind; [apply steady_subscript|]. intros versions.
  apply steady_bind; [apply steady_subscript|]. intros current.
  apply steady_bind; [apply steady_call|]. intros tokenizer.
  destruct batch_mode; [|apply steady_call].
  destruct (range0 _ _); [|apply steady_raise].
  apply steady_bind; [|intros; apply steady_ret].
  apply steady_for_each. intros. apply steady_call.
Qed.

End Steady.

End SteadyFacts.

(* ================================================================== *)
(** ** ModelManager *)
(* ================================================================== *)

Module ManagerFacts.

Set Warnings "-inexact-float".

Import Ext MlUtils ManagerSpec MoreSpec SteadyFacts.

(** *** The loading step *)

Lemma world_only_call {A} (f : nat -> res A) : world_only (call f).
Proof. intros self w. reflexivity. Qed.

Lemma world_only_subscript v k : world_only (subscript v k).
Proof.
  intros self w. destruct v; simpl; auto.
  unfold getitem. now destruct (Dict.get d k).
Qed.

Ltac closed_run :=
  let E := fresh "E" in
  intros E; inversion E; subst; clear E; simpl; auto.

Lemma loads_one_new_model source : loads_one (new_model source).
Proof. intros self w r st. closed_run. Qed.

Lemma loads_one_raise x : loads_one (raise x).
Proof. intros self w r st. closed_run. Qed.

Lemma loads_one_bind {A} (m : M State A) (k : A -> M State Model) :
  steady loads m -> world_only m -> (forall a, loads_one (k a)) ->
  loads_one (bind m k).
Proof.
  intros Hs Hw Hk self w r st. unfold bind.
  specialize (Hs (self, w)). specialize (Hw self w).
  destruct (m (self, w)) as [[a|x] [self1 w1]]; simpl in *; subst self1.
  - intros H. apply Hk in H. now rewrite Hs in H.
  - closed_run.
Qed.

(** What the loading step does to the world: a model object with the
    next identity on success, no model object on failure; the manager is
    not touched. *)
Lemma load_by_type_spec e self0 model_name model_type :
  loads_one (load_by_type e self0 model_name model_type).
Proof.
  unfold load_by_type.
  destruct (String.eqb model_type "BERT");
    [|destruct (String.eqb model_type "GPT")];
    repeat first
      [ apply loads_one_new_model
      | apply loads_one_bind;
        [ first [ now apply steady_call | now apply steady_subscript ]
        | first [ apply world_only_call | apply world_only_subscript ]
        | intros ? ] ].
Qed.

Lemma to_device_spec e model d self w r st :
  to_device e model d (self, w) = (r, st) ->
  fst st = self /\ loads (snd st) = loads w /\
  forall moved, r = Ok moved ->
    model_id moved = model_id model /\ model_device moved = d.
Proof.
  unfold to_device. run. destruct (module_to e (calls w) d);
    closed_run; repeat split; auto;
    try discriminate; injection H as <-; reflexivity.
Qed.

(** *** The insert *)

Lemma update_cache_host e key model self w :
  cuda_is_available e = false ->
  _update_cache e key model (self, w)
  = (Ok tt, (touch key 0 (store key model self), w)).
Proof.
  intros Hc. unfold _update_cache. rewrite Hc. reflexivity.
Qed.

(** With an accelerator and no time recorded: over the budget with a
    cache that is not empty, [min] is asked for the least of nothing;
    otherwise the model is stored and the clock is looked up. *)
Lemma update_cache_accelerator e key model self w :
  cuda_is_available e = true ->
  _last_accessed self = [] ->
  _update_cache e key model (self, w) =
    if (memory_allocated e (calls w) >? _cache_size self)%Z
       && negb (Dict.is_empty (_model_cache self))
    then (Raise (ValueError "min() arg is an empty sequence"),
          (self, advance w))
    else (Raise no_current_timestamp, (store key model self, advance w)).
Proof.
  intros Hc Hl. unfold _update_cache. rewrite Hc.
  unfold bind at 1. unfold bind at 1.
  unfold ask at 1, bind at 1, tick, ret at 1. cbn [fst snd].
  unfold bind at 1, self_. cbn [fst snd].
  destruct ((memory_allocated e (calls w) >? _cache_size self)%Z
            && negb (Dict.is_empty (_model_cache self))) eqn:C.
  - destruct (_model_cache self) as [|kv r] eqn:Hcache;
      [rewrite andb_false_r in C; discriminate|].
    cbn [List.length evict_loop fst]. rewrite Hcache, C.
    unfold bind at 1, evict_lru, bind at 1, self_. cbn [fst snd].
    rewrite Hl. reflexivity.
  - assert (E : evict_loop e (List.length (_model_cache self))
                  (memory_allocated e (calls w)) (self, advance w)
                = (Ok tt, (self, advance w))).
    { destruct (List.length (_model_cache self)); cbn [evict_loop fst];
        now rewrite C. }
    rewrite E. reflexivity.
Qed.

(** The insert returns on a host without accelerator only. *)
Lemma update_cache_ok_inv e key model self w u st1 :
  _update_cache e key model (self, w) = (Ok u, st1) ->
  cuda_is_available e = false /\
  st1 = (touch key 0 (store key model self), w).
Proof.
  intros H. destruct (cuda_is_available e) eqn:Hc.
  - exfalso. unfold _update_cache in H. rewrite Hc in H.
    apply bind_inv_ok in H as (u1 & st2 & _ & H).
    apply bind_inv_ok in H as (u2 & st3 & _ & H).
    apply bind_inv_ok in H as (t & st4 & Ht & _).
    discriminate Ht.
  - rewrite (@update_cache_host e key model self w Hc) in H.
    injection H as _ <-. auto.
Qed.

(** *** get_model *)

Lemma valid_type_spec type :
  In type MODEL_TYPES <-> existsb (String.eqb type) MODEL_TYPES = true.
Proof.
  rewrite existsb_exists. split.
  - intros H. exists type. split; [exact H | apply String.eqb_refl].
  - intros (t & Ht & E). apply String.eqb_eq in E. now subst.
Qed.

(** A cache hit ends at the lookup of the clock. *)
Lemma get_model_hit e name type self w cached :
  In type MODEL_TYPES ->
  Dict.get (_model_cache self) (cache_key_of name type) = Some cached ->
  get_model e name type false (self, w)
  = (Raise no_current_timestamp, (self, w)).
Proof.
  intros Ht Hm. apply valid_type_spec in Ht. unfold get_model.
  rewrite Ht. cbn [negb].
  unfold bind at 1, self_. cbn [fst]. rewrite Hm. reflexivity.
Qed.

(** The other calls load, move and insert. *)
Lemma get_model_miss e name type force_reload self w :
  In type MODEL_TYPES ->
  force_reload = true \/
    Dict.get (_model_cache self) (cache_key_of name type) = None ->
  get_model e name type force_reload (self, w)
  = try_except_reraise
      (loaded <- load_by_type e self name type ;;
       model <- to_device e loaded (_device self) ;;
       _update_cache e (cache_key_of name type) model ;;;
       ret model)
      log_error (self, w).
Proof.
  intros Ht Hmiss. apply valid_type_spec in Ht. unfold get_model.
  rewrite Ht. cbn [negb].
  unfold bind at 1, self_. cbn [fst].
  assert (Hnone : (if force_reload then None
                   else Dict.get (_model_cache self)
                          (cache_key_of name type)) = None).
  { destruct Hmiss as [-> | Hn]; [reflexivity|].
    now destruct force_reload. }
  rewrite Hnone. reflexivity.
Qed.

(** What a call that returns has done. *)
Lemma get_model_ok_inv e name type force_reload self w m st1 :
  get_model e name type force_reload (self, w) = (Ok m, st1) ->
  cuda_is_available e = false /\
  In type MODEL_TYPES /\
  (force_reload = true \/
   Dict.get (_model_cache self) (cache_key_of name type) = None) /\
  model_id m = loads w /\
  loads (snd st1) = S (loads w) /\
  model_device m = _device self /\
  fst st1 = touch (cache_key_of name type) 0
              (store (cache_key_of name type) m self).
Proof.
  intros H.
  destruct (existsb (String.eqb type) MODEL_TYPES) eqn:Ht.
  2:{ unfold get_model in H. rewrite Ht in H. discriminate H. }
  apply valid_type_spec in Ht.
  assert (Hmiss : force_reload = true \/
            Dict.get (_model_cache self) (cache_key_of name type) = None).
  { destruct force_reload; [now left | right].
    destruct (Dict.get (_model_cache self) (cache_key_of name type))
      as [cached|] eqn:Hc; [|reflexivity].
    rewrite (@get_model_hit e name type self w cached Ht Hc) in H.
    discriminate H. }
  rewrite (@get_model_miss e name type force_reload self w Ht Hmiss) in H.
  apply try_except_inv_ok in H.
  apply bind_inv_ok in H as (loaded & [self1 w1] & Hl & H).
  apply bind_inv_ok in H as (model & [self2 w2] & Hd & H).
  apply bind_inv_ok in H as (u & st3 & Hu & H).
  unfold ret in H. injection H as <- <-.
  apply (@load_by_type_spec e self name type) in Hl as (Hs1 & Hid & Hloads).
  cbn [fst snd] in Hs1, Hloads. subst self1.
  apply to_device_spec in Hd as (Hs2 & Hl2 & Hmoved).
  cbn [fst snd] in Hs2, Hl2. subst self2.
  destruct (Hmoved model eq_refl) as [Hid2 Hdev].
  apply update_cache_ok_inv in Hu as [Hc ->]. cbn [fst snd].
  repeat split; auto; congruence.
Qed.

(** What a call that raises has done to the manager. *)
Lemma get_model_raise_inv e name type force_reload self w x st1 :
  cuda_is_available e = false \/ _last_accessed self = [] ->
  get_model e name type force_reload (self, w) = (Raise x, st1) ->
  fst st1 = self \/
  (cuda_is_available e = true /\ x = no_current_timestamp /\
   exists m, fst st1 = store (cache_key_of name type) m self).
Proof.
  intros Hshape H.
  destruct (existsb (String.eqb type) MODEL_TYPES) eqn:Ht.
  2:{ unfold get_model in H. rewrite Ht in H.
      injection H as _ <-. now left. }
  apply valid_type_spec in Ht.
  destruct (if force_reload then None
            else Dict.get (_model_cache self) (cache_key_of name type))
    as [cached|] eqn:Hget.
  { destruct force_reload; [discriminate Hget|].
    rewrite (@get_model_hit e name type self w cached Ht Hget) in H.
    injection H as _ <-. now left. }
  assert (Hmiss : force_reload = true \/
            Dict.get (_model_cache self) (cache_key_of name type) = None)
    by (destruct force_reload; auto).
  rewrite (@get_model_miss e name type force_reload self w Ht Hmiss) in H.
  unfold try_except_reraise, log_error, ret in H.
  unfold bind at 1 in H.
  destruct (load_by_type e self name type (self, w))
    as [[loaded|x1] [self1 w1]] eqn:Hl;
    apply load_by_type_spec in Hl as [Hs1 _]; cbn [fst] in Hs1;
    subst self1.
  2:{ injection H as _ <-. now left. }
  unfold bind at 1 in H.
  destruct (to_device e loaded (_device self) (self, w1))
    as [[model|x2] [self2 w2]] eqn:Hd;
    apply to_device_spec in Hd as [Hs2 _]; cbn [fst] in Hs2; subst self2.
  2:{ injection H as _ <-. now left. }
  unfold bind at 1 in H.
  destruct (cuda_is_available e) eqn:Hc.
  - destruct Hshape as [Hf | Hlast]; [discriminate Hf|].
    rewrite (@update_cache_accelerator e _ _ _ _ Hc Hlast) in H.
    destruct (_ && _); injection H as <- <-; cbn [fst].
    + now left.
    + right. repeat split. now exists model.
  - rewrite (@update_cache_host e _ _ _ _ Hc) in H. discriminate H.
Qed.

(** C1.  A second [get_model] call for the same name and type does not
    return the handle: it raises.  Whenever the key is in the cache and
    no reload is forced, the call looks up
    [torch.cuda.current_timestamp] to refresh the last-accessed time;
    [torch.cuda] has no such attribute, the lookup raises an
    [AttributeError] and the call ends there, with the manager and the
    world as they were.  So after a call that returned a handle, which
    is then the entry of the key, the next call with the same name and
    type raises, on every device. *)
Theorem get_model_second_call_raises e name type :
  (forall self w cached,
     In type MODEL_TYPES ->
     Dict.get (_model_cache self) (cache_key_of name type) = Some cached ->
     get_model e name type false (self, w)
     = (Raise no_current_timestamp, (self, w)))
  /\
  (forall st m st1,
     get_model e name type false st = (Ok m, st1) ->
     Dict.get (_model_cache (fst st1)) (cache_key_of name type) = Some m /\
     get_model e name type false st1 = (Raise no_current_timestamp, st1)).
Proof.
  split.
  - intros self w cached. apply get_model_hit.
  - intros [self w] m [self1 w1] H.
    apply get_model_ok_inv in H as (_ & Ht & _ & _ & _ & _ & Hs).
    cbn [fst] in Hs.
    assert (Hc : Dict.get (_model_cache self1) (cache_key_of name type)
                 = Some m).
    { rewrite Hs. cbn. apply DictFacts.get_set_same. }
    split; [exact Hc|]. exact (@get_model_hit e name type self1 w1 m Ht Hc).
Qed.

(** "campaign_model" of type CUSTOM on the host: the first call returns
    the handle, the second raises. *)
Lemma get_model_second_call_raises_witness :
  Dict.get (_model_cache (fst (snd MoreExamples.first_call)))
    (cache_key_of "campaign_model" "CUSTOM")
  = Some (fst MoreExamples.first_call) /\
  get_model Examples.host "campaign_model" "CUSTOM" false
    (snd MoreExamples.first_call)
  = (Raise no_current_timestamp, snd MoreExamples.first_call).
Proof.
  refine (proj2 (@get_model_second_call_raises Examples.host
                   "campaign_model" "CUSTOM")
            (Examples.manager0 Examples.host)
            (fst MoreExamples.first_call) (snd MoreExamples.first_call) _).
  vm_compute. reflexivity.
Defined.

(** *** Forced clear *)

Lemma clear_cache_force e threshold self w :
  clear_cache e true threshold (self, w) =
    (Ok {| cleared_models := 0; memory_freed := freed_all |},
     (with_last (fun _ => []) (with_cache (fun _ => []) self),
      if cuda_is_available e then released w else w)).
Proof.
  unfold clear_cache. run. unfold on_self, self_. run.
  destruct (cuda_is_available e); reflexivity.
Qed.

(** C3.  With one model resident, [clear_cache(force_clear=True)] empties
    both dictionaries and releases the accelerator memory, but the count
    it returns is 0, not 1: [len(self._model_cache)] is taken after the
    cache was cleared. *)
Theorem clear_cache_force_count_after_clear :
  let st := Examples.manager_with (Examples.gpu 0) ["campaign_model"] in
  List.length (_model_cache (fst st)) = 1 /\
  exists st',
    clear_cache (Examples.gpu 0) true 0.9%float st =
      (Ok {| cleared_models := 0; memory_freed := freed_all |}, st') /\
    _model_cache (fst st') = [] /\
    _last_accessed (fst st') = [] /\
    empty_cache_calls (snd st') = S (empty_cache_calls (snd st)).
Proof.
  simpl. split; [reflexivity|]. eexists. split; [reflexivity|].
  simpl. auto.
Qed.

(** *** The eviction loop *)

Lemma remove_length {V} (d : Dict.t V) k :
  Dict.contains d k = true ->
  S (List.length (Dict.remove d k)) = List.length d.
Proof.
  unfold Dict.contains.
  induction d as [|[k0 v0] r IH]; simpl; [discriminate|].
  destruct (String.eqb k0 k); simpl; auto.
Qed.

Lemma del_model_cache_ok k self w u st1 :
  del_model_cache k (self, w) = (Ok u, st1) ->
  Dict.contains (_model_cache self) k = true /\
  st1 = (with_cache (fun _ => Dict.remove (_model_cache self) k) self, w).
Proof.
  unfold del_model_cache, Dict.del, self_, on_self. run.
  destruct (Dict.contains (_model_cache self) k); [|discriminate].
  intros H. injection H as _ <-. auto.
Qed.

Lemma del_last_accessed_ok k self w u st1 :
  del_last_accessed k (self, w) = (Ok u, st1) ->
  _model_cache (fst st1) = _model_cache self.
Proof.
  unfold del_last_accessed, Dict.del, self_, on_self. run.
  destruct (Dict.contains (_last_accessed self) k); [|discriminate].
  intros H. injection H as _ <-. reflexivity.
Qed.

(** A turn of the loop that returns has taken one entry out of the
    cache. *)
Lemma evict_lru_shrinks e self w mem st1 :
  evict_lru e (self, w) = (Ok mem, st1) ->
  S (List.length (_model_cache (fst st1))) = List.length (_model_cache self).
Proof.
  unfold evict_lru. intros H.
  apply bind_inv_ok in H as (s0 & st0 & Hs & H).
  unfold self_ in Hs. injection Hs as <- <-. cbn [fst] in H.
  destruct (min_by_snd (_last_accessed self)) as [[lru t]|]; [|discriminate].
  apply bind_inv_ok in H as (u1 & st2 & Hd1 & H).
  apply bind_inv_ok in H as (u2 & [self3 w3] & Hd2 & H).
  apply bind_inv_ok in H as (u3 & st4 & He & H).
  apply del_model_cache_ok in Hd1 as [Hc ->].
  apply del_last_accessed_ok in Hd2. cbn [fst] in Hd2.
  unfold empty_cache, on_world, modify in He. injection He as _ <-.
  unfold ask, bind, tick, ret in H. cbn [fst snd] in H.
  injection H as _ <-. cbn [fst]. rewrite Hd2. cbn.
  now apply remove_length.
Qed.

(** The bound on the turns of the loop is not what stops it: any bound
    from [len(self._model_cache)] on gives the same run. *)
Lemma evict_loop_bounded e n :
  forall current_memory self w t1 t2,
    List.length (_model_cache self) <= n -> n <= t1 -> n <= t2 ->
    evict_loop e t1 current_memory (self, w)
    = evict_loop e t2 current_memory (self, w).
Proof.
  induction n as [|n IH]; intros mem self w t1 t2 Hlen H1 H2.
  - assert (Hnil : _model_cache self = [])
      by (destruct (_model_cache self); [reflexivity | simpl in Hlen; lia]).
    destruct t1, t2; cbn [evict_loop fst]; rewrite Hnil;
      now rewrite andb_false_r.
  - destruct t1 as [|t1]; [lia|]. destruct t2 as [|t2]; [lia|].
    cbn [evict_loop fst].
    destruct ((mem >? _cache_size self)%Z
              && negb (Dict.is_empty (_model_cache self))); [|reflexivity].
    unfold bind.
    destruct (evict_lru e (self, w)) as [[mem'|x] [self1 w1]] eqn:Hrun;
      [|reflexivity].
    apply evict_lru_shrinks in Hrun. cbn [fst] in Hrun.
    apply IH; lia.
Qed.

Lemma evict_loop_enough e turns current_memory self w :
  List.length (_model_cache self) <= turns ->
  evict_loop e turns current_memory (self, w) =
  evict_loop e (List.length (_model_cache self)) current_memory (self, w).
Proof.
  intros H.
  now apply (@evict_loop_bounded e (List.length (_model_cache self))).
Qed.

(** C6.  With an accelerator the insert does not evict the least
    recently used entry.  No last-accessed time is ever recorded there,
    so that, when the allocated memory exceeds the budget and the cache
    is not empty, [min] is taken of an empty sequence and
    [_update_cache] raises a [ValueError]: nothing is removed, no
    memory is released and the new handle is not inserted.  When the
    budget is met or the cache is empty, the handle is stored and the
    read of the time then raises the [AttributeError] of the missing
    clock.  On a host without an accelerator the budget is not looked
    at: the handle is stored with the time 0 and nothing is evicted. *)
Theorem update_cache_never_evicts e key model self w :
  (cuda_is_available e = true ->
   _last_accessed self = [] ->
   _update_cache e key model (self, w) =
     if (memory_allocated e (calls w) >? _cache_size self)%Z
        && negb (Dict.is_empty (_model_cache self))
     then (Raise (ValueError "min() arg is an empty sequence"),
           (self, advance w))
     else (Raise no_current_timestamp,
           (store key model self, advance w)))
  /\
  (cuda_is_available e = false ->
   _update_cache e key model (self, w)
   = (Ok tt, (touch key 0 (store key model self), w))).
Proof.
  split.
  - apply update_cache_accelerator.
  - apply update_cache_host.
Qed.

(** An accelerator that reports two GB in use, a budget of one GB and
    one model in the cache: the insert of a second model raises. *)
Lemma update_cache_never_evicts_witness :
  _update_cache MoreExamples.crowded "b_BERT" MoreExamples.second_model
    (fst MoreExamples.one_resident, snd MoreExamples.one_resident)
  = if (memory_allocated MoreExamples.crowded
          (calls (snd MoreExamples.one_resident))
        >? _cache_size (fst MoreExamples.one_resident))%Z
       && negb (Dict.is_empty (_model_cache (fst MoreExamples.one_resident)))
    then (Raise (ValueError "min() arg is an empty sequence"),
          (fst MoreExamples.one_resident,
           advance (snd MoreExamples.one_resident)))
    else (Raise no_current_timestamp,
          (store "b_BERT" MoreExamples.second_model
             (fst MoreExamples.one_resident),
           advance (snd MoreExamples.one_resident))).
Proof.
  refine (proj1 (@update_cache_never_evicts MoreExamples.crowded "b_BERT"
                   MoreExamples.second_model
                   (fst MoreExamples.one_resident)
                   (snd MoreExamples.one_resident)) _ _).
  - reflexivity.
  - reflexivity.
Defined.

(** *** Partial clear *)

Lemma drop_nil {V} (d : Dict.t V) : drop [] d = d.
Proof.
  unfold drop. simpl. apply forallb_filter_id.
  now apply forallb_forall.
Qed.

Lemma drop_cons {V} k ks (d : Dict.t V) :
  NoDup (Dict.keys d) -> drop ks (Dict.remove d k) = drop (k :: ks) d.
Proof.
  intros ND. rewrite DictFacts.remove_filter by assumption.
  unfold drop. induction d as [|[k0 v0] r IH]; simpl; auto.
  inversion ND; subst.
  destruct (String.eqb k0 k); simpl; rewrite IH; auto.
Qed.

Lemma remove_keys_in {V} (d : Dict.t V) k k' :
  k' <> k -> In k' (Dict.keys d) -> In k' (Dict.keys (Dict.remove d k)).
Proof.
  intros N. induction d as [|[k0 v0] r IH]; simpl; auto.
  destruct (String.eqb k0 k) eqn:E.
  - apply String.eqb_eq in E. subst. intros [H|H]; [congruence | auto].
  - simpl. intros [H|H]; auto.
Qed.

Lemma clear_cache_host e memory_threshold self w :
  cuda_is_available e = false ->
  clear_cache e false memory_threshold (self, w)
  = (Ok {| cleared_models := 0; memory_freed := freed_none |}, (self, w)).
Proof. intros Hc. unfold clear_cache. now rewrite Hc. Qed.

Lemma clear_cache_accelerator e memory_threshold self w current_memory :
  cuda_is_available e = true ->
  _last_accessed self = [] ->
  truediv (memory_allocated e (calls w))
          (max_memory_allocated e (S (calls w))) = Ok current_memory ->
  clear_cache e false memory_threshold (self, w) =
    if PrimFloat.ltb memory_threshold current_memory
    then (Ok {| cleared_models := 0;
                memory_freed := freed_ratio current_memory |},
          (self, released (advance (advance w))))
    else (Ok {| cleared_models := 0; memory_freed := freed_none |},
          (self, advance (advance w))).
Proof.
  intros Hc Hl Hq. unfold clear_cache. rewrite Hc.
  unfold bind at 1, ask at 1, bind at 1, tick, ret at 1. cbn [fst snd].
  unfold bind at 1, ask at 1, bind at 1, tick, ret at 1. cbn [fst snd].
  unfold bind at 1, lift. cbn [calls advance]. rewrite Hq.
  destruct (PrimFloat.ltb memory_threshold current_memory);
    [|reflexivity].
  unfold bind at 1, self_. cbn [fst]. rewrite Hl.
  replace (firstn (List.length (_model_cache self) / 2) (sorted_by_snd []))
    with (@nil (string * Z)) by (now destruct (_ / 2)).
  reflexivity.
Qed.

Lemma clear_cache_division_raises e memory_threshold self w x :
  cuda_is_available e = true ->
  truediv (memory_allocated e (calls w))
          (max_memory_allocated e (S (calls w))) = Raise x ->
  clear_cache e false memory_threshold (self, w)
  = (Raise x, (self, advance (advance w))).
Proof.
  intros Hc Hq. unfold clear_cache. rewrite Hc.
  unfold bind at 1, ask at 1, bind at 1, tick, ret at 1. cbn [fst snd].
  unfold bind at 1, ask at 1, bind at 1, tick, ret at 1. cbn [fst snd].
  unfold bind at 1, lift. cbn [calls advance]. now rewrite Hq.
Qed.

(** A partial clear of a manager without recorded times leaves it as it
    was, whatever the call returns or raises. *)
Lemma clear_cache_partial_keeps e memory_threshold self w :
  cuda_is_available e = false \/ _last_accessed self = [] ->
  fst (snd (clear_cache e false memory_threshold (self, w))) = self.
Proof.
  intros Hshape. destruct (cuda_is_available e) eqn:Hc.
  - destruct Hshape as [Hf | Hl]; [discriminate Hf|].
    destruct (truediv (memory_allocated e (calls w))
                (max_memory_allocated e (S (calls w)))) as [q|x] eqn:Hq.
    + rewrite (@clear_cache_accelerator e memory_threshold self w _ Hc Hl Hq).
      now destruct (PrimFloat.ltb memory_threshold q).
    + now rewrite (@clear_cache_division_raises e memory_threshold self w _
                     Hc Hq).
  - now rewrite (@clear_cache_host e memory_threshold self w Hc).
Qed.

(** C7.  [clear_cache(force_clear=False)] never removes a model.  With
    an accelerator it acts when the float quotient
    [memory_allocated() / max_memory_allocated()] is above the
    threshold, but the entries it removes are the first half of the
    last-accessed times in their order, and no time is ever recorded on
    an accelerator: it removes nothing, releases the accelerator memory
    and reports zero cleared, however many models are cached.  At or
    below the threshold, and on a host without an accelerator, it does
    nothing and reports zero. *)
Theorem clear_cache_partial_removes_nothing e memory_threshold self w :
  (cuda_is_available e = false ->
   clear_cache e false memory_threshold (self, w)
   = (Ok {| cleared_models := 0; memory_freed := freed_none |}, (self, w)))
  /\
  (cuda_is_available e = true ->
   _last_accessed self = [] ->
   forall current_memory,
     truediv (memory_allocated e (calls w))
             (max_memory_allocated e (S (calls w))) = Ok current_memory ->
     clear_cache e false memory_threshold (self, w) =
       if PrimFloat.ltb memory_threshold current_memory
       then (Ok {| cleared_models := 0;
                   memory_freed := freed_ratio current_memory |},
             (self, released (advance (advance w))))
       else (Ok {| cleared_models := 0; memory_freed := freed_none |},
             (self, advance (advance w))))
  /\
  (cuda_is_available e = false \/ _last_accessed self = [] ->
   forall r st',
     clear_cache e false memory_threshold (self, w) = (r, st') ->
     fst st' = self /\
     forall stats, r = Ok stats -> cleared_models stats = 0).
Proof.
  split; [|split].
  - apply clear_cache_host.
  - intros Hc Hl q Hq. now apply clear_cache_accelerator.
  - intros Hshape r st' H. split.
    + rewrite <- (@clear_cache_partial_keeps e memory_threshold self w Hshape).
      now rewrite H.
    + intros stats ->. destruct (cuda_is_available e) eqn:Hc.
      * destruct Hshape as [Hf | Hl]; [discriminate Hf|].
        destruct (truediv (memory_allocated e (calls w))
                    (max_memory_allocated e (S (calls w))))
          as [q|x] eqn:Hq.
        -- rewrite (@clear_cache_accelerator e memory_threshold self w _ Hc Hl Hq)
             in H.
           destruct (PrimFloat.ltb memory_threshold q);
             injection H as <- _; reflexivity.
        -- rewrite (@clear_cache_division_raises e memory_threshold self w _
                      Hc Hq) in H. discriminate H.
      * rewrite (@clear_cache_host e memory_threshold self w Hc) in H.
        injection H as <- _. reflexivity.
Qed.

(** Two models in the cache of an accelerator that reports 95 of 100
    bytes in use: the clear acts, and leaves both. *)
Lemma clear_cache_partial_removes_nothing_witness :
  clear_cache (Examples.gpu 95) false 0.9%float
    (fst Examples.two_models, snd Examples.two_models) =
    if PrimFloat.ltb 0.9%float 0.95%float
    then (Ok {| cleared_models := 0;
                memory_freed := freed_ratio 0.95%float |},
          (fst Examples.two_models,
           released (advance (advance (snd Examples.two_models)))))
    else (Ok {| cleared_models := 0; memory_freed := freed_none |},
          (fst Examples.two_models,
           advance (advance (snd Examples.two_models)))).
Proof.
  refine (proj1 (proj2 (@clear_cache_partial_removes_nothing
                          (Examples.gpu 95) 0.9%float
                          (fst Examples.two_models)
                          (snd Examples.two_models)))
            _ _ 0.95%float _).
  - reflexivity.
  - reflexivity.
  - vm_compute. reflexivity.
Defined.

End ManagerFacts.

(* ================================================================== *)
(** ** The inference service *)
(* ================================================================== *)

Module ServiceFacts.

Import Ext PytorchService ServiceSpec.

(** *** The circuit breaker *)

Lemma Qltb_lt x y : Qltb x y = true <-> (x < y)%Q.
Proof.
  unfold Qltb. rewrite negb_true_iff, <- not_true_iff_false, Qle_bool_iff.
  split; [apply Qnot_le_lt | apply Qlt_not_le].
Qed.

Lemma Qltb_ge x y : Qltb x y = false <-> (y <= x)%Q.
Proof.
  unfold Qltb. rewrite negb_false_iff. apply Qle_bool_iff.
Qed.

Lemma last_default {A} (l : list A) d d' :
  l <> [] -> List.last l d = List.last l d'.
Proof.
  induction l as [|y l IH]; intros Hne; [congruence|].
  destruct l as [|z l]; [reflexivity|].
  change (List.last (z :: l) d = List.last (z :: l) d').
  apply IH. discriminate.
Qed.

Lemma last_cons_default {A} (x : A) (l : list A) d :
  List.last (x :: l) d = List.last l x.
Proof.
  destruct l as [|y l]; [reflexivity|].
  change (List.last (y :: l) d = List.last (y :: l) x).
  apply last_default. discriminate.
Qed.

(** While the count stays below [max_failures], every call of an
    operation that fails is passed on and counted. *)
Lemma calls_at_failing {S A} (max_failures reset_timeout : Z)
  (func : M S A) :
  BreakerSpec.always_raises func ->
  forall times b s,
    (failures b + Z.of_nat (List.length times) <= max_failures)%Z ->
    BreakerSpec.calls_at (circuit_breaker max_failures reset_timeout func)
      times (b, s)
    = ({| failures := failures b + Z.of_nat (List.length times);
          last_failure_time := List.last times (last_failure_time b) |},
       BreakerSpec.runs func (List.length times) s).
Proof.
  intros Hf. induction times as [|t rest IH]; intros b s Hb.
  - cbn. rewrite Z.add_0_r. now destruct b.
  - cbn [BreakerSpec.calls_at]. unfold circuit_breaker at 2.
    cbn [fst snd List.length] in *.
    assert (G : (failures b >=? max_failures)%Z = false)
      by (rewrite Z.geb_leb; apply Z.leb_gt; lia).
    rewrite G. cbn [andb].
    destruct (Hf s) as [x Hx].
    destruct (func s) as [[a|x'] s'] eqn:F; [discriminate Hx|].
    cbn [snd]. rewrite IH by (cbn [failures]; lia).
    cbn [failures last_failure_time BreakerSpec.runs].
    rewrite F, last_cons_default. cbn [snd]. do 2 f_equal. lia.
Qed.

(** C4.  Once the failure count has reached [max_failures] and less than
    [reset_timeout] seconds have passed since the last failure, a call
    raises the circuit-open error and leaves the breaker and the state
    of the wrapped operation as they were, whatever the operation is:
    the operation is not run.  A call that returns leaves the failure
    count at zero.  In every other case, that is while the count is
    below [max_failures] or once [reset_timeout] seconds or more have
    passed since the last failure, the operation is run and its result
    is the result of the call: a success clears the count, a failure
    adds one to it and records the time.  The open state is reached:
    behind a new breaker, [max_failures] calls of an operation that
    fails every time are all passed on, leave the count at
    [max_failures] and the time of the last of them recorded, and a
    call less than [reset_timeout] seconds after that one is refused. *)
Theorem circuit_breaker_trip_and_reset {S A} (max_failures reset_timeout : Z)
  (func : M S A) (current_time : Q) (b : Breaker) (s : S) :
  ((max_failures <= failures b)%Z ->
   (current_time - last_failure_time b < inject_Z reset_timeout)%Q ->
   forall other : M S A,
     circuit_breaker max_failures reset_timeout other current_time (b, s)
       = (Raise circuit_open, (b, s)))
  /\
  (forall result b' s',
     circuit_breaker max_failures reset_timeout func current_time (b, s)
       = (Ok result, (b', s')) ->
     failures b' = 0%Z /\ func s = (Ok result, s'))
  /\
  ((failures b < max_failures)%Z \/
   (inject_Z reset_timeout <= current_time - last_failure_time b)%Q ->
   circuit_breaker max_failures reset_timeout func current_time (b, s) =
     match func s with
     | (Ok result, s') =>
         (Ok result,
          ({| failures := 0; last_failure_time := last_failure_time b |},
           s'))
     | (Raise x, s') =>
         (Raise x,
          ({| failures := failures b + 1;
              last_failure_time := current_time |}, s'))
     end)
  /\
  (forall times : list Q,
     (0 < max_failures)%Z ->
     BreakerSpec.always_raises func ->
     List.length times = Z.to_nat max_failures ->
     (current_time - List.last times 0%Q < inject_Z reset_timeout)%Q ->
     let st :=
       BreakerSpec.calls_at
         (circuit_breaker max_failures reset_timeout func) times
         (breaker_init, s) in
     failures (fst st) = max_failures /\
     last_failure_time (fst st) = List.last times 0%Q /\
     snd st = BreakerSpec.runs func (Z.to_nat max_failures) s /\
     forall other : M S A,
       circuit_breaker max_failures reset_timeout other current_time st
         = (Raise circuit_open, st)).
Proof.
  assert (Open : forall (other : M S A) b0 s0,
            (max_failures <= failures b0)%Z ->
            (current_time - last_failure_time b0
             < inject_Z reset_timeout)%Q ->
            circuit_breaker max_failures reset_timeout other current_time
              (b0, s0)
            = (Raise circuit_open, (b0, s0))).
  { intros other b0 s0 Hmax Hwin. unfold circuit_breaker. cbn [fst snd].
    apply Z.geb_le in Hmax. apply Qltb_lt in Hwin.
    now rewrite Hmax, Hwin. }
  split; [|split; [|split]].
  - intros Hmax Hwin other. now apply Open.
  - intros result b' s'. unfold circuit_breaker. cbn [fst snd].
    destruct ((failures b >=? max_failures)%Z && _); [discriminate|].
    destruct (func s) as [[r|x] s1]; [|discriminate].
    intros [= <- <- <-]. auto.
  - intros Hclosed. unfold circuit_breaker. cbn [fst snd].
    destruct Hclosed as [Hlow | Helapsed].
    + assert (G : (failures b >=? max_failures)%Z = false)
        by (rewrite Z.geb_leb; apply Z.leb_gt; lia).
      now rewrite G.
    + apply Qltb_ge in Helapsed. rewrite Helapsed, andb_false_r.
      reflexivity.
  - intros times Hpos Hf Hlen Hwin st. subst st.
    rewrite (calls_at_failing reset_timeout Hf)
      by (cbn [failures breaker_init]; lia).
    cbn [fst snd failures last_failure_time breaker_init].
    rewrite Hlen.
    assert (E : (0 + Z.of_nat (Z.to_nat max_failures))%Z = max_failures)
      by lia.
    rewrite E. repeat split.
    intros other. apply Open; cbn [failures last_failure_time];
      [lia | exact Hwin].
Qed.

(** Three failures at the seconds 0, 1 and 2 open the default breaker: a
    call at second 3 is refused, and the operation, which would have
    counted a fourth attempt, is not run. *)
Lemma circuit_breaker_trip_and_reset_witness :
  let st :=
    BreakerSpec.calls_at (circuit_breaker 3 300 BreakerSpec.down)
      [0; 1; 2]%Q (breaker_init, 0) in
  failures (fst st) = 3%Z /\
  last_failure_time (fst st) = List.last [0; 1; 2]%Q 0%Q /\
  snd st = BreakerSpec.runs BreakerSpec.down (Z.to_nat 3) 0 /\
  forall other : M nat unit,
    circuit_breaker 3 300 other 3 st = (Raise circuit_open, st).
Proof.
  refine (proj2 (proj2 (proj2
    (@circuit_breaker_trip_and_reset nat unit 3 300 BreakerSpec.down 3
       breaker_init 0))) [0; 1; 2]%Q _ _ _ _).
  - lia.
  - intros s. eexists. reflexivity.
  - reflexivity.
  - reflexivity.
Defined.

(** *** predict on an empty input *)

(** C8.  [predict] on an empty [input_data] raises the invalid-input
    error before the cache is looked at: the model cache and the number
    of loaded objects are unchanged, no load time is observed and no
    cache hit is counted.  The monitor counts the error and observes the
    inference time. *)
Theorem predict_empty_input e model_name prediction_config self w :
  exists w',
    predict e model_name [] prediction_config (self, w) =
      (Raise (ValueError "Invalid input data or model name"), (self, w')) /\
    loads w' = loads w /\
    MODEL_LOAD_TIME (metrics w') = MODEL_LOAD_TIME (metrics w) /\
    CACHE_HITS (metrics w') = CACHE_HITS (metrics w) /\
    PREDICTION_ERRORS (metrics w') = S (PREDICTION_ERRORS (metrics w)) /\
    calls w' = calls w + 2.
Proof.
  eexists. split; [reflexivity|]. simpl. repeat split. lia.
Qed.

(** *** No call reports an open circuit *)

Section NeverOpen.
Context {S : Type}.

Lemma never_open_ret {A} (a : A) : never_open (ret a : M S A).
Proof. intros s. discriminate. Qed.

Lemma never_open_raise {A} x :
  x <> circuit_open -> never_open (raise x : M S A).
Proof. intros N s. simpl. congruence. Qed.

Lemma never_open_lift {A} (r : res A) : quiet r -> never_open (lift r : M S A).
Proof. intros Q s. exact Q. Qed.

Lemma never_open_modify f : never_open (modify f : M S unit).
Proof. intros s. discriminate. Qed.

Lemma never_open_bind {A B} (m : M S A) (k : A -> M S B) :
  never_open m -> (forall a, never_open (k a)) -> never_open (bind m k).
Proof.
  intros Hm Hk s. unfold bind. specialize (Hm s).
  destruct (m s) as [[a|x] s']; [apply Hk|].
  simpl in *. intros E. apply Hm. now injection E as ->.
Qed.

Lemma never_open_try_except {A} (body : M S A) handler :
  never_open body -> never_open handler ->
  never_open (try_except_reraise body handler).
Proof.
  intros Hb Hh s. unfold try_except_reraise. specialize (Hb s).
  destruct (body s) as [[a|x] s']; [discriminate|].
  specialize (Hh s'). destruct (handler s') as [[[]|x'] s'']; simpl in *.
  - exact Hb.
  - congruence.
Qed.

Lemma never_open_try_finally {A} (body : M S A) final :
  never_open body -> never_open final ->
  never_open (try_finally body final).
Proof.
  intros Hb Hf s. unfold try_finally. specialize (Hb s).
  destruct (body s) as [r s'].
  specialize (Hf s'). destruct (final s') as [[[]|x'] s'']; simpl in *.
  - exact Hb.
  - congruence.
Qed.

Lemma never_open_log : never_open (log_error : M S unit).
Proof. apply never_open_ret. Qed.

Lemma never_open_for_each {A B} (f : A -> M S B) l :
  (forall a, never_open (f a)) -> never_open (MlUtils.for_each f l).
Proof.
  intros Hf. induction l as [|x r IH]; simpl.
  - apply never_open_ret.
  - apply never_open_bind; auto. intros y.
    apply never_open_bind; auto. intros ys. apply never_open_ret.
Qed.

Lemma never_open_getitem d k : never_open (getitem d k : M S value).
Proof.
  unfold getitem. destruct (Dict.get d k).
  - apply never_open_ret.
  - apply never_open_raise. discriminate.
Qed.

Lemma never_open_subscript v k : never_open (subscript v k : M S value).
Proof.
  destruct v; simpl; try (apply never_open_raise; discriminate).
  apply never_open_getitem.
Qed.

Lemma never_open_extend results x :
  never_open (extend results x : M S (list value)).
Proof.
  destruct x; simpl;
    first [apply never_open_ret | apply never_open_raise; discriminate].
Qed.

End NeverOpen.

Section NeverOpenWorld.
Context {Self : Type}.

Lemma never_open_tick : never_open (tick : M (Self * World) nat).
Proof. intros s. discriminate. Qed.

Lemma never_open_ask {A} (f : nat -> A) :
  never_open (ask f : M (Self * World) A).
Proof. intros s. discriminate. Qed.

Lemma never_open_call {A} (f : nat -> res A) :
  (forall i, quiet (f i)) -> never_open (call f : M (Self * World) A).
Proof. intros Q s. apply Q. Qed.

Lemma never_open_on_world f :
  never_open (on_world f : M (Self * World) unit).
Proof. intros s. discriminate. Qed.

Lemma never_open_new_model v :
  never_open (new_model v : M (Self * World) Model).
Proof. intros s. discriminate. Qed.

Lemma never_open_monitor {A} e name (func : M (Self * World) A) :
  never_open func -> never_open (monitor_resources e name func).
Proof.
  intros Hf. unfold monitor_resources.
  apply never_open_bind; [apply never_open_ask|]. intros start_time.
  apply never_open_try_finally.
  - apply never_open_try_except; [|apply never_open_on_world].
    apply never_open_bind; auto. intros result.
    apply never_open_bind; [|intros; apply never_open_ret].
    destruct (cuda_is_available e); [|apply never_open_ret].
    apply never_open_bind; [apply never_open_ask|].
    intros. apply never_open_on_world.
  - apply never_open_bind; [apply never_open_ask|]. intros now.
    destruct (String.eqb name "predict"); [apply never_open_on_world|].
    destruct (String.eqb name "load_model");
      [apply never_open_on_world | apply never_open_ret].
Qed.

Lemma never_open_load_model e model_path model_config warm_up :
  quiet_env e ->
  never_open (load_model e model_path model_config warm_up
              : M (Self * World) Model).
Proof.
  intros Q. unfold load_model. apply never_open_monitor.
  unfold load_model_body.
  apply never_open_try_except; [|apply never_open_log].
  destruct (negb (truthy model_path) || negb (truthy model_config)).
  { apply never_open_raise. discriminate. }
  apply never_open_bind; [apply never_open_ask|]. intros start_time.
  apply never_open_bind; [apply never_open_call; intros; apply Q|].
  intros is_module.
  apply never_open_bind; [apply never_open_new_model|]. intros model.
  apply never_open_bind; [apply never_open_ask|]. intros now.
  destruct (Qgtb _ _); [apply never_open_raise; discriminate|].
  destruct (negb is_module); [apply never_open_raise; discriminate|].
  apply never_open_bind; [apply never_open_call; intros; apply Q|].
  intros _.
  apply never_open_bind; [apply never_open_call; intros; apply Q|].
  intros _.
  apply never_open_bind; [|intros; apply never_open_ret].
  destruct warm_up; [|apply never_open_ret].
  destruct model_config; try (apply never_open_raise; discriminate).
  apply never_open_call; intros; apply Q.
Qed.

Lemma never_open_preprocess e text model_type batch_mode config :
  quiet_env e ->
  never_open (MlUtils.preprocess_text_data e text model_type batch_mode
                config : M (Self * World) value).
Proof.
  intros Q. unfold MlUtils.preprocess_text_data, MlUtils.validate_input.
  apply never_open_try_except; [|apply never_open_log].
  apply never_open_try_except; [|apply never_open_log].
  apply never_open_bind; [apply never_open_call; intros; apply Q|].
  intros _.
  apply never_open_bind.
  { destruct model_type;
      first [apply never_open_ret | apply never_open_raise; discriminate]. }
  intros key.
  apply never_open_bind; [apply never_open_subscript|]. intros versions.
  apply never_open_bind; [apply never_open_subscript|]. intros current.
  apply never_open_bind; [apply never_open_call; intros; apply Q|].
  intros tokenizer.
  destruct batch_mode; [|apply never_open_call; intros; apply Q].
  destruct (MlUtils.range0 _ _) as [starts|x] eqn:R.
  - apply never_open_bind; [|intros; apply never_open_ret].
    apply never_open_for_each. intros batch.
    apply never_open_call; intros; apply Q.
  - apply never_open_raise. unfold MlUtils.range0 in R.
    destruct MlUtils.MAX_BATCH_SIZE; [|discriminate].
    injection R as <-. discriminate.
Qed.

End NeverOpenWorld.

Lemma never_open_predict e model_name input_data prediction_config :
  quiet_env e ->
  never_open (predict e model_name input_data prediction_config).
Proof.
  intros Q. unfold predict. apply never_open_monitor.
  unfold predict_body.
  apply never_open_try_except; [|apply never_open_log].
  destruct (Dict.is_empty input_data || String.eqb model_name "").
  { apply never_open_raise. discriminate. }
  apply never_open_bind; [intros s; discriminate|]. intros self.
  apply never_open_bind.
  { destruct (Dict.get (_model_cache self) model_name).
    - apply never_open_bind; [apply never_open_on_world|].
      intros. apply never_open_ret.
    - apply never_open_bind; [apply never_open_getitem|]. intros p.
      apply never_open_bind; [apply never_open_getitem|]. intros c.
      apply never_open_bind; [now apply never_open_load_model|]. intros m.
      apply never_open_bind; [apply never_open_modify|].
      intros. apply never_open_ret. }
  intros model.
  apply never_open_bind; [apply never_open_getitem|]. intros text.
  apply never_open_bind; [now apply never_open_preprocess|]. intros input.
  apply never_open_bind; [apply never_open_ask|]. intros start_time.
  apply never_open_bind; [apply never_open_call; intros; apply Q|].
  intros output.
  apply never_open_bind; [apply never_open_ask|]. intros now.
  destruct (Qgtb _ _); [apply never_open_raise; discriminate|].
  apply never_open_bind; [apply never_open_call; intros; apply Q|].
  intros prediction.
  apply never_open_bind; [apply never_open_ask|]. intros finished.
  apply never_open_ret.
Qed.

Lemma never_open_batch_loop e model_name batch_config batches :
  quiet_env e ->
  forall results,
    never_open (batch_loop e model_name batch_config results batches).
Proof.
  intros Q. induction batches as [|batch rest IH]; intros results; simpl.
  - apply never_open_ret.
  - apply never_open_bind; auto.
    unfold batch_step, batch_prediction.
    apply never_open_bind; [|intros; apply never_open_extend].
    apply never_open_bind.
    { apply never_open_for_each. intros. apply never_open_getitem. }
    intros texts.
    apply never_open_bind; [now apply never_open_preprocess|]. intros b.
    apply never_open_bind; [now apply never_open_predict|]. intros r.
    apply never_open_subscript.
Qed.

Lemma never_open_batch_predict K e model_name batch_data batch_config :
  quiet_env e ->
  never_open (batch_predict_with K e model_name batch_data batch_config).
Proof.
  intros Q. unfold batch_predict_with. apply never_open_monitor.
  unfold batch_predict_body.
  apply never_open_try_except; [|apply never_open_log].
  destruct batch_data as [|item rest].
  { apply never_open_raise. discriminate. }
  apply never_open_bind.
  { apply never_open_lift. unfold batches_of, MlUtils.range0.
    destruct (Nat.min _ K); discriminate. }
  intros batches.
  apply never_open_bind; [now apply never_open_batch_loop|].
  intros. apply never_open_ret.
Qed.

Lemma never_open_clear_cache e : never_open (clear_cache e).
Proof.
  unfold clear_cache.
  apply never_open_try_except; [|apply never_open_log].
  apply never_open_bind; [apply never_open_modify|]. intros _.
  destruct (cuda_is_available e);
    [apply never_open_on_world | apply never_open_ret].
Qed.

(** C5.  As long as no collaborator raises it, the circuit-open error is
    raised by none of [predict], [batch_predict], [clear_cache] and
    [load_model], on any input and in any state: no function of the
    service is wrapped by the circuit breaker. *)
Theorem service_never_reports_open_circuit e :
  quiet_env e ->
  (forall model_name input_data prediction_config st,
     fst (predict e model_name input_data prediction_config st)
       <> Raise circuit_open) /\
  (forall model_name batch_data batch_config st,
     fst (batch_predict e model_name batch_data batch_config st)
       <> Raise circuit_open) /\
  (forall st, fst (clear_cache e st) <> Raise circuit_open) /\
  (forall model_path model_config warm_up (st : State),
     fst (load_model e model_path model_config warm_up st)
       <> Raise circuit_open).
Proof.
  intros Q. repeat split.
  - intros. now apply never_open_predict.
  - intros. now apply never_open_batch_predict.
  - intros. apply never_open_clear_cache.
  - intros. now apply never_open_load_model.
Qed.

Lemma quiet_host : quiet_env Examples.host.
Proof.
  constructor; intros; unfold quiet; simpl; discriminate.
Qed.

(** On a host where every collaborator succeeds. *)
Lemma service_never_reports_open_circuit_witness :
  (forall model_name input_data prediction_config st,
     fst (predict Examples.host model_name input_data prediction_config st)
       <> Raise circuit_open) /\
  (forall model_name batch_data batch_config st,
     fst (batch_predict Examples.host model_name batch_data batch_config st)
       <> Raise circuit_open) /\
  (forall st, fst (clear_cache Examples.host st) <> Raise circuit_open) /\
  (forall model_path model_config warm_up (st : State),
     fst (load_model Examples.host model_path model_config warm_up st)
       <> Raise circuit_open).
Proof.
  apply service_never_reports_open_circuit. exact quiet_host.
Defined.

(** *** Inversion of monitored and collaborator calls *)

Lemma monitor_inv_ok {Self A} e name (func : M (Self * World) A) st a st' :
  monitor_resources e name func st = (Ok a, st') ->
  exists st1, func (fst st, advance (snd st)) = (Ok a, st1).
Proof.
  unfold monitor_resources.
  destruct (cuda_is_available e); run;
    destruct (func (fst st, advance (snd st))) as [[a1|x] st1];
    destruct (String.eqb name "predict"),
      (String.eqb name "load_model"); simpl;
    intros H; try discriminate H;
    injection H as <- _; eauto.
Qed.

Lemma raise_not_ok {S A} x (st : S) (a : A) st' :
  raise x st = (Ok a, st') -> False.
Proof. discriminate. Qed.

Lemma ask_inv {Self A} (h : nat -> A) (s : Self) w a st :
  ask h (s, w) = (Ok a, st) -> a = h (calls w) /\ st = (s, advance w).
Proof. unfold ask, bind, tick, ret. cbn. intros [= <- <-]. auto. Qed.

Lemma call_inv {Self A} (h : nat -> res A) (s : Self) w a st :
  call h (s, w) = (Ok a, st) -> h (calls w) = Ok a /\ st = (s, advance w).
Proof.
  unfold call, bind, tick, lift. cbn. intros H.
  injection H as H <-. auto.
Qed.

(** *** Batches *)

Lemma slices_concat {A} (step : nat) :
  forall m (l : list A),
    List.length l <= m * step ->
    List.concat (map (fun j => MlUtils.slice l (j * step) step) (seq 0 m)) = l.
Proof.
  induction m as [|m IH]; intros l Hlen.
  - simpl in *. destruct l; [reflexivity | simpl in Hlen; lia].
  - rewrite <- cons_seq, <- seq_shift, map_cons, map_map. simpl List.concat.
    unfold MlUtils.slice at 1. simpl skipn.
    transitivity (firstn step l ++ skipn step l);
      [|apply firstn_skipn].
    f_equal.
    rewrite <- (IH (skipn step l)).
    + f_equal. apply map_ext. intros j. unfold MlUtils.slice.
      rewrite skipn_skipn. f_equal. f_equal. lia.
    + rewrite length_skipn. simpl in Hlen. lia.
Qed.

Lemma range0_covers stop step :
  0 < step -> stop <= (stop + step - 1) / step * step.
Proof.
  intros Hs.
  pose proof (Nat.div_mod_eq (stop + step - 1) step) as D.
  pose proof (Nat.mod_upper_bound (stop + step - 1) step) as U.
  nia.
Qed.

(** The batches are consecutive pieces of the input, none longer than
    the batch size, and together they are the input. *)
Lemma batches_of_spec K (batch_data : list (Dict.t value)) :
  0 < K -> batch_data <> [] ->
  exists batches,
    batches_of K batch_data = Ok batches /\
    List.concat batches = batch_data /\
    Forall (fun batch => List.length batch <= K) batches.
Proof.
  intros HK Hne. unfold batches_of, MlUtils.range0.
  assert (Hn : 0 < List.length batch_data).
  { destruct batch_data; [congruence | simpl; lia]. }
  set (n := List.length batch_data) in *.
  destruct (Nat.min n K) as [|b] eqn:Hb; [lia|].
  eexists. split; [reflexivity|]. rewrite map_map. split.
  - apply slices_concat. apply range0_covers. lia.
  - apply Forall_forall. intros batch Hin.
    apply in_map_iff in Hin as (j & <- & _).
    unfold MlUtils.slice. rewrite length_firstn. lia.
Qed.

(** *** What a batch is predicted from *)

Lemma for_each_length {S A B} (f : A -> M S B) (l : list A) :
  forall st ys st',
    MlUtils.for_each f l st = (Ok ys, st') -> List.length ys = List.length l.
Proof.
  induction l as [|x r IH]; intros st ys st' H; cbn [MlUtils.for_each] in H.
  - unfold ret in H. now injection H as <- _.
  - apply bind_inv_ok in H as (y & st1 & _ & H).
    apply bind_inv_ok in H as (ys' & st2 & Hys & H).
    unfold ret in H. injection H as <- _. simpl. f_equal. eauto.
Qed.

(** Outside batch mode the result is what the tokenizer answered for the
    text as it was given. *)
Lemma preprocess_single_ok {Self} e text model_type config
  (st : Self * World) v st' :
  MlUtils.preprocess_text_data e text model_type false config st
    = (Ok v, st') ->
  exists i tokenizer max_length,
    tokenizer_call e i tokenizer text max_length = Ok v.
Proof.
  unfold MlUtils.preprocess_text_data, MlUtils.validate_input. intros H.
  do 2 apply try_except_inv_ok in H.
  apply bind_inv_ok in H as (u & st1 & _ & H).
  apply bind_inv_ok in H as (key & st2 & _ & H).
  apply bind_inv_ok in H as (versions & st3 & _ & H).
  apply bind_inv_ok in H as (current & st4 & _ & H).
  apply bind_inv_ok in H as (tokenizer & [s5 w5] & _ & H).
  apply call_inv in H as [H _]. eauto.
Qed.

(** In batch mode the result is a list with one encoding for every 32
    texts. *)
Lemma preprocess_batch_count {Self} e texts model_type config
  (st : Self * World) v st' :
  MlUtils.preprocess_text_data e (VList texts) model_type true config st
    = (Ok v, st') ->
  exists encodings,
    v = VList encodings /\
    List.length encodings = (List.length texts + 31) / 32.
Proof.
  unfold MlUtils.preprocess_text_data, MlUtils.validate_input. intros H.
  do 2 apply try_except_inv_ok in H.
  apply bind_inv_ok in H as (u & st1 & _ & H).
  apply bind_inv_ok in H as (key & st2 & _ & H).
  apply bind_inv_ok in H as (versions & st3 & _ & H).
  apply bind_inv_ok in H as (current & st4 & _ & H).
  apply bind_inv_ok in H as (tokenizer & st5 & _ & H).
  unfold MlUtils.range0, MlUtils.MAX_BATCH_SIZE in H.
  apply bind_inv_ok in H as (encodings & st6 & He & H).
  unfold ret in H. injection H as <- _.
  apply for_each_length in He. exists encodings. split; [reflexivity|].
  rewrite He, !length_map, length_seq. f_equal. lia.
Qed.

(** The prediction of a [predict] call that returns: the text is handed
    to the tokenizer, the encoding to the model and the output to the
    conversion, and the list it yields is the prediction. *)
Lemma predict_ok_prediction e model_name input_data prediction_config
  st r st' :
  predict e model_name input_data prediction_config st = (Ok r, st') ->
  exists text encoded output prediction i1 tokenizer max_length i2 model i3
         rest,
    Dict.get input_data "text" = Some text /\
    tokenizer_call e i1 tokenizer text max_length = Ok encoded /\
    module_forward e i2 model encoded = Ok output /\
    tensor_tolist e i3 output = Ok prediction /\
    r = VDict (("prediction", prediction) :: rest).
Proof.
  unfold predict. intros H. apply monitor_inv_ok in H as (st1 & H).
  unfold predict_body in H. apply try_except_inv_ok in H.
  destruct (Dict.is_empty input_data || String.eqb model_name "");
    [discriminate H|].
  apply bind_inv_ok in H as (self & st2 & _ & H).
  apply bind_inv_ok in H as (model & st3 & _ & H).
  apply bind_inv_ok in H as (text & st4 & Ht & H).
  apply bind_inv_ok in H as (encoded & st5 & He & H).
  apply bind_inv_ok in H as (start_time & [s6 w6] & _ & H).
  apply bind_inv_ok in H as (output & [s7 w7] & Ho & H).
  apply bind_inv_ok in H as (now & [s8 w8] & _ & H).
  destruct (Qgtb _ _); [discriminate H|].
  apply bind_inv_ok in H as (prediction & [s9 w9] & Hp & H).
  apply bind_inv_ok in H as (finished & st10 & _ & H).
  unfold ret in H. injection H as <- _.
  apply preprocess_single_ok in He as (i1 & tokenizer & max_length & He).
  apply call_inv in Ho as [Ho _]. apply call_inv in Hp as [Hp _].
  unfold getitem in Ht.
  destruct (Dict.get input_data "text") as [t|]; [|discriminate Ht].
  unfold ret in Ht. injection Ht as -> _.
  repeat eexists; eauto.
Qed.

(** One turn of the loop of [batch_predict], with collaborators that
    answer row by row: the batch is encoded as a whole, the list of the
    one encoding is handed to [predict], which has it encoded again as
    a list of one text, and the prediction is a list of one row. *)
Lemma batch_prediction_rows e model_name batch_config batch st p st' :
  row_wise e ->
  1 <= List.length batch <= 32 ->
  batch_prediction e model_name batch_config batch st = (Ok p, st') ->
  exists l, p = VList l /\ List.length l = 1.
Proof.
  intros Hrow Hlen H. unfold batch_prediction in H.
  apply bind_inv_ok in H as (texts & st1 & Ht & H).
  apply bind_inv_ok in H as (pre & st2 & Hpre & H).
  apply bind_inv_ok in H as (r & st3 & Hr & H).
  apply for_each_length in Ht.
  apply preprocess_batch_count in Hpre as (encodings & -> & He).
  assert (He1 : List.length encodings = 1).
  { rewrite He, Ht.
    replace (List.length batch + 31) with (1 * 32 + (List.length batch - 1))
      by lia.
    rewrite Nat.div_add_l by lia. rewrite Nat.div_small by lia. lia. }
  apply predict_ok_prediction in Hr
    as (text & encoded & output & prediction & i1 & tokenizer & max_length
        & i2 & model & i3 & rest & Hg & Htok & Hfw & Hls & ->).
  cbn in Hg. injection Hg as <-.
  destruct (@rows_tokenizer e Hrow _ _ _ _ _ Htok encodings eq_refl)
    as (l1 & -> & H1).
  destruct (@rows_forward e Hrow _ _ _ _ Hfw l1 eq_refl) as (l2 & -> & H2).
  destruct (@rows_tolist e Hrow _ _ _ Hls l2 eq_refl) as (l & -> & Hl).
  cbn in H. unfold ret in H. injection H as <- _.
  exists l. split; [reflexivity | lia].
Qed.

Lemma batch_loop_count e model_name batch_config batches :
  row_wise e ->
  Forall (fun batch => 1 <= List.length batch <= 32) batches ->
  forall results st r st',
    batch_loop e model_name batch_config results batches st = (Ok r, st') ->
    List.length r = List.length results + List.length batches.
Proof.
  intros Hrow. induction 1 as [|batch rest Hb _ IH];
    intros results st r st' H; cbn [batch_loop] in H.
  - unfold ret in H. injection H as <- _. simpl. lia.
  - apply bind_inv_ok in H as (results' & st1 & Hs & H).
    apply IH in H. rewrite H. clear H.
    unfold batch_step in Hs.
    apply bind_inv_ok in Hs as (p & st2 & Hp & Hs).
    eapply batch_prediction_rows in Hp; eauto.
    destruct Hp as (l & -> & Hl).
    cbn in Hs. unfold ret in Hs. injection Hs as <- _.
    rewrite length_app, Hl. simpl. lia.
Qed.

Lemma batches_of_nonempty K (batch_data : list (Dict.t value)) batches :
  0 < K -> batch_data <> [] ->
  batches_of K batch_data = Ok batches ->
  List.length batches
    = (List.length batch_data + Nat.min (List.length batch_data) K - 1)
      / Nat.min (List.length batch_data) K /\
  Forall (fun batch => 1 <= List.length batch <= K) batches.
Proof.
  intros HK Hne. unfold batches_of, MlUtils.range0.
  assert (Hn : 0 < List.length batch_data).
  { destruct batch_data; [congruence | simpl; lia]. }
  set (n := List.length batch_data) in *.
  set (k := Nat.min n K).
  assert (Hk : 0 < k <= K) by (unfold k; lia).
  destruct k as [|k'] eqn:Ek; [lia|]. rewrite <- Ek in *.
  intros [= <-]. rewrite !length_map, length_seq.
  split; [reflexivity|].
  apply Forall_forall. intros batch Hin. rewrite map_map in Hin.
  apply in_map_iff in Hin as (j & <- & Hj). apply in_seq in Hj.
  unfold MlUtils.slice. rewrite length_firstn, length_skipn. fold n.
  assert (Hlt : j * k < n).
  { pose proof (Nat.div_mod_eq (n + k - 1) k) as D.
    pose proof (Nat.mod_upper_bound (n + k - 1) k) as U. nia. }
  lia.
Qed.

(** C2.  [batch_predict] does not return one record per item.  With
    collaborators that answer row by row, a call that returns yields
    one record per batch: the loop runs over the consecutive pieces of
    the input, each piece is encoded as a whole and the list of that one
    encoding is handed to [predict], which has it encoded once more as
    a list of one text, so that the model sees one row and the
    prediction of the piece is a list of one row.  For N items and a
    batch size K of at most 32 that is [ceil(N / min(N, K))] records,
    fewer than N as soon as N and K are both above one. *)
Theorem batch_predict_one_record_per_batch K e model_name batch_data
  batch_config st records st' :
  0 < K <= 32 ->
  row_wise e ->
  batch_predict_with K e model_name batch_data batch_config st
    = (Ok records, st') ->
  let N := List.length batch_data in
  List.length records = (N + Nat.min N K - 1) / Nat.min N K /\
  (2 <= N -> 2 <= K -> List.length records < N).
Proof.
  intros HK Hrow H. cbv zeta. unfold batch_predict_with in H.
  apply monitor_inv_ok in H as (st1 & H).
  unfold batch_predict_body in H. apply try_except_inv_ok in H.
  destruct batch_data as [|item rest] eqn:E; [discriminate H|].
  rewrite <- E in *.
  assert (Hne : batch_data <> []) by (rewrite E; discriminate).
  clear E.
  apply bind_inv_ok in H as (batches & st2 & Hb & H).
  apply bind_inv_ok in H as (results & st3 & Hl & H).
  unfold ret in H. injection H as <- _.
  unfold lift in Hb. injection Hb as Hb _.
  destruct (@batches_of_nonempty K batch_data batches) as [Hcount Hsizes];
    [lia | exact Hne | exact Hb |].
  eapply batch_loop_count in Hl; eauto.
  2:{ eapply Forall_impl; [|exact Hsizes]. cbn. intros; lia. }
  rewrite length_map, Hl, Hcount. cbn [List.length Nat.add].
  set (N := List.length batch_data).
  split; [reflexivity|].
  intros HN HK2.
  assert (Hmin : 2 <= Nat.min N K) by lia.
  apply Nat.Div0.div_lt_upper_bound. nia.
Qed.

(** Three items on the host, whose collaborators hand on what they are
    given: one record, made of the three texts. *)
Lemma batch_predict_one_record_per_batch_witness :
  let N := List.length Examples.three_items in
  List.length (fst Examples.batch_records)
    = (N + Nat.min N 32 - 1) / Nat.min N 32 /\
  (2 <= N -> 2 <= 32 -> List.length (fst Examples.batch_records) < N).
Proof.
  refine (@batch_predict_one_record_per_batch 32 Examples.host
            "campaign_model" Examples.three_items Examples.batch_config
            (Examples.service0 Examples.host)
            (fst Examples.batch_records) (snd Examples.batch_records)
            _ _ _).
  - lia.
  - split.
    + intros i t x n y [= <-] l ->. eauto.
    + intros i m x y [= <-] l ->. eauto.
    + intros i x y [= <-] l ->. eauto.
  - vm_compute. reflexivity.
Defined.

End ServiceFacts.


(* ================================================================== *)
(** ** normalize_features *)
(* ================================================================== *)

Module FeaturesFacts.

Import MlUtils FeaturesSpec OutlierSpec.

Local Open Scope float_scope.

Lemma is_infinity_eqb x :
  PrimFloat.is_infinity x
  = PrimFloat.eqb x infinity || PrimFloat.eqb x neg_infinity.
Proof.
  unfold PrimFloat.is_infinity.
  rewrite !FloatAxioms.eqb_spec, FloatAxioms.abs_spec.
  destruct (Prim2SF x) as [s|s| |s m e]; try destruct s; reflexivity.
Qed.

Lemma nan_to_num1_finite x : finite (nan_to_num1 x) = true.
Proof.
  unfold nan_to_num1.
  destruct (PrimFloat.is_nan x) eqn:N; [reflexivity|].
  destruct (PrimFloat.eqb x infinity) eqn:P; [reflexivity|].
  destruct (PrimFloat.eqb x neg_infinity) eqn:M; [reflexivity|].
  unfold finite. now rewrite N, is_infinity_eqb, P, M.
Qed.

Lemma nan_to_num1_id x : finite x = true -> nan_to_num1 x = x.
Proof.
  unfold finite, nan_to_num1. rewrite is_infinity_eqb.
  destruct (PrimFloat.is_nan x); [discriminate|].
  destruct (PrimFloat.eqb x infinity); [discriminate|].
  destruct (PrimFloat.eqb x neg_infinity); [discriminate|]. reflexivity.
Qed.

(** The infinities are not mapped to zero: with the standard strategy
    the array [[+inf]] reaches the scaler as [[max_float]]. *)
Lemma infinity_is_not_zeroed :
  features_before_scaling [[infinity]] "standard" 3
    = Ok [[max_float]] /\
  finite infinity = false /\
  max_float <> 0.
Proof. repeat split. discriminate. Qed.

(** C10, amended.  Before anything else, [normalize_features] replaces
    every NaN with zero, plus infinity with the largest finite float64
    and minus infinity with the smallest, and leaves the finite values
    as they are, so that every value is finite afterwards; the array so
    obtained is what is scaled (standard, minmax) or clipped and then
    scaled (robust). *)
Theorem nan_to_num_before_scaling :
  (forall x, PrimFloat.is_nan x = true -> nan_to_num1 x = 0) /\
  nan_to_num1 infinity = max_float /\
  nan_to_num1 neg_infinity = - max_float /\
  (forall x, finite x = true -> nan_to_num1 x = x) /\
  (forall x, finite (nan_to_num1 x) = true) /\
  (forall fit_transform features outlier_threshold,
     normalize_features fit_transform features "standard" outlier_threshold
       = fit_transform "standard"%string (map (map nan_to_num1) features) /\
     normalize_features fit_transform features "minmax" outlier_threshold
       = fit_transform "minmax"%string (map (map nan_to_num1) features) /\
     normalize_features fit_transform features "robust" outlier_threshold
       = match clip_outliers (map (map nan_to_num1) features)
                 outlier_threshold with
         | Ok clipped => fit_transform "robust"%string clipped
         | Raise x => Raise x
         end).
Proof.
  repeat split.
  - intros x N. unfold nan_to_num1. now rewrite N.
  - apply nan_to_num1_id.
  - apply nan_to_num1_finite.
Qed.

(** The finite value 1.5 stays as it is. *)
Lemma nan_to_num_before_scaling_witness : nan_to_num1 1.5 = 1.5.
Proof.
  refine (proj1 (proj2 (proj2 (proj2 nan_to_num_before_scaling))) 1.5 _).
  reflexivity.
Defined.

(** *** The sums of numpy *)

Lemma pairwise_sum_enough depth :
  forall a, (List.length a <= depth)%nat ->
    pairwise_sum depth a = pairwise_sum (List.length a) a.
Proof.
  induction depth as [depth IH] using lt_wf_ind. intros a Hlen.
  destruct (Nat.ltb_spec (List.length a) 8) as [Small|Big].
  { apply Nat.ltb_lt in Small.
    destruct depth, (List.length a) eqn:E; cbn [pairwise_sum];
      rewrite ?E, ?Small; reflexivity. }
  destruct (Nat.leb_spec (List.length a) 128) as [Block|Long].
  { apply Nat.ltb_ge in Big. apply Nat.leb_le in Block.
    destruct depth, (List.length a) eqn:E; cbn [pairwise_sum];
      rewrite ?E, ?Big, ?Block; reflexivity. }
  destruct depth as [|depth']; [lia|].
  destruct (List.length a) as [|n'] eqn:E; [lia|].
  cbn [pairwise_sum]. rewrite E.
  rewrite (proj2 (Nat.ltb_ge _ _) Big), (proj2 (Nat.leb_gt _ _) Long).
  set (n2 := (S n' / 2 - (S n' / 2) mod 8)%nat).
  assert (Hhalf : (S n' / 2 <= n')%nat).
  { pose proof (Nat.div_mod_eq (S n') 2).
    pose proof (Nat.mod_upper_bound (S n') 2). lia. }
  assert (Hn2 : (n2 <= S n' / 2)%nat) by (unfold n2; lia).
  assert (Hpos : (0 < n2)%nat).
  { unfold n2. pose proof (Nat.mod_upper_bound (S n' / 2) 8).
    pose proof (Nat.div_mod_eq (S n') 2).
    pose proof (Nat.mod_upper_bound (S n') 2). lia. }
  assert (L1 : (List.length (firstn n2 a) <= n')%nat)
    by (rewrite length_firstn; lia).
  assert (L2 : (List.length (skipn n2 a) <= n')%nat)
    by (rewrite length_skipn; lia).
  assert (D : forall part, (List.length part <= n')%nat ->
            pairwise_sum depth' part = pairwise_sum n' part).
  { intros part Hp. rewrite (IH depth') by lia.
    symmetry. apply IH; lia. }
  now rewrite !D.
Qed.

(** *** Shapes *)

Lemma ncols_map (f : float -> float) (a : ndarray) :
  ncols (map (map f) a) = ncols a.
Proof. destruct a as [|row a]; simpl; [reflexivity | apply length_map]. Qed.

Lemma ncols_nan_to_num (a : ndarray) : ncols (nan_to_num a) = ncols a.
Proof. apply ncols_map. Qed.

Lemma length_columns (a : ndarray) : List.length (columns a) = ncols a.
Proof. unfold columns. now rewrite length_map, length_seq. Qed.

Lemma robust_is_known :
  negb (existsb (String.eqb "robust") scaling_methods) = false.
Proof. reflexivity. Qed.

(** The robust strategy on an array of [k] columns with [n] outliers. *)
Lemma clip_outliers_shapes (features : ndarray) outlier_threshold :
  let n :=
    List.length
      (select features (greater (z_scores features) outlier_threshold)) in
  let k := ncols features in
  (n = k \/ k = 1%nat ->
   exists clipped, clip_outliers features outlier_threshold = Ok clipped) /\
  (n <> k -> k <> 1%nat ->
   exists msg,
     clip_outliers features outlier_threshold = Raise (ValueError msg)).
Proof.
  intros n k. unfold clip_outliers.
  set (mask := greater (z_scores features) outlier_threshold) in *.
  set (signs := map np_sign (select features mask)).
  set (medians := map np_median1 (columns (map (map PrimFloat.abs) features))).
  assert (Hs : List.length signs = n) by (unfold signs; apply length_map).
  assert (Hm : List.length medians = k).
  { unfold medians. now rewrite length_map, length_columns, ncols_map. }
  unfold broadcast_mul, assign_masked. fold n. rewrite Hs, Hm.
  split.
  - intros H. destruct (Nat.eqb_spec n k) as [E|E].
    + rewrite length_map, length_combine, Hs, Hm, E, Nat.min_id.
      rewrite Nat.eqb_refl. eauto.
    + destruct H as [H|H]; [contradiction|]. rewrite H in *.
      destruct (Nat.eqb_spec n 1) as [E1|E1]; [contradiction|].
      rewrite Nat.eqb_refl, length_map, Hs, Nat.eqb_refl. eauto.
  - intros E K1.
    destruct (Nat.eqb_spec n k) as [|_]; [contradiction|].
    destruct (Nat.eqb_spec n 1) as [E1|E1].
    + rewrite length_map, Hm.
      destruct (Nat.eqb_spec k n) as [|_]; [congruence|].
      destruct (Nat.eqb_spec k 1) as [|_]; [contradiction|]. eauto.
    + destruct (Nat.eqb_spec k 1) as [|_]; [contradiction|]. eauto.
Qed.

(** C9.  The robust strategy does not clip the one outlier of a column
    that has other columns beside it.  On an array of two or more
    columns in which exactly one value has a z-score above the
    threshold, [normalize_features] raises a [ValueError]: the sign of
    the one selected value is multiplied with the medians of all the
    columns, and the products, one per column, cannot be assigned to
    the one selected position.  Nothing is clipped and the scaler is
    not reached. *)
Theorem robust_single_outlier_beside_columns features outlier_threshold :
  (2 <= ncols features)%nat ->
  List.length (outliers features outlier_threshold) = 1%nat ->
  forall fit_transform,
  exists msg,
    normalize_features fit_transform features "robust" outlier_threshold
      = Raise (ValueError msg).
Proof.
  intros K One fit_transform.
  pose proof (clip_outliers_shapes (nan_to_num features) outlier_threshold)
    as [_ Hraise].
  cbv zeta in Hraise. rewrite ncols_nan_to_num in Hraise.
  fold (outliers features outlier_threshold) in Hraise.
  unfold normalize_features, features_before_scaling.
  rewrite robust_is_known. cbn [String.eqb Ascii.eqb Bool.eqb].
  destruct Hraise as [msg Hr]; [lia | lia |].
  rewrite Hr. eauto.
Qed.

(** Twelve rows of two columns with the default threshold: the value
    1000 of the first column is the one outlier. *)
Lemma robust_single_outlier_beside_columns_witness :
  exists msg,
    normalize_features (fun _ prepared => Ok prepared)
      OutlierSpec.twelve_rows "robust" 3
      = Raise (ValueError msg).
Proof.
  refine (@robust_single_outlier_beside_columns OutlierSpec.twelve_rows 3
            _ _ (fun _ prepared => Ok prepared)).
  - simpl. lia.
  - vm_compute. reflexivity.
Defined.

(** *** One column *)

Lemma columns_as_column col :
  col <> [] -> columns (as_column col) = [col].
Proof.
  intros Hne. unfold columns, ncols, as_column.
  destruct col as [|x r]; [congruence|].
  simpl. f_equal. f_equal. unfold column.
  rewrite map_map. simpl. now rewrite map_id.
Qed.

Lemma ncols_as_column (col : list float) :
  col <> [] -> ncols (as_column col) = 1%nat.
Proof. destruct col; [congruence | reflexivity]. Qed.

Lemma z_scores_as_column col :
  col <> [] -> z_scores (as_column col) = as_column (column_z_scores col).
Proof.
  intros Hne. unfold z_scores.
  rewrite (columns_as_column Hne), (ncols_as_column Hne).
  unfold as_column, column_z_scores. rewrite !map_map. reflexivity.
Qed.

Lemma greater_as_column zs threshold :
  greater (as_column zs) threshold
  = as_column (map (PrimFloat.ltb threshold) zs).
Proof. unfold greater, as_column. now rewrite !map_map. Qed.

Example robust_clips_100 :
  features_before_scaling (as_column [1; 2; 3; 4; 100]) "robust" 1.5
    = Ok (as_column [1; 2; 3; 4; 3]).
Proof. vm_compute. reflexivity. Qed.

Set Warnings "-inexact-float".

(** Eight values in one column are added pairwise: with this threshold
    no z-score is above it, while added in order the z-score of 10
    would be. *)
Example robust_eight_rows :
  features_before_scaling
    (as_column [0.3; 1.1; 10; 0.3; 0.2; 1.1; 0.3; 0.2]) "robust"
    2.6288281509930518
  = Ok (as_column [0.3; 1.1; 10; 0.3; 0.2; 1.1; 0.3; 0.2]).
Proof. vm_compute. reflexivity. Qed.

End FeaturesFacts.
(* ================================================================== *)
(** ** Further properties of the manager *)
(* ================================================================== *)

Module MoreManagerFacts.

Import Ext MlUtils ManagerSpec MoreSpec ManagerFacts SteadyFacts.

(** *** Calls that return and calls that raise *)

(** X1.  A [get_model] call returns only on a host without accelerator,
    and only when it had to load, because the reload was forced or the
    key was not in the cache.  What it returns is then a new model
    object: its identity is the next unused one, one more object exists
    afterwards, it sits on the manager's device, it is the entry of the
    key in the cache and the time recorded for the key is 0. *)
Theorem get_model_load_is_fresh e model_name model_type force_reload
  self w m self' w' :
  get_model e model_name model_type force_reload (self, w)
    = (Ok m, (self', w')) ->
  cuda_is_available e = false /\
  (force_reload = true \/
   Dict.get (_model_cache self) (cache_key_of model_name model_type)
     = None) /\
  model_id m = loads w /\
  loads w' = S (loads w) /\
  model_device m = _device self /\
  Dict.get (_model_cache self') (cache_key_of model_name model_type)
    = Some m /\
  Dict.get (_last_accessed self') (cache_key_of model_name model_type)
    = Some 0%Z.
Proof.
  intros H.
  apply get_model_ok_inv in H as (Hc & _ & Hmiss & Hid & Hl & Hd & Hs).
  cbn [fst snd] in Hl, Hs. subst self'.
  repeat split; auto; cbn; apply DictFacts.get_set_same.
Qed.

(** The forced reload of "campaign_model" on the host. *)
Lemma get_model_load_is_fresh_witness :
  let m := {| model_id := 1; model_source := VStr "campaign_model";
              model_device := cpu |} in
  cuda_is_available Examples.host = false /\
  (true = true \/
   Dict.get (_model_cache (fst MoreExamples.one_model))
     (cache_key_of "campaign_model" "BERT") = None) /\
  model_id m = loads (snd MoreExamples.one_model) /\
  loads (snd MoreExamples.reloaded) = 2 /\
  model_device m = _device (fst MoreExamples.one_model) /\
  Dict.get (_model_cache (fst MoreExamples.reloaded))
           (cache_key_of "campaign_model" "BERT") = Some m /\
  Dict.get (_last_accessed (fst MoreExamples.reloaded))
           (cache_key_of "campaign_model" "BERT") = Some 0%Z.
Proof.
  refine (@get_model_load_is_fresh Examples.host "campaign_model" "BERT"
            true (fst MoreExamples.one_model) (snd MoreExamples.one_model)
            _ (fst MoreExamples.reloaded) (snd MoreExamples.reloaded) _).
  vm_compute. reflexivity.
Defined.

(** X2.  A [get_model] call that raises leaves the manager as it was,
    with one exception: on an accelerator, when the load and the move
    to the device went well and [_update_cache] stored the model before
    it failed at the clock, the model stays in the cache, with no time
    recorded for it, and the error is the [AttributeError] of the
    clock.  (On an accelerator the manager holds no recorded time, as
    every manager made by [__init__] and used through its operations
    does.) *)
Theorem get_model_raise_effect e model_name model_type force_reload
  self w x self' w' :
  (cuda_is_available e = true -> _last_accessed self = []) ->
  get_model e model_name model_type force_reload (self, w)
    = (Raise x, (self', w')) ->
  self' = self \/
  (cuda_is_available e = true /\ x = no_current_timestamp /\
   exists m, self' = store (cache_key_of model_name model_type) m self).
Proof.
  intros Hshape H.
  apply get_model_raise_inv in H; [exact H|].
  destruct (cuda_is_available e); auto.
Qed.

(** The first call on an accelerator: the model is stored and the call
    raises. *)
Lemma get_model_raise_effect_witness :
  fst MoreExamples.one_resident = fst (Examples.manager0 MoreExamples.crowded)
  \/
  (cuda_is_available MoreExamples.crowded = true /\
   no_current_timestamp = no_current_timestamp /\
   exists m,
     fst MoreExamples.one_resident
     = store (cache_key_of "a" "BERT") m
         (fst (Examples.manager0 MoreExamples.crowded))).
Proof.
  refine (@get_model_raise_effect MoreExamples.crowded "a" "BERT" false
            (fst (Examples.manager0 MoreExamples.crowded))
            (snd (Examples.manager0 MoreExamples.crowded))
            no_current_timestamp
            (fst MoreExamples.one_resident) (snd MoreExamples.one_resident)
            _ _).
  - reflexivity.
  - vm_compute. reflexivity.
Defined.

(** *** What the operations make of a manager *)

Lemma keys_set_new {V} (d : Dict.t V) k v :
  Dict.keys (Dict.set d k v)
  = if Dict.contains d k then Dict.keys d else Dict.keys d ++ [k].
Proof.
  unfold Dict.contains. induction d as [|[k0 v0] r IH]; simpl; auto.
  destruct (String.eqb k0 k) eqn:E; simpl; auto.
  rewrite IH. now destruct (Dict.get r k).
Qed.

Lemma nodup_keys_set {V} (d : Dict.t V) k v :
  NoDup (Dict.keys d) -> NoDup (Dict.keys (Dict.set d k v)).
Proof.
  intros ND. rewrite keys_set_new.
  destruct (Dict.contains d k) eqn:C; auto.
  apply NoDup_app; auto.
  - repeat constructor. simpl. tauto.
  - intros k' Hk [<-|[]]. apply DictFacts.contains_keys in Hk. congruence.
Qed.

Lemma forall_set {V} (P : string * V -> Prop) (d : Dict.t V) k v :
  (forall k', P (k', v)) -> Forall P d -> Forall P (Dict.set d k v).
Proof.
  intros Hv. induction d as [|[k0 v0] r IH]; simpl; intros H.
  - repeat constructor. apply Hv.
  - inversion H as [|? ? H0 Hr]; subst.
    destruct (String.eqb k0 k); constructor; auto.
Qed.

Lemma as_left_init e cache_size enable_gpu version_config :
  as_left e (__init__ e cache_size enable_gpu version_config).
Proof.
  split; [constructor|]. simpl.
  destruct (cuda_is_available e); auto.
Qed.

Lemma as_left_store e key model self :
  cuda_is_available e = true ->
  as_left e self -> as_left e (store key model self).
Proof.
  intros Hc [ND Hl]. rewrite Hc in Hl. split.
  - simpl. now apply nodup_keys_set.
  - rewrite Hc. exact Hl.
Qed.

Lemma as_left_insert e key model self :
  cuda_is_available e = false ->
  as_left e self -> as_left e (touch key 0 (store key model self)).
Proof.
  intros Hc [ND Hl]. rewrite Hc in Hl. destruct Hl as [EQ Hz]. split.
  - simpl. now apply nodup_keys_set.
  - rewrite Hc. simpl. split.
    + now apply DictFacts.keys_set.
    + apply forall_set; auto.
Qed.

Lemma as_left_cleared e self :
  as_left e (with_last (fun _ => []) (with_cache (fun _ => []) self)).
Proof.
  split; [constructor|]. simpl. destruct (cuda_is_available e); auto.
Qed.

Lemma as_left_shape e self :
  as_left e self ->
  cuda_is_available e = false \/ _last_accessed self = [].
Proof.
  intros [_ H]. destruct (cuda_is_available e); auto.
Qed.

Lemma as_left_apply_op e st o :
  as_left e (fst st) -> as_left e (fst (apply_op e st o)).
Proof.
  destruct st as [self w]. cbn [fst]. intros Hs.
  destruct o as [name type force | force threshold]; cbn [apply_op].
  - destruct (get_model e name type force (self, w)) as [[m|x] st1] eqn:H;
      cbn [snd].
    + apply get_model_ok_inv in H as (Hc & _ & _ & _ & _ & _ & ->).
      now apply as_left_insert.
    + apply get_model_raise_inv in H; [|now apply as_left_shape].
      destruct H as [-> | (Hc & _ & m & ->)]; [exact Hs|].
      now apply as_left_store.
  - destruct force.
    + rewrite clear_cache_force. cbn [fst snd]. apply as_left_cleared.
    + rewrite clear_cache_partial_keeps by now apply as_left_shape.
      exact Hs.
Qed.

(** X3.  Starting from [ModelManager.__init__], after any sequence of
    [get_model] and [clear_cache] calls, with any arguments and whether
    they return or raise, no key is twice in the cache and, with an
    accelerator, no last-accessed time is recorded at all; without one
    the last-accessed map holds the keys of the cache in the same
    order, each with the time 0. *)
Theorem manager_stays_as_left e cache_size enable_gpu version_config w
  (ops : list manager_op) :
  as_left e
    (fst (fold_left (apply_op e) ops
            (__init__ e cache_size enable_gpu version_config, w))).
Proof.
  assert (G : forall st, as_left e (fst st) ->
                as_left e (fst (fold_left (apply_op e) ops st))).
  { induction ops as [|o ops IH]; intros st Hs; simpl; auto.
    now apply IH, as_left_apply_op. }
  apply G, as_left_init.
Qed.

(** *** Cache keys *)

Lemma list_of_append s1 s2 :
  list_ascii_of_string (s1 ++ s2)%string
  = list_ascii_of_string s1 ++ list_ascii_of_string s2.
Proof. induction s1 as [|c s1 IH]; simpl; [reflexivity | now rewrite IH]. Qed.

Lemma list_of_string_inj s1 s2 :
  list_ascii_of_string s1 = list_ascii_of_string s2 -> s1 = s2.
Proof.
  intros H. rewrite <- (string_of_list_ascii_of_string s1),
    <- (string_of_list_ascii_of_string s2). now rewrite H.
Qed.

(** X5.  Two calls with valid model types use the same cache key only
    when both the model name and the model type agree, although the key
    is the plain concatenation [name_type] and names may themselves
    contain underscores. *)
Theorem cache_key_injective name1 type1 name2 type2 :
  In type1 MODEL_TYPES -> In type2 MODEL_TYPES ->
  cache_key_of name1 type1 = cache_key_of name2 type2 ->
  name1 = name2 /\ type1 = type2.
Proof.
  intros H1 H2 E. unfold cache_key_of in E.
  apply (f_equal list_ascii_of_string) in E.
  rewrite !list_of_append in E.
  apply (f_equal (@rev ascii)) in E. rewrite !rev_app_distr in E.
  simpl in H1, H2.
  destruct H1 as [<-|[<-|[<-|[]]]], H2 as [<-|[<-|[<-|[]]]];
    simpl in E; try discriminate;
    repeat (injection E as E); split; auto;
    apply list_of_string_inj, rev_inj; assumption.
Qed.

(** The key "a_b_GPT" is read back as the name "a_b" and the type GPT. *)
Lemma cache_key_injective_witness : "a_b" = "a_b" /\ "GPT" = "GPT".
Proof.
  refine (@cache_key_injective "a_b" "GPT" "a_b" "GPT" _ _ _).
  - simpl. tauto.
  - simpl. tauto.
  - reflexivity.
Defined.

(** *** Dictionaries without some keys *)

Lemma get_drop {V} ks (d : Dict.t V) k :
  Dict.get (drop ks d) k
  = if existsb (String.eqb k) ks then None else Dict.get d k.
Proof.
  unfold drop. induction d as [|[k0 v0] r IH]; simpl.
  - now destruct (existsb _ ks).
  - destruct (String.eqb k0 k) eqn:E.
    + apply String.eqb_eq in E. subst k0.
      destruct (existsb (String.eqb k) ks) eqn:X; simpl; auto.
      now rewrite String.eqb_refl.
    + destruct (existsb (String.eqb k0) ks); simpl; auto.
      now rewrite E.
Qed.

End MoreManagerFacts.

(* ================================================================== *)
(** ** Further properties of the inference service *)
(* ================================================================== *)

Module MoreServiceFacts.

Import Ext PytorchService ServiceSpec MoreSpec ServiceFacts.

(** *** Observations that a computation leaves alone *)

Section Invariant.
Context {Self X : Type}.
Variable g : Self * World -> X.
Hypothesis g_advance : forall s w, g (s, advance w) = g (s, w).

Lemma inv_ret {A} (a : A) : invariant g (ret a : M (Self * World) A).
Proof. intros st. reflexivity. Qed.

Lemma inv_raise {A} x : invariant g (raise x : M (Self * World) A).
Proof. intros st. reflexivity. Qed.

Lemma after_bind {A B} (m : M (Self * World) A) (k : A -> M _ B) st :
  (forall a, invariant g (k a)) ->
  g (snd (bind m k st)) = g (snd (m st)).
Proof.
  intros Hk. unfold bind.
  destruct (m st) as [[a|x] st']; simpl; [apply Hk | reflexivity].
Qed.

Lemma after_try_except {A} (body : M (Self * World) A) handler st :
  invariant g handler ->
  g (snd (try_except_reraise body handler st)) = g (snd (body st)).
Proof.
  intros Hh. unfold try_except_reraise.
  destruct (body st) as [[a|x] st']; simpl; auto.
  specialize (Hh st'). now destruct (handler st') as [[[]|x'] st''].
Qed.

Lemma after_try_finally {A} (body : M (Self * World) A) final st :
  invariant g final ->
  g (snd (try_finally body final st)) = g (snd (body st)).
Proof.
  intros Hf. unfold try_finally.
  destruct (body st) as [r st']. specialize (Hf st').
  now destruct (final st') as [[[]|x'] st''].
Qed.

Lemma inv_bind {A B} (m : M (Self * World) A) (k : A -> M _ B) :
  invariant g m -> (forall a, invariant g (k a)) -> invariant g (bind m k).
Proof. intros Hm Hk st. rewrite after_bind by assumption. apply Hm. Qed.

Lemma inv_try_except {A} (body : M (Self * World) A) handler :
  invariant g body -> invariant g handler ->
  invariant g (try_except_reraise body handler).
Proof.
  intros Hb Hh st. rewrite after_try_except by assumption. apply Hb.
Qed.

Lemma inv_try_finally {A} (body : M (Self * World) A) final :
  invariant g body -> invariant g final ->
  invariant g (try_finally body final).
Proof.
  intros Hb Hf st. rewrite after_try_finally by assumption. apply Hb.
Qed.

Lemma inv_ask {A} (h : nat -> A) : invariant g (ask h : M (Self * World) A).
Proof. intros [s w]. simpl. apply g_advance. Qed.

Lemma inv_call {A} (h : nat -> res A) :
  invariant g (call h : M (Self * World) A).
Proof.
  intros [s w]. unfold call, bind, tick, lift. simpl. apply g_advance.
Qed.

Lemma inv_on_world h :
  (forall s w, g (s, h w) = g (s, w)) ->
  invariant g (on_world h : M (Self * World) unit).
Proof. intros Hh [s w]. simpl. apply Hh. Qed.

Lemma inv_getitem d k : invariant g (getitem d k : M (Self * World) value).
Proof.
  unfold getitem. destruct (Dict.get d k); [apply inv_ret | apply inv_raise].
Qed.

Lemma inv_subscript v k :
  invariant g (subscript v k : M (Self * World) value).
Proof. destruct v; simpl; try apply inv_raise. apply inv_getitem. Qed.

Lemma inv_for_each {A B} (h : A -> M (Self * World) B) l :
  (forall a, invariant g (h a)) -> invariant g (MlUtils.for_each h l).
Proof.
  intros Hh. induction l as [|x r IH]; simpl.
  - apply inv_ret.
  - apply inv_bind; auto. intros y.
    apply inv_bind; auto. intros ys. apply inv_ret.
Qed.

Lemma inv_extend results x :
  invariant g (extend results x : M (Self * World) (list value)).
Proof. destruct x; simpl; first [apply inv_ret | apply inv_raise]. Qed.

Lemma inv_preprocess e text model_type batch_mode config :
  invariant g (MlUtils.preprocess_text_data e text model_type batch_mode
                 config : M (Self * World) value).
Proof.
  unfold MlUtils.preprocess_text_data, MlUtils.validate_input.
  apply inv_try_except; [|apply inv_ret].
  apply inv_try_except; [|apply inv_ret].
  apply inv_bind; [apply inv_call|]. intros _.
  apply inv_bind.
  { destruct model_type; first [apply inv_ret | apply inv_raise]. }
  intros key.
  apply inv_bind; [apply inv_subscript|]. intros versions.
  apply inv_bind; [apply inv_subscript|]. intros current.
  apply inv_bind; [apply inv_call|]. intros tokenizer.
  destruct batch_mode; [|apply inv_call].
  destruct (MlUtils.range0 _ _); [|apply inv_raise].
  apply inv_bind; [|intros; apply inv_ret].
  apply inv_for_each. intros. apply inv_call.
Qed.

(** The metrics the monitor itself writes. *)
Hypothesis g_errors : forall s w, g (s, with_metrics inc_errors w) = g (s, w).
Hypothesis g_gauge :
  forall z s w, g (s, with_metrics (set_gpu_memory z) w) = g (s, w).
Hypothesis g_inference :
  forall d s w, g (s, with_metrics (observe_inference d) w) = g (s, w).

(** Apart from what the wrapped function does, a monitored call that is
    not a [load_model] leaves [g] alone. *)
Lemma after_monitor {A} e name (func : M (Self * World) A) s w :
  String.eqb name "load_model" = false ->
  g (snd (monitor_resources e name func (s, w)))
  = g (snd (func (s, advance w))).
Proof.
  intros Hname. unfold monitor_resources.
  unfold bind at 1, ask at 1, bind at 1, tick, ret at 1. cbn [fst snd].
  rewrite after_try_finally.
  - rewrite after_try_except by (now apply inv_on_world).
    rewrite after_bind; [reflexivity|]. intros a.
    apply inv_bind; [|intros; apply inv_ret].
    destruct (cuda_is_available e); [|apply inv_ret].
    apply inv_bind; [apply inv_ask|]. intros z. now apply inv_on_world.
  - apply inv_bind; [apply inv_ask|]. intros now.
    destruct (String.eqb name "predict"); [now apply inv_on_world|].
    rewrite Hname. apply inv_ret.
Qed.

(** What a load writes: the load-time histogram and the count of model
    objects. *)
Hypothesis g_load :
  forall d s w, g (s, with_metrics (observe_load d) w) = g (s, w).
Hypothesis g_loaded : forall s w, g (s, loaded w) = g (s, w).

Lemma after_monitor_any {A} e name (func : M (Self * World) A) s w :
  g (snd (monitor_resources e name func (s, w)))
  = g (snd (func (s, advance w))).
Proof.
  unfold monitor_resources.
  unfold bind at 1, ask at 1, bind at 1, tick, ret at 1. cbn [fst snd].
  rewrite after_try_finally.
  - rewrite after_try_except by (now apply inv_on_world).
    rewrite after_bind; [reflexivity|]. intros a.
    apply inv_bind; [|intros; apply inv_ret].
    destruct (cuda_is_available e); [|apply inv_ret].
    apply inv_bind; [apply inv_ask|]. intros z. now apply inv_on_world.
  - apply inv_bind; [apply inv_ask|]. intros now.
    destruct (String.eqb name "predict"); [now apply inv_on_world|].
    destruct (String.eqb name "load_model"); [now apply inv_on_world|].
    apply inv_ret.
Qed.

Lemma inv_new_model source :
  invariant g (new_model source : M (Self * World) Model).
Proof. intros [s w]. simpl. apply g_loaded. Qed.

Lemma inv_load_model_body e model_path model_config warm_up :
  invariant g (load_model_body e model_path model_config warm_up
               : M (Self * World) Model).
Proof.
  unfold load_model_body.
  apply inv_try_except; [|apply inv_ret].
  destruct (negb (truthy model_path) || negb (truthy model_config));
    [apply inv_raise|].
  apply inv_bind; [apply inv_ask|]. intros start_time.
  apply inv_bind; [apply inv_call|]. intros is_module.
  apply inv_bind; [apply inv_new_model|]. intros model.
  apply inv_bind; [apply inv_ask|]. intros now.
  destruct (Qgtb _ _); [apply inv_raise|].
  destruct (negb is_module); [apply inv_raise|].
  apply inv_bind; [apply inv_call|]. intros _.
  apply inv_bind; [apply inv_call|]. intros _.
  apply inv_bind; [|intros; apply inv_ret].
  destruct warm_up; [|apply inv_ret].
  destruct model_config; try apply inv_raise. apply inv_call.
Qed.

Lemma inv_load_model e model_path model_config warm_up :
  invariant g (load_model e model_path model_config warm_up
               : M (Self * World) Model).
Proof.
  intros [s w]. unfold load_model. rewrite after_monitor_any.
  rewrite inv_load_model_body. apply g_advance.
Qed.

(** What follows the model lookup in [predict]. *)
Lemma inv_inference e model_name input_data prediction_config
  (model : Model) :
  invariant g
    (text <- getitem input_data "text" ;;
     preprocessed_input <-
       MlUtils.preprocess_text_data e text
         (get_default prediction_config "model_type" (VStr "CUSTOM"))
         false None ;;
     start_time <- ask (time_time e) ;;
     output <- call (fun i => module_forward e i model preprocessed_input) ;;
     now <- ask (time_time e) ;;
     if Qgtb (now - start_time) INFERENCE_TIMEOUT_SECONDS then
       raise (TimeoutError "Inference timeout exceeded")
     else
       prediction <- call (fun i => tensor_tolist e i output) ;;
       finished <- ask (time_time e) ;;
       ret (VDict [("prediction", prediction);
                   ("model_name", VStr model_name);
                   ("inference_time",
                    VSeconds (finished - start_time)%Q)])
     : M (Self * World) value).
Proof.
  apply inv_bind; [apply inv_getitem|]. intros text.
  apply inv_bind; [apply inv_preprocess|]. intros pre.
  apply inv_bind; [apply inv_ask|]. intros start_time.
  apply inv_bind; [apply inv_call|]. intros output.
  apply inv_bind; [apply inv_ask|]. intros now.
  destruct (Qgtb _ _); [apply inv_raise|].
  apply inv_bind; [apply inv_call|]. intros prediction.
  apply inv_bind; [apply inv_ask|]. intros finished. apply inv_ret.
Qed.

End Invariant.

(** *** What the monitor adds *)

(** X7.  [monitor_resources] hands on what the wrapped function returns
    or raises, and leaves its effect on the service object and on the
    loaded models alone.  It counts one prediction error exactly when
    the function raises, observes one inference time when the function
    is named [predict] and one load time when it is named [load_model],
    on success and on failure alike. *)
Theorem monitor_resources_transparent {Self A} e name
  (func : M (Self * World) A) s w :
  let inner := func (s, advance w) in
  let outer := monitor_resources e name func (s, w) in
  fst outer = fst inner /\
  fst (snd outer) = fst (snd inner) /\
  loads (snd (snd outer)) = loads (snd (snd inner)) /\
  PREDICTION_ERRORS (metrics (snd (snd outer)))
    = PREDICTION_ERRORS (metrics (snd (snd inner)))
      + match fst inner with Ok _ => 0 | Raise _ => 1 end /\
  List.length (INFERENCE_TIME (metrics (snd (snd outer))))
    = List.length (INFERENCE_TIME (metrics (snd (snd inner))))
      + (if String.eqb name "predict" then 1 else 0) /\
  List.length (MODEL_LOAD_TIME (metrics (snd (snd outer))))
    = List.length (MODEL_LOAD_TIME (metrics (snd (snd inner))))
      + (if String.eqb name "predict" then 0
         else if String.eqb name "load_model" then 1 else 0).
Proof.
  intros inner outer. subst inner outer. unfold monitor_resources.
  destruct (cuda_is_available e); run;
    destruct (func (s, advance w)) as [[a|x] [s1 w1]];
    destruct (String.eqb name "predict"),
      (String.eqb name "load_model"); simpl;
    rewrite ?length_app; simpl; repeat split;
    first [reflexivity | lia].
Qed.

(** *** When [predict] can return *)

(** The tokenizer is looked up under [MODEL_VERSIONS[model_type.lower()]
    ['current']], which exists for "gpt" and "bert" alone. *)
Lemma preprocess_ok_model_type {Self} e text model_type batch_mode config
  (st : Self * World) v st' :
  MlUtils.preprocess_text_data e text model_type batch_mode config st
    = (Ok v, st') ->
  exists s, model_type = VStr s /\
            (MlUtils.lower s = "gpt" \/ MlUtils.lower s = "bert").
Proof.
  unfold MlUtils.preprocess_text_data, MlUtils.validate_input. intros H.
  do 2 apply try_except_inv_ok in H.
  apply bind_inv_ok in H as (_ & st1 & _ & H).
  apply bind_inv_ok in H as (key & st2 & Hkey & H).
  destruct model_type; try (now apply raise_not_ok in Hkey).
  unfold ret in Hkey. injection Hkey as <- <-.
  exists s. split; [reflexivity|].
  apply bind_inv_ok in H as (versions & st3 & Hv & H).
  apply bind_inv_ok in H as (current & st4 & Hc & _).
  unfold subscript, MlUtils.MODEL_VERSIONS, getitem in Hv.
  cbn [Dict.get] in Hv.
  destruct (String.eqb "gpt" (MlUtils.lower s)) eqn:G.
  { left. symmetry. now apply String.eqb_eq. }
  destruct (String.eqb "bert" (MlUtils.lower s)) eqn:B.
  { right. symmetry. now apply String.eqb_eq. }
  exfalso.
  destruct (String.eqb "custom_ml" (MlUtils.lower s)).
  - unfold ret in Hv. injection Hv as <- <-. discriminate Hc.
  - discriminate Hv.
Qed.

Lemma load_model_ok_inv {Self} e model_path model_config warm_up
  (st : Self * World) m st' :
  load_model e model_path model_config warm_up st = (Ok m, st') ->
  truthy model_path = true /\ truthy model_config = true.
Proof.
  unfold load_model. intros H.
  apply monitor_inv_ok in H as (st1 & H).
  unfold load_model_body in H. apply try_except_inv_ok in H.
  destruct (truthy model_path), (truthy model_config); simpl in H;
    try (now apply raise_not_ok in H). auto.
Qed.

Lemma predict_body_ok_inv e model_name input_data prediction_config st r st' :
  predict_body e model_name input_data prediction_config st = (Ok r, st') ->
  model_name <> "" /\
  (exists text, Dict.get input_data "text" = Some text) /\
  (exists s,
     get_default prediction_config "model_type" (VStr "CUSTOM") = VStr s /\
     (MlUtils.lower s = "gpt" \/ MlUtils.lower s = "bert")) /\
  (Dict.get (_model_cache (fst st)) model_name <> None \/
   exists p c,
     Dict.get prediction_config "model_path" = Some p /\ truthy p = true /\
     Dict.get prediction_config "model_config" = Some c /\ truthy c = true).
Proof.
  unfold predict_body. intros H. apply try_except_inv_ok in H.
  destruct (Dict.is_empty input_data); simpl in H;
    [now apply raise_not_ok in H|].
  destruct (String.eqb model_name "") eqn:En;
    [now apply raise_not_ok in H|].
  apply String.eqb_neq in En. split; [exact En|].
  apply bind_inv_ok in H as (self & st0 & Hs & H).
  unfold self_ in Hs. injection Hs as <- <-.
  apply bind_inv_ok in H as (model & st1 & Hm & H).
  apply bind_inv_ok in H as (text & st2 & Ht & H).
  apply bind_inv_ok in H as (pre & st3 & Hp & _).
  split; [|split].
  - unfold getitem in Ht. destruct (Dict.get input_data "text"); eauto.
    now apply raise_not_ok in Ht.
  - apply preprocess_ok_model_type in Hp as (s & Hs & Hl). eauto.
  - destruct (Dict.get (_model_cache (fst st)) model_name) as [cached|];
      [left; discriminate|]. right.
    apply bind_inv_ok in Hm as (p & st4 & Hp1 & Hm).
    apply bind_inv_ok in Hm as (c & st5 & Hc1 & Hm).
    apply bind_inv_ok in Hm as (m & st6 & Hl & _).
    apply load_model_ok_inv in Hl as [Tp Tc].
    unfold getitem in Hp1, Hc1.
    destruct (Dict.get prediction_config "model_path");
      [|now apply raise_not_ok in Hp1].
    destruct (Dict.get prediction_config "model_config");
      [|now apply raise_not_ok in Hc1].
    unfold ret in Hp1, Hc1. injection Hp1 as <- _. injection Hc1 as <- _.
    eauto 8.
Qed.

(** X8.  [predict] returns a result only if the model name is not empty,
    the input has a "text" entry, the configuration names a model type
    whose lower-case form is "gpt" or "bert" (the default "CUSTOM" has
    no tokenizer entry), and the model is cached or the configuration
    holds a non-empty "model_path" and "model_config". *)
Theorem predict_returns_only_if e model_name input_data prediction_config
  st r st' :
  predict e model_name input_data prediction_config st = (Ok r, st') ->
  model_name <> "" /\
  (exists text, Dict.get input_data "text" = Some text) /\
  (exists s,
     Dict.get prediction_config "model_type" = Some (VStr s) /\
     (MlUtils.lower s = "gpt" \/ MlUtils.lower s = "bert")) /\
  (Dict.get (_model_cache (fst st)) model_name <> None \/
   exists p c,
     Dict.get prediction_config "model_path" = Some p /\ truthy p = true /\
     Dict.get prediction_config "model_config" = Some c /\ truthy c = true).
Proof.
  unfold predict. intros H.
  apply monitor_inv_ok in H as (st1 & H).
  apply predict_body_ok_inv in H as (Hn & Ht & (s & Hs & Hl) & Hm).
  repeat split; auto.
  exists s. split; auto.
  unfold get_default in Hs.
  destruct (Dict.get prediction_config "model_type") as [v|].
  - now subst v.
  - injection Hs as <-. simpl in Hl. destruct Hl; discriminate.
Qed.

(** The first batch of the example is predicted: its configuration names
    BERT and the request carries a "text". *)
Lemma predict_returns_only_if_witness :
  "campaign_model" <> "" /\
  (exists text,
     Dict.get [("text", VList [VStr "first"; VStr "second"])] "text"
       = Some text) /\
  (exists s,
     Dict.get Examples.batch_config "model_type" = Some (VStr s) /\
     (MlUtils.lower s = "gpt" \/ MlUtils.lower s = "bert")) /\
  (Dict.get (_model_cache (fst (Examples.service0 Examples.host)))
            "campaign_model" <> None \/
   exists p c,
     Dict.get Examples.batch_config "model_path" = Some p /\
     truthy p = true /\
     Dict.get Examples.batch_config "model_config" = Some c /\
     truthy c = true).
Proof.
  refine (@predict_returns_only_if Examples.host "campaign_model"
            [("text", VList [VStr "first"; VStr "second"])]
            Examples.batch_config (Examples.service0 Examples.host)
            (snd (fst MoreExamples.predicted))
            (snd MoreExamples.predicted) _).
  vm_compute. reflexivity.
Defined.

(** X9.  The three [predict] calls the application makes cannot return:
    the campaign endpoint, the audience analyzer and the health check
    pass inputs without a "text" entry, so each call raises, whatever
    the collaborators answer and whatever the service has cached. *)
Theorem application_predict_calls_raise e st (payload : value) :
  (exists x,
     fst (predict e "campaign_performance"
            [("campaign_structure", payload)]
            [("model_type", VStr "CUSTOM")] st) = Raise x) /\
  (exists x,
     fst (predict e "audience_embeddings"
            [("features", payload)] [("batch_size", VInt 32)] st)
     = Raise x) /\
  (exists x,
     fst (predict e "test_model"
            [("test", VBool true)] [("test", VBool true)] st) = Raise x).
Proof.
  repeat split;
    match goal with
    | |- exists x, fst ?run = Raise x =>
        destruct run as [[r|x] st'] eqn:H; [exfalso | now exists x]
    end;
    unfold predict in H; apply monitor_inv_ok in H as (st1 & H);
    apply predict_body_ok_inv in H as (_ & (text & Ht) & _);
    discriminate Ht.
Qed.

End MoreServiceFacts.
(* ================================================================== *)
(** ** The model cache of the inference service *)
(* ================================================================== *)

Module ServiceCacheFacts.

Import Ext PytorchService ServiceSpec MoreSpec CacheSpec ServiceFacts.
Import MoreServiceFacts.

Lemma retains_refl {V} (c : Dict.t V) : retains c c.
Proof. intros k v H. exact H. Qed.

Lemma retains_trans {V} (c1 c2 c3 : Dict.t V) :
  retains c1 c2 -> retains c2 c3 -> retains c1 c3.
Proof. intros H1 H2 k v H. apply H2, H1, H. Qed.

Lemma retains_set {V} (c : Dict.t V) k v :
  Dict.get c k = None -> retains c (Dict.set c k v).
Proof.
  intros N k' v' H. rewrite DictFacts.get_set_other; [exact H|].
  intros ->. congruence.
Qed.

Lemma keeps_refl s : keeps s s.
Proof. split; [apply retains_refl | reflexivity]. Qed.

Lemma keeps_trans s1 s2 s3 : keeps s1 s2 -> keeps s2 s3 -> keeps s1 s3.
Proof.
  intros [H1 D1] [H2 D2]. split; [eapply retains_trans; eauto | congruence].
Qed.

(** Solves the side conditions of the lemmas on observations. *)
Ltac observed :=
  solve [ intros; reflexivity
        | apply inv_ret
        | apply inv_on_world; intros; reflexivity ].

Lemma predict_body_keeps e model_name input_data prediction_config st :
  keeps (fst st)
    (fst (snd (predict_body e model_name input_data prediction_config st))).
Proof.
  unfold predict_body, State.
  rewrite (@after_try_except _ _ (@fst _ _)) by apply inv_ret.
  destruct (Dict.is_empty input_data || String.eqb model_name "");
    [apply keeps_refl|].
  unfold bind at 1, self_. cbn [fst].
  rewrite (@after_bind _ _ (@fst _ _))
    by (intros model; apply inv_inference; observed).
  destruct (Dict.get (_model_cache (fst st)) model_name) eqn:Hit.
  - apply keeps_refl.
  - unfold getitem.
    destruct (Dict.get prediction_config "model_path") as [p|];
      [|apply keeps_refl].
    destruct (Dict.get prediction_config "model_config") as [c|];
      [|apply keeps_refl].
    unfold bind at 1 2, ret at 1 2.
    pose proof (@inv_load_model _ _ (@fst PyTorchService World)
                  ltac:(observed) ltac:(observed) ltac:(observed)
                  ltac:(observed) ltac:(observed) ltac:(observed)
                  e p c true st) as L.
    unfold bind at 1.
    destruct (load_model e p c true st) as [[m|x] [s1 w1]];
      cbn [fst snd] in L |- *; subst s1; [|apply keeps_refl].
    split; [|reflexivity]. cbn [_model_cache]. now apply retains_set.
Qed.

Lemma never_evicts_inv {A} (m : M State A) :
  invariant (@fst PyTorchService World) m -> never_evicts m.
Proof. intros H st. rewrite H. apply keeps_refl. Qed.

Lemma never_evicts_bind {A B} (m : M State A) (k : A -> M State B) :
  never_evicts m -> (forall a, never_evicts (k a)) -> never_evicts (bind m k).
Proof.
  intros Hm Hk st. unfold bind. specialize (Hm st).
  destruct (m st) as [[a|x] st1]; cbn [fst snd] in *; [|exact Hm].
  eapply keeps_trans; [exact Hm | apply Hk].
Qed.

Lemma never_evicts_try_except {A} (body : M State A) :
  never_evicts body -> never_evicts (try_except_reraise body log_error).
Proof.
  intros H st. unfold State in *.
  rewrite (@after_try_except _ _ (@fst _ _)) by apply inv_ret. apply H.
Qed.

Lemma never_evicts_monitor {A} e name (func : M State A) :
  never_evicts func -> never_evicts (monitor_resources e name func).
Proof.
  intros H [s w]. unfold State in *.
  rewrite (@after_monitor_any _ _ (@fst _ _)) by observed.
  apply (H (s, advance w)).
Qed.

Lemma never_evicts_predict e model_name input_data prediction_config :
  never_evicts (predict e model_name input_data prediction_config).
Proof.
  apply never_evicts_monitor. intros st. apply predict_body_keeps.
Qed.

Lemma never_evicts_batch_loop e model_name batch_config batches :
  forall results,
    never_evicts (batch_loop e model_name batch_config results batches).
Proof.
  induction batches as [|batch rest IH]; intros results; simpl.
  - apply never_evicts_inv, inv_ret.
  - apply never_evicts_bind; [|intros; apply IH].
    unfold batch_step, batch_prediction.
    apply never_evicts_bind.
    + apply never_evicts_bind.
      { apply never_evicts_inv, inv_for_each;
          first [observed | intros item; apply inv_getitem]. }
      intros texts. apply never_evicts_bind.
      { apply never_evicts_inv, inv_preprocess. observed. }
      intros pre. apply never_evicts_bind; [apply never_evicts_predict|].
      intros r. apply never_evicts_inv, inv_subscript.
    + intros prediction. apply never_evicts_inv, inv_extend.
Qed.

(** X10.  Neither [predict] nor [batch_predict] takes a model out of
    the cache of the service or replaces one: every model cached before
    the call is cached under the same name after it, whether the call
    returns or raises, and the device is the same.  [MODEL_CACHE_SIZE]
    plays no part. *)
Theorem service_never_evicts e model_name input_data prediction_config
  batch_data batch_config st :
  keeps (fst st)
    (fst (snd (predict e model_name input_data prediction_config st))) /\
  keeps (fst st)
    (fst (snd (batch_predict e model_name batch_data batch_config st))).
Proof.
  split; [apply never_evicts_predict|].
  unfold batch_predict, batch_predict_with.
  apply never_evicts_monitor. unfold batch_predict_body.
  apply never_evicts_try_except.
  destruct batch_data as [|item rest]; [apply never_evicts_inv, inv_raise|].
  apply never_evicts_bind; [apply never_evicts_inv; intros st0; reflexivity|].
  intros batches. apply never_evicts_bind; [apply never_evicts_batch_loop|].
  intros results. apply never_evicts_inv, inv_ret.
Qed.

(** X11.  When the model is cached, [predict] loads nothing: the
    service object, the number of model objects and the load-time
    histogram are after the call what they were before it, whether the
    call returns or raises.  The cache-hit counter goes up by one,
    unless the input is empty or the model name is, in which case the
    cache is not looked at. *)
Theorem predict_hit_loads_nothing e model_name input_data prediction_config
  s w cached :
  Dict.get (_model_cache s) model_name = Some cached ->
  let st' :=
    snd (predict e model_name input_data prediction_config (s, w)) in
  fst st' = s /\
  loads (snd st') = loads w /\
  MODEL_LOAD_TIME (metrics (snd st')) = MODEL_LOAD_TIME (metrics w) /\
  CACHE_HITS (metrics (snd st'))
    = CACHE_HITS (metrics w)
      + (if Dict.is_empty input_data || String.eqb model_name ""
         then 0 else 1).
Proof.
  intros Hit st'.
  assert (K : kept st' = kept (s, w)).
  { subst st'. unfold predict, State.
    rewrite (@after_monitor _ _ (@kept _)) by first [observed | reflexivity].
    unfold predict_body, State.
    rewrite (@after_try_except _ _ (@kept _)) by apply inv_ret.
    destruct (Dict.is_empty input_data || String.eqb model_name "");
      [reflexivity|].
    unfold bind at 1, self_. cbn [fst]. rewrite Hit.
    rewrite (@after_bind _ _ (@kept _))
      by (intros model; apply inv_inference; observed).
    reflexivity. }
  assert (H : hits_of st' = hits_of (s, w)
              + (if Dict.is_empty input_data || String.eqb model_name ""
                 then 0 else 1)).
  { subst st'. unfold predict, State.
    rewrite (@after_monitor _ _ (@hits_of _))
      by first [observed | reflexivity].
    unfold predict_body, State.
    rewrite (@after_try_except _ _ (@hits_of _)) by apply inv_ret.
    destruct (Dict.is_empty input_data || String.eqb model_name "");
      [unfold hits_of; simpl; lia|].
    unfold bind at 1, self_. cbn [fst]. rewrite Hit.
    rewrite (@after_bind _ _ (@hits_of _))
      by (intros model; apply inv_inference; observed).
    unfold hits_of. simpl. lia. }
  unfold kept in K. cbn [fst snd] in K. injection K as K1 K2 K3.
  repeat split; assumption.
Qed.

Lemma predict_hit_loads_nothing_witness :
  let st' :=
    snd (predict Examples.host "campaign_model" CacheExamples.request
           Examples.batch_config
           (fst CacheExamples.warm, snd CacheExamples.warm)) in
  fst st' = fst CacheExamples.warm /\
  loads (snd st') = loads (snd CacheExamples.warm) /\
  MODEL_LOAD_TIME (metrics (snd st'))
    = MODEL_LOAD_TIME (metrics (snd CacheExamples.warm)) /\
  CACHE_HITS (metrics (snd st'))
    = CACHE_HITS (metrics (snd CacheExamples.warm))
      + (if Dict.is_empty CacheExamples.request
            || String.eqb "campaign_model" ""
         then 0 else 1).
Proof.
  refine (@predict_hit_loads_nothing Examples.host "campaign_model"
            CacheExamples.request Examples.batch_config
            (fst CacheExamples.warm) (snd CacheExamples.warm)
            CacheExamples.warm_model _).
  vm_compute. reflexivity.
Defined.

(** *** Inversion of the collaborator calls *)

(** A [load_model] body that returns has created one model object, the
    one it returns, and has left the metrics alone. *)
Lemma load_model_body_ok {Self} e model_path model_config warm_up
  (s : Self) w m st1 :
  load_model_body e model_path model_config warm_up (s, w) = (Ok m, st1) ->
  fst st1 = s /\
  model_id m = loads w /\
  loads (snd st1) = S (loads w) /\
  metrics (snd st1) = metrics w.
Proof.
  unfold load_model_body. intros H. apply try_except_inv_ok in H.
  destruct (negb (truthy model_path) || negb (truthy model_config));
    [discriminate H|].
  apply bind_inv_ok in H as (t0 & st & H0 & H).
  apply ask_inv in H0 as [_ ->].
  apply bind_inv_ok in H as (is_module & st & H0 & H).
  apply call_inv in H0 as [_ ->].
  apply bind_inv_ok in H as (model & st & H0 & H).
  unfold new_model in H0. cbn [fst snd] in H0. injection H0 as <- <-.
  apply bind_inv_ok in H as (now & st & H0 & H).
  apply ask_inv in H0 as [_ ->].
  destruct (Qgtb _ _); [discriminate H|].
  destruct (negb is_module); [discriminate H|].
  apply bind_inv_ok in H as ([] & st & H0 & H).
  apply call_inv in H0 as [_ ->].
  apply bind_inv_ok in H as ([] & st & H0 & H).
  apply call_inv in H0 as [_ ->].
  apply bind_inv_ok in H as ([] & st & H0 & H).
  unfold ret in H. injection H as <- <-.
  assert (E : st = (s, advance (advance (advance (advance (loaded
                      (advance (advance w)))))))
              \/ st = (s, advance (advance (advance (loaded
                      (advance (advance w))))))).
  { destruct warm_up.
    - destruct model_config; try discriminate H0.
      apply call_inv in H0 as [_ ->]. auto.
    - unfold ret in H0. injection H0 as <-. auto. }
  destruct E as [-> | ->]; cbn; auto.
Qed.

(** What the monitor leaves of a call that returns. *)
Lemma monitor_ok_state {Self A} e name (func : M (Self * World) A) s w a st :
  monitor_resources e name func (s, w) = (Ok a, st) ->
  exists st0,
    func (s, advance w) = (Ok a, st0) /\
    fst st = fst st0 /\
    loads (snd st) = loads (snd st0) /\
    CACHE_HITS (metrics (snd st)) = CACHE_HITS (metrics (snd st0)) /\
    PREDICTION_ERRORS (metrics (snd st))
      = PREDICTION_ERRORS (metrics (snd st0)) /\
    exists d,
      MODEL_LOAD_TIME (metrics (snd st))
      = MODEL_LOAD_TIME (metrics (snd st0))
        ++ (if String.eqb name "predict" then []
            else if String.eqb name "load_model" then [d] else []).
Proof.
  unfold monitor_resources.
  destruct (cuda_is_available e); run;
    destruct (func (s, advance w)) as [[a1|x] [s0 w0]];
    destruct (String.eqb name "predict"),
      (String.eqb name "load_model"); cbn;
    intros H; try discriminate H;
    injection H as <- <-; exists (s0, w0); cbn;
    rewrite ?app_nil_r; do 5 (split; [reflexivity|]);
    first [ exists 0%Q; reflexivity | eexists; reflexivity ].
Qed.

(** X12.  A [predict] call that returns for a model that was not
    cached has loaded exactly one model: a new object, which is now
    cached under the model name behind the entries that were there.
    One load time was observed and no cache hit counted. *)
Theorem predict_miss_loads_once e model_name input_data prediction_config
  s w r st' :
  Dict.get (_model_cache s) model_name = None ->
  predict e model_name input_data prediction_config (s, w) = (Ok r, st') ->
  exists m,
    _model_cache (fst st') = _model_cache s ++ [(model_name, m)] /\
    _device (fst st') = _device s /\
    model_id m = loads w /\
    loads (snd st') = S (loads w) /\
    List.length (MODEL_LOAD_TIME (metrics (snd st')))
      = S (List.length (MODEL_LOAD_TIME (metrics w))) /\
    CACHE_HITS (metrics (snd st')) = CACHE_HITS (metrics w).
Proof.
  intros Miss H. unfold predict in H.
  apply monitor_ok_state in H
    as ([s1 w1] & H & Es & El & Eh & _ & (d0 & Et)).
  cbn [String.eqb Ascii.eqb Bool.eqb app] in Et. rewrite app_nil_r in Et.
  cbn [fst snd] in *. rewrite Es, El, Eh, Et. clear Es El Eh Et st'.
  unfold predict_body in H. apply try_except_inv_ok in H.
  destruct (Dict.is_empty input_data || String.eqb model_name "");
    [discriminate H|].
  apply bind_inv_ok in H as (self & st & H0 & H).
  unfold self_ in H0. cbn [fst] in H0. injection H0 as <- <-.
  rewrite Miss in H.
  apply bind_inv_ok in H as (model & [s2 w2] & Hm & H).
  pose proof (@inv_inference _ _ (@kept PyTorchService) ltac:(observed)
                e model_name input_data prediction_config model (s2, w2))
    as K.
  pose proof (@inv_inference _ _ (@hits_of PyTorchService) ltac:(observed)
                e model_name input_data prediction_config model (s2, w2))
    as Kh.
  unfold State in *. rewrite H in K, Kh. clear H.
  unfold kept, hits_of in K, Kh. cbn [fst snd] in K, Kh.
  injection K as -> -> ->. rewrite Kh. clear Kh.
  apply bind_inv_ok in Hm as (p & st & H0 & Hm).
  unfold getitem in H0.
  destruct (Dict.get prediction_config "model_path");
    [|discriminate H0].
  unfold ret in H0. injection H0 as <- <-.
  apply bind_inv_ok in Hm as (c & st & H0 & Hm).
  unfold getitem in H0.
  destruct (Dict.get prediction_config "model_config");
    [|discriminate H0].
  unfold ret in H0. injection H0 as <- <-.
  apply bind_inv_ok in Hm as (m & st & Hl & Hm).
  unfold load_model in Hl.
  apply monitor_ok_state in Hl
    as ([s3 w3] & Hl & Es & El & Eh & _ & (d & Et)).
  cbn [String.eqb Ascii.eqb Bool.eqb] in Et.
  apply load_model_body_ok in Hl as (Hs & Hid & Hn & Hmet).
  destruct st as [s4 w4]. cbn [fst snd] in *. subst s4 s3.
  unfold on_cache, modify, bind, ret in Hm. cbn [fst snd] in Hm.
  injection Hm as <- <- <-.
  exists m. cbn [_model_cache _device].
  repeat split.
  - clear -Miss. induction (_model_cache s) as [|[k v] c IH]; simpl in *.
    + reflexivity.
    + destruct (String.eqb k model_name); [discriminate Miss|].
      now rewrite IH.
  - exact Hid.
  - rewrite El, Hn. reflexivity.
  - rewrite Et, length_app, Hmet. simpl. lia.
  - rewrite Eh, Hmet. reflexivity.
Qed.

Lemma predict_miss_loads_once_witness :
  exists m,
    _model_cache (fst (snd MoreExamples.predicted))
      = _model_cache (__init__ Examples.host) ++ [("campaign_model", m)] /\
    _device (fst (snd MoreExamples.predicted))
      = _device (__init__ Examples.host) /\
    model_id m = loads Examples.world0 /\
    loads (snd (snd MoreExamples.predicted)) = S (loads Examples.world0) /\
    List.length (MODEL_LOAD_TIME (metrics (snd (snd MoreExamples.predicted))))
      = S (List.length (MODEL_LOAD_TIME (metrics Examples.world0))) /\
    CACHE_HITS (metrics (snd (snd MoreExamples.predicted)))
      = CACHE_HITS (metrics Examples.world0).
Proof.
  refine (@predict_miss_loads_once Examples.host "campaign_model"
            CacheExamples.request Examples.batch_config
            (__init__ Examples.host) Examples.world0
            (snd (fst MoreExamples.predicted)) (snd MoreExamples.predicted)
            _ _).
  - reflexivity.
  - vm_compute. reflexivity.
Defined.

(** What the monitor makes of a call that raises. *)
Lemma monitor_raise {Self A} e name (func : M (Self * World) A) s w x st0 :
  func (s, advance w) = (Raise x, st0) ->
  exists st,
    monitor_resources e name func (s, w) = (Raise x, st) /\
    fst st = fst st0 /\
    errors_of st = S (errors_of st0).
Proof.
  unfold monitor_resources, errors_of. intros H.
  destruct (cuda_is_available e); run; rewrite H;
    destruct (String.eqb name "predict"),
      (String.eqb name "load_model"); cbn; eauto.
Qed.

Lemma monitor_raise_inv {Self A} e name (func : M (Self * World) A)
  s w x st :
  monitor_resources e name func (s, w) = (Raise x, st) ->
  exists st0,
    func (s, advance w) = (Raise x, st0) /\
    fst st = fst st0 /\
    errors_of st = S (errors_of st0).
Proof.
  unfold monitor_resources, errors_of.
  destruct (cuda_is_available e); run;
    destruct (func (s, advance w)) as [[a1|x1] [s0 w0]];
    destruct (String.eqb name "predict"),
      (String.eqb name "load_model"); cbn;
    intros H; try discriminate H;
    injection H as <- <-; eauto.
Qed.

(** X13.  When the model is not cached and [load_model] raises, the
    [predict] call raises the same exception and leaves the service
    object as it was, and the one failure is counted twice in
    [PREDICTION_ERRORS]: once by the monitor of [load_model] and once by
    the monitor of [predict]. *)
Theorem predict_failed_load_counted_twice e model_name input_data
  prediction_config s w model_path model_config x st1 :
  Dict.is_empty input_data || String.eqb model_name "" = false ->
  Dict.get (_model_cache s) model_name = None ->
  Dict.get prediction_config "model_path" = Some model_path ->
  Dict.get prediction_config "model_config" = Some model_config ->
  load_model e model_path model_config true (s, advance w)
    = (Raise x, st1) ->
  let out := predict e model_name input_data prediction_config (s, w) in
  fst out = Raise x /\
  fst (snd out) = s /\
  PREDICTION_ERRORS (metrics (snd (snd out)))
    = PREDICTION_ERRORS (metrics w) + 2.
Proof.
  intros Valid Miss Hp Hc Hl out.
  assert (B : predict_body e model_name input_data prediction_config
                (s, advance w) = (Raise x, st1)).
  { unfold predict_body, try_except_reraise. rewrite Valid.
    unfold bind at 1, self_. cbn [fst]. rewrite Miss.
    unfold getitem. rewrite Hp, Hc.
    unfold bind at 1. unfold bind at 1 2, ret at 1 2.
    unfold bind at 1. rewrite Hl. reflexivity. }
  unfold load_model in Hl.
  apply monitor_raise_inv in Hl as (st0 & Hl & Es & Ee).
  pose proof (@inv_load_model_body _ _ (@fst PyTorchService World)
                ltac:(observed) ltac:(observed)
                e model_path model_config true (s, advance (advance w)))
    as Ks.
  pose proof (@inv_load_model_body _ _ (@errors_of PyTorchService)
                ltac:(observed) ltac:(observed)
                e model_path model_config true (s, advance (advance w)))
    as Ke.
  rewrite Hl in Ks, Ke. cbn [fst snd] in Ks, Ke.
  destruct (monitor_raise e "predict" _ _ _ B) as (st & Hout & Fs & Fe).
  subst out. unfold predict. rewrite Hout. cbn [fst snd].
  repeat split.
  - congruence.
  - unfold errors_of in *. cbn [fst snd metrics advance] in *. lia.
Qed.

Lemma predict_failed_load_counted_twice_witness :
  let out :=
    predict MoreExamples.offline "campaign_model" CacheExamples.request
      Examples.batch_config
      (__init__ MoreExamples.offline, Examples.world0) in
  fst out = Raise (OtherError "OSError" "not found") /\
  fst (snd out) = __init__ MoreExamples.offline /\
  PREDICTION_ERRORS (metrics (snd (snd out)))
    = PREDICTION_ERRORS (metrics Examples.world0) + 2.
Proof.
  refine (@predict_failed_load_counted_twice MoreExamples.offline
            "campaign_model" CacheExamples.request Examples.batch_config
            (__init__ MoreExamples.offline) Examples.world0
            (VStr "models/campaign.pt")
            (VDict [("input_shape", VList [VInt 4])])
            (OtherError "OSError" "not found") CacheExamples.failed_load
            _ _ _ _ _).
  - reflexivity.
  - reflexivity.
  - reflexivity.
  - reflexivity.
  - vm_compute. reflexivity.
Defined.

(** *** When [batch_predict] can return *)

Lemma for_each_text_ok {S} (batch : list (Dict.t value)) (st : S) texts st' :
  MlUtils.for_each (fun item => getitem item "text") batch st
    = (Ok texts, st') ->
  Forall has_text batch.
Proof.
  revert st texts st'.
  induction batch as [|item rest IH]; intros st texts st' H.
  - constructor.
  - cbn [MlUtils.for_each] in H.
    apply bind_inv_ok in H as (y & st1 & Hy & H).
    apply bind_inv_ok in H as (ys & st2 & Hys & _).
    constructor; [|eapply IH; eauto].
    unfold getitem in Hy. unfold has_text.
    destruct (Dict.get item "text"); [eauto | discriminate Hy].
Qed.

Lemma batch_loop_ok e model_name batch_config batches :
  forall results st r st',
    batch_loop e model_name batch_config results batches st = (Ok r, st') ->
    Forall (Forall has_text) batches /\
    (batches <> [] ->
     exists s,
       get_default batch_config "model_type" (VStr "CUSTOM") = VStr s /\
       (MlUtils.lower s = "gpt" \/ MlUtils.lower s = "bert")).
Proof.
  induction batches as [|batch rest IH]; intros results st r st' H.
  - split; [constructor | congruence].
  - cbn [batch_loop] in H.
    apply bind_inv_ok in H as (results' & st1 & Hs & H).
    apply IH in H as [Hrest _].
    unfold batch_step in Hs.
    apply bind_inv_ok in Hs as (prediction & st2 & Hp & _).
    unfold batch_prediction in Hp.
    apply bind_inv_ok in Hp as (texts & st3 & Ht & Hp).
    apply bind_inv_ok in Hp as (pre & st4 & Hpre & _).
    apply for_each_text_ok in Ht.
    apply preprocess_ok_model_type in Hpre.
    split; [constructor; assumption | intros _; exact Hpre].
Qed.

Lemma Forall_concat {A} (P : A -> Prop) (ls : list (list A)) :
  Forall (Forall P) ls -> Forall P (List.concat ls).
Proof.
  induction 1 as [|l ls Hl _ IH]; simpl; [constructor|].
  apply Forall_app. auto.
Qed.

(** X14.  [batch_predict] returns only if the list of items is not
    empty, every item has a "text" entry, and the configuration names a
    model type whose lower-case form is "gpt" or "bert". *)
Theorem batch_predict_returns_only_if e model_name batch_data batch_config
  st results st' :
  batch_predict e model_name batch_data batch_config st
    = (Ok results, st') ->
  batch_data <> [] /\
  Forall has_text batch_data /\
  exists s,
    Dict.get batch_config "model_type" = Some (VStr s) /\
    (MlUtils.lower s = "gpt" \/ MlUtils.lower s = "bert").
Proof.
  unfold batch_predict, batch_predict_with. intros H.
  apply monitor_inv_ok in H as (st1 & H).
  unfold batch_predict_body in H. apply try_except_inv_ok in H.
  destruct batch_data as [|item rest] eqn:E; [discriminate H|].
  rewrite <- E in *.
  assert (Hne : batch_data <> []) by (rewrite E; discriminate).
  clear E.
  apply bind_inv_ok in H as (batches & st2 & Hb & H).
  apply bind_inv_ok in H as (rs & st3 & Hl & _).
  unfold lift in Hb.
  destruct (@batches_of_spec BATCH_SIZE batch_data) as (bs & Hbs & Hcat & _);
    [unfold BATCH_SIZE; lia | exact Hne |].
  rewrite Hbs in Hb. injection Hb as <- <-.
  apply batch_loop_ok in Hl as [Ht Hm].
  split; [exact Hne|]. split.
  - rewrite <- Hcat. now apply Forall_concat.
  - destruct Hm as (s & Hs & Hok).
    { intros ->. simpl in Hcat. congruence. }
    exists s. split; [|exact Hok].
    unfold get_default in Hs.
    destruct (Dict.get batch_config "model_type") as [v|].
    + now subst v.
    + injection Hs as <-. simpl in Hok. destruct Hok; discriminate.
Qed.

Lemma batch_predict_returns_only_if_witness :
  Examples.three_items <> [] /\
  Forall has_text Examples.three_items /\
  exists s,
    Dict.get Examples.batch_config "model_type" = Some (VStr s) /\
    (MlUtils.lower s = "gpt" \/ MlUtils.lower s = "bert").
Proof.
  refine (@batch_predict_returns_only_if Examples.host "campaign_model"
            Examples.three_items Examples.batch_config
            (Examples.service0 Examples.host)
            (fst CacheExamples.batch_predicted)
            (snd CacheExamples.batch_predicted) _).
  vm_compute. reflexivity.
Defined.

End ServiceCacheFacts.
(* ================================================================== *)
(** ** Further properties of normalize_features *)
(* ================================================================== *)

Module MoreFeaturesFacts.

Import MlUtils FeaturesSpec OutlierSpec FeaturesFacts.

Local Open Scope float_scope.

(** X15.  On an array of two or more columns the robust strategy, the
    default, prepares the array for the scaler exactly when the number
    of outliers equals the number of columns.  Otherwise, and so
    whenever there is no outlier at all, [normalize_features] raises a
    [ValueError] and the scaler is not reached. *)
Theorem robust_needs_one_outlier_per_column features outlier_threshold :
  2 <= ncols features ->
  ((exists prepared,
      features_before_scaling features "robust" outlier_threshold
        = Ok prepared)
   <-> List.length (outliers features outlier_threshold) = ncols features) /\
  (List.length (outliers features outlier_threshold) <> ncols features ->
   forall fit_transform,
   exists msg,
     normalize_features fit_transform features "robust" outlier_threshold
       = Raise (ValueError msg)).
Proof.
  intros K.
  pose proof (clip_outliers_shapes (nan_to_num features) outlier_threshold)
    as [Hok Hraise].
  cbv zeta in Hok, Hraise. rewrite ncols_nan_to_num in Hok, Hraise.
  fold (outliers features outlier_threshold) in Hok, Hraise.
  unfold normalize_features, features_before_scaling.
  rewrite robust_is_known. cbn [String.eqb Ascii.eqb Bool.eqb].
  split; [split|].
  - intros [prepared Hp].
    destruct (Nat.eq_dec (List.length (outliers features outlier_threshold))
                (ncols features)) as [E|E]; [exact E|].
    destruct Hraise as [msg Hr]; [exact E | lia |]. congruence.
  - intros E. apply Hok. now left.
  - intros E fit_transform.
    destruct Hraise as [msg Hr]; [exact E | lia |].
    rewrite Hr. eauto.
Qed.

Lemma robust_needs_one_outlier_per_column_witness :
  ((exists prepared,
      features_before_scaling [[1; 1]; [2; 2]; [3; 3]] "robust" 3
        = Ok prepared)
   <-> List.length (outliers [[1; 1]; [2; 2]; [3; 3]] 3)
       = ncols [[1; 1]; [2; 2]; [3; 3]]) /\
  (List.length (outliers [[1; 1]; [2; 2]; [3; 3]] 3)
     <> ncols [[1; 1]; [2; 2]; [3; 3]] ->
   forall fit_transform,
   exists msg,
     normalize_features fit_transform [[1; 1]; [2; 2]; [3; 3]] "robust" 3
       = Raise (ValueError msg)).
Proof.
  refine (@robust_needs_one_outlier_per_column [[1; 1]; [2; 2]; [3; 3]] 3 _).
  simpl. lia.
Defined.

(** *** One column, any number of outliers *)

Lemma broadcast_one signs median :
  broadcast_mul signs [median] = Ok (map (fun a => a * median) signs).
Proof.
  unfold broadcast_mul. destruct signs as [|a [|b r]]; reflexivity.
Qed.

Lemma assign_as_column (f : float -> float) col :
  forall bs,
    List.length bs = List.length col ->
    assign_rows (as_column col) (as_column bs)
      (map f (select (as_column col) (as_column bs)))
    = as_column
        (map (fun xb : float * bool => if snd xb then f (fst xb) else fst xb)
             (combine col bs)).
Proof.
  induction col as [|x r IH]; intros [|b bs] Hlen; simpl in Hlen;
    try discriminate; [reflexivity|].
  injection Hlen as Hlen. specialize (IH bs Hlen).
  destruct b; simpl; now rewrite IH.
Qed.

Lemma combine_map_snd {A B C} (g : B -> C) (l : list A) :
  forall l' (h : A * C -> A),
    map h (combine l (map g l'))
    = map (fun p => h (fst p, g (snd p))) (combine l l').
Proof.
  induction l as [|x r IH]; intros [|y l'] h; simpl; auto.
  now rewrite IH.
Qed.

(** X16.  On an array of one column the robust strategy never raises:
    the array that reaches the scaler is the column, non-finite values
    replaced, with every value whose z-score exceeds the threshold
    replaced by its sign times the median of the absolute values, and
    every other value as it was. *)
Theorem robust_one_column_clips (raw : list float) outlier_threshold :
  raw <> [] ->
  features_before_scaling (as_column raw) "robust" outlier_threshold
    = Ok (as_column (clip_column (map nan_to_num1 raw) outlier_threshold)).
Proof.
  intros Hraw. unfold features_before_scaling.
  rewrite robust_is_known. cbn [String.eqb Ascii.eqb Bool.eqb].
  replace (nan_to_num (as_column raw))
    with (as_column (map nan_to_num1 raw))
    by (unfold nan_to_num, as_column; now rewrite !map_map).
  set (col := map nan_to_num1 raw).
  assert (Hcol : col <> []).
  { unfold col. destruct raw; [congruence | discriminate]. }
  unfold clip_outliers.
  rewrite (z_scores_as_column Hcol), greater_as_column.
  replace (map (map PrimFloat.abs) (as_column col))
    with (as_column (map PrimFloat.abs col))
    by (unfold as_column; now rewrite !map_map).
  rewrite columns_as_column
    by (destruct col; [congruence | discriminate]).
  cbn [map]. rewrite broadcast_one.
  unfold assign_masked. rewrite !length_map, Nat.eqb_refl.
  rewrite map_map.
  rewrite (assign_as_column (fun x => np_sign x * _))
    by (unfold column_z_scores; now rewrite !length_map).
  unfold clip_column. do 2 f_equal.
  apply (combine_map_snd (PrimFloat.ltb outlier_threshold) col
           (column_z_scores col)
           (fun xb => if snd xb
                      then np_sign (fst xb)
                           * np_median1 (map PrimFloat.abs col)
                      else fst xb)).
Qed.

Lemma robust_one_column_clips_witness :
  features_before_scaling (as_column [1; 2; 3; 4; 100; -100]) "robust" 1
    = Ok (as_column
            (clip_column (map nan_to_num1 [1; 2; 3; 4; 100; -100]) 1)).
Proof.
  refine (@robust_one_column_clips [1; 2; 3; 4; 100; -100] 1 _).
  discriminate.
Defined.

End MoreFeaturesFacts.
(* ================================================================== *)
(** ** preprocess_text_data *)
(* ================================================================== *)

Module TextFacts.

Import Ext MlUtils ServiceFacts.

Lemma for_each_call_ok {Self A B} (f : nat -> A -> res B) (l : list A) :
  forall (st : Self * World) ys st',
    for_each (fun x => call (fun i => f i x)) l st = (Ok ys, st') ->
    Forall2 (fun x y => exists i, f i x = Ok y) l ys.
Proof.
  induction l as [|x r IH]; intros st ys st' H; cbn [for_each] in H.
  - unfold ret in H. injection H as <- _. constructor.
  - apply bind_inv_ok in H as (y & st1 & Hy & H).
    apply bind_inv_ok in H as (ys' & st2 & Hys & H).
    unfold ret in H. injection H as <- _.
    constructor; [|eapply IH; eauto].
    unfold call, bind, tick, lift in Hy. cbn [fst snd] in Hy.
    injection Hy as Hy _. eauto.
Qed.

(** X17.  In batch mode [preprocess_text_data], when it returns, returns
    a list with one encoding for every 32 texts: the texts are cut into
    consecutive pieces of at most [MAX_BATCH_SIZE], none empty, that
    together are the texts in their order, and the i-th encoding is what
    the tokenizer answered for the i-th piece.  A text that is not a
    list counts as a list of one. *)
Theorem preprocess_batch_mode_pieces {Self} e text model_type config
  (st : Self * World) v st' :
  preprocess_text_data e text model_type true config st = (Ok v, st') ->
  let texts := match text with VList l => l | other => [other] end in
  let max_length :=
    get_default (match config with Some c => c | None => [] end)
      "max_length" (VInt 512) in
  exists pieces encodings,
    v = VList encodings /\
    List.concat pieces = texts /\
    Forall (fun piece => piece <> [] /\ List.length piece <= MAX_BATCH_SIZE)
      pieces /\
    List.length encodings = (List.length texts + 31) / 32 /\
    Forall2
      (fun piece encoded =>
         exists i tokenizer,
           tokenizer_call e i tokenizer (VList piece) max_length = Ok encoded)
      pieces encodings.
Proof.
  intros H texts max_length.
  unfold preprocess_text_data, validate_input in H.
  do 2 apply try_except_inv_ok in H.
  apply bind_inv_ok in H as (_ & st1 & _ & H).
  apply bind_inv_ok in H as (key & st2 & _ & H).
  apply bind_inv_ok in H as (versions & st3 & _ & H).
  apply bind_inv_ok in H as (current & st4 & _ & H).
  apply bind_inv_ok in H as (tokenizer & st5 & _ & H).
  fold texts in H. unfold range0, MAX_BATCH_SIZE in H.
  apply bind_inv_ok in H as (encodings & st6 & He & H).
  unfold ret in H. injection H as <- _.
  apply for_each_call_ok in He.
  set (m := (List.length texts + 32 - 1) / 32) in *.
  exists (map (fun i => slice texts i 32) (map (fun j => j * 32) (seq 0 m))),
    encodings.
  split; [reflexivity|]. split.
  { rewrite map_map. apply slices_concat. unfold m.
    apply range0_covers. lia. }
  split.
  { apply Forall_forall. intros piece Hin.
    rewrite map_map in Hin. apply in_map_iff in Hin as (j & <- & Hj).
    apply in_seq in Hj. unfold slice.
    assert (Hlt : j * 32 < List.length texts).
    { unfold m in Hj.
      pose proof (Nat.div_mod_eq (List.length texts + 32 - 1) 32) as D.
      pose proof (Nat.mod_upper_bound (List.length texts + 32 - 1) 32) as U.
      lia. }
    split.
    - intros E. apply (f_equal (@List.length _)) in E.
      rewrite length_firstn, length_skipn in E. cbn [List.length] in E.
      lia.
    - rewrite length_firstn. unfold MAX_BATCH_SIZE. lia. }
  split.
  { apply Forall2_length in He. rewrite <- He, !length_map, length_seq.
    unfold m. f_equal. lia. }
  eapply Forall2_impl; [|exact He].
  intros piece encoded [i Hi]. eauto.
Qed.

Lemma preprocess_batch_mode_pieces_witness :
  let texts := [VStr "first"; VStr "second"; VStr "third"] in
  let max_length := get_default [] "max_length" (VInt 512) in
  exists pieces encodings,
    fst TextExamples.encoded = VList encodings /\
    List.concat pieces = texts /\
    Forall (fun piece => piece <> [] /\ List.length piece <= MAX_BATCH_SIZE)
      pieces /\
    List.length encodings = (List.length texts + 31) / 32 /\
    Forall2
      (fun piece encoded =>
         exists i tokenizer,
           tokenizer_call Examples.host i tokenizer (VList piece) max_length
           = Ok encoded)
      pieces encodings.
Proof.
  refine (@preprocess_batch_mode_pieces _ Examples.host
            TextExamples.three_texts (VStr "BERT") None
            (Examples.service0 Examples.host)
            (fst TextExamples.encoded) (snd TextExamples.encoded) _).
  vm_compute. reflexivity.
Defined.

End TextFacts.
(* ================================================================== *)
(** ** The circuit breaker over several calls *)
(* ================================================================== *)

Module BreakerFacts.

Import PytorchService ServiceSpec BreakerSpec ServiceFacts.

Lemma calls_at_bounded {S A} (max_failures reset_timeout : Z)
  (func : M S A) :
  always_raises func ->
  forall times b s,
    (0 <= failures b <= max_failures)%Z ->
    (failures b = max_failures ->
     forall t, In t times ->
       (t - last_failure_time b < inject_Z reset_timeout)%Q) ->
    (forall t t', In t times -> In t' times ->
       (t - t' < inject_Z reset_timeout)%Q) ->
    snd (calls_at (circuit_breaker max_failures reset_timeout func) times
           (b, s))
    = runs func
        (Nat.min (List.length times) (Z.to_nat (max_failures - failures b)))
        s.
Proof.
  intros Hf. induction times as [|t rest IH]; intros b s Hb Hopen Hw.
  - reflexivity.
  - cbn [calls_at List.length]. unfold circuit_breaker at 2. cbn [fst snd].
    destruct (Z.eq_dec (failures b) max_failures) as [E|E].
    + assert (G : (failures b >=? max_failures)%Z = true)
        by (apply Z.geb_le; lia).
      assert (L : Qltb (t - last_failure_time b) (inject_Z reset_timeout)
                  = true)
        by (apply Qltb_lt, Hopen; [exact E | now left]).
      rewrite G, L. cbn [andb snd].
      rewrite IH; auto.
      * replace (Z.to_nat (max_failures - failures b)) with 0 by lia.
        now rewrite !Nat.min_0_r.
      * intros E' t' Ht'. apply Hopen; [exact E' | now right].
      * intros t1 t2 H1 H2. apply Hw; now right.
    + assert (G : (failures b >=? max_failures)%Z = false)
        by (rewrite Z.geb_leb; apply Z.leb_gt; lia).
      rewrite G. cbn [andb].
      destruct (Hf s) as [x Hx].
      destruct (func s) as [[a|x'] s'] eqn:F; [discriminate Hx|].
      cbn [snd].
      rewrite IH; cbn [failures last_failure_time].
      * replace (Z.to_nat (max_failures - failures b))
          with (Datatypes.S (Z.to_nat (max_failures - (failures b + 1))))
          by lia.
        cbn [Nat.min runs]. now rewrite F.
      * lia.
      * intros _ t' Ht'. apply Hw; [now right | now left].
      * intros t1 t2 H1 H2. apply Hw; now right.
Qed.

(** X18.  An operation that fails every time, behind a new breaker with
    a positive [max_failures], is run [max_failures] times and no more,
    however often it is called, as long as the calls fall within
    [reset_timeout] seconds of each other: what the calls leave of the
    state of the operation is what that many runs leave. *)
Theorem circuit_breaker_bounds_attempts {S A}
  (max_failures reset_timeout : Z) (func : M S A) (times : list Q) (s : S) :
  (0 < max_failures)%Z ->
  always_raises func ->
  (forall t t', In t times -> In t' times ->
     (t - t' < inject_Z reset_timeout)%Q) ->
  snd (calls_at (circuit_breaker max_failures reset_timeout func) times
         (breaker_init, s))
  = runs func (Nat.min (List.length times) (Z.to_nat max_failures)) s.
Proof.
  intros Hm Hf Hw.
  rewrite (calls_at_bounded Hf); auto.
  - cbn [failures breaker_init]. now rewrite Z.sub_0_r.
  - cbn [failures breaker_init]. lia.
  - cbn [failures breaker_init]. lia.
Qed.

Lemma circuit_breaker_bounds_attempts_witness :
  snd (calls_at (circuit_breaker 3 300 down) [0; 1; 2; 3; 4]%Q
         (breaker_init, 0))
  = runs down (Nat.min (List.length [0; 1; 2; 3; 4]%Q) (Z.to_nat 3)) 0.
Proof.
  refine (@circuit_breaker_bounds_attempts nat unit 3 300 down
            [0; 1; 2; 3; 4]%Q 0 _ _ _).
  - lia.
  - intros s. eexists. reflexivity.
  - intros t t' H H'. simpl in H, H'.
    repeat match goal with
           | H : _ \/ _ |- _ => destruct H as [H|H]
           | H : False |- _ => destruct H
           end; subst; reflexivity.
Defined.

End BreakerFacts.
(* ================================================================== *)
(** ** The path of a model file *)
(* ================================================================== *)

Module ConfigFacts.

Import Config.

Lemma prefix_app a b : String.prefix a (a ++ b) = true.
Proof.
  induction a as [|c a IH]; simpl.
  - now destruct b.
  - destruct (ascii_dec c c) as [_|N]; [exact IH | now elim N].
Qed.

Lemma prefix_trans a b c :
  String.prefix a b = true -> String.prefix b c = true ->
  String.prefix a c = true.
Proof.
  revert b c. induction a as [|x a IH]; intros [|y b] [|z c]; simpl;
    try discriminate; auto.
  destruct (ascii_dec x y) as [->|]; [|discriminate].
  destruct (ascii_dec y z) as [->|]; [|discriminate].
  destruct (ascii_dec z z) as [_|N]; [apply IH | now elim N].
Qed.

Lemma prefix_join2 path b :
  is_absolute b = false -> String.prefix path (join2 path b) = true.
Proof.
  intros R. unfold join2. rewrite R.
  destruct (String.eqb path "" || ends_with_sep path); apply prefix_app.
Qed.

Lemma prefix_refl a : String.prefix a a = true.
Proof.
  induction a as [|c a IH]; simpl; [reflexivity|].
  destruct (ascii_dec c c) as [_|N]; [exact IH | now elim N].
Qed.

Lemma prefix_join p :
  forall base,
    Forall (fun b => is_absolute b = false) p ->
    String.prefix base (join base p) = true.
Proof.
  unfold join. induction p as [|b p IH]; intros base Hp; cbn [fold_left].
  - apply prefix_refl.
  - inversion Hp as [|? ? Hb Hr]; subst.
    eapply prefix_trans; [apply prefix_join2, Hb | apply IH, Hr].
Qed.

Lemma join2_absolute path b : is_absolute b = true -> join2 path b = b.
Proof. intros H. unfold join2. now rewrite H. Qed.

Lemma is_absolute_app a b :
  is_absolute a = true -> is_absolute (a ++ b) = true.
Proof. destruct a; [discriminate | auto]. Qed.

Lemma is_relative_app a b :
  a <> "" -> is_absolute a = false -> is_absolute (a ++ b) = false.
Proof. destruct a; [congruence | auto]. Qed.

(** X19.  [get_model_path] returns only a path that exists: the copy in
    the cache directory if there is one, else the model file, and it
    raises if the name or the version is empty or neither path exists.
    When the name and the version do not begin with a slash the path it
    returns begins with the base directory. *)
Theorem get_model_path_exists BASE_DIR path_exists model_name version path :
  get_model_path BASE_DIR path_exists model_name version = Ok path ->
  path_exists path = true /\
  model_name <> "" /\ version <> "" /\
  (path = join (MODEL_CACHE_DIR BASE_DIR)
            [(model_name ++ "-" ++ version)%string] \/
   path_exists (join (MODEL_CACHE_DIR BASE_DIR)
                  [(model_name ++ "-" ++ version)%string]) = false /\
   path = join BASE_DIR
            ["models"; model_name; version; (model_name ++ ".pt")%string]) /\
  (is_absolute model_name = false -> is_absolute version = false ->
   String.prefix BASE_DIR path = true).
Proof.
  unfold get_model_path. intros H.
  destruct (String.eqb model_name "") eqn:En; [discriminate H|].
  destruct (String.eqb version "") eqn:Ev; [discriminate H|].
  apply String.eqb_neq in En, Ev. cbn [orb] in H.
  assert (Hrel : is_absolute model_name = false ->
                 is_absolute version = false ->
                 String.prefix BASE_DIR
                   (join (MODEL_CACHE_DIR BASE_DIR)
                      [(model_name ++ "-" ++ version)%string]) = true /\
                 String.prefix BASE_DIR
                   (join BASE_DIR
                      ["models"; model_name; version;
                       (model_name ++ ".pt")%string]) = true).
  { intros Rn Rv. split.
    - eapply prefix_trans; [apply prefix_join | apply prefix_join].
      + repeat constructor.
      + repeat constructor. now apply is_relative_app.
    - apply prefix_join. repeat constructor; auto.
      now apply is_relative_app. }
  destruct (path_exists (join (MODEL_CACHE_DIR BASE_DIR) _)) eqn:Ec.
  - injection H as <-. repeat split; auto. intros Rn Rv.
    now apply Hrel.
  - destruct (path_exists (join BASE_DIR _)) eqn:Em; [|discriminate H].
    cbn [negb] in H. injection H as <-. repeat split; auto.
    intros Rn Rv. now apply Hrel.
Qed.

Lemma get_model_path_exists_witness :
  only_file "/srv/ai/models/m/2.0.0/m.pt" "/srv/ai/models/m/2.0.0/m.pt"
    = true /\
  "m" <> "" /\ "2.0.0" <> "" /\
  ("/srv/ai/models/m/2.0.0/m.pt"
     = join (MODEL_CACHE_DIR "/srv/ai") [("m" ++ "-" ++ "2.0.0")%string] \/
   only_file "/srv/ai/models/m/2.0.0/m.pt"
     (join (MODEL_CACHE_DIR "/srv/ai") [("m" ++ "-" ++ "2.0.0")%string])
     = false /\
   "/srv/ai/models/m/2.0.0/m.pt"
     = join "/srv/ai" ["models"; "m"; "2.0.0"; ("m" ++ ".pt")%string]) /\
  (is_absolute "m" = false -> is_absolute "2.0.0" = false ->
   String.prefix "/srv/ai" "/srv/ai/models/m/2.0.0/m.pt" = true).
Proof.
  refine (@get_model_path_exists "/srv/ai"
            (only_file "/srv/ai/models/m/2.0.0/m.pt") "m" "2.0.0"
            "/srv/ai/models/m/2.0.0/m.pt" _).
  vm_compute. reflexivity.
Defined.

(** X20.  A model name that begins with a slash takes the path out of
    the base directory: whatever the base directory is,
    [get_model_path] answers the same, and a path it returns is the
    name followed by "-" and the version, or the name followed by
    ".pt". *)
Theorem get_model_path_absolute_name BASE_DIR path_exists model_name
  version :
  is_absolute model_name = true ->
  (forall other,
     get_model_path other path_exists model_name version
     = get_model_path BASE_DIR path_exists model_name version) /\
  (forall path,
     get_model_path BASE_DIR path_exists model_name version = Ok path ->
     path = (model_name ++ "-" ++ version)%string \/
     path = (model_name ++ ".pt")%string).
Proof.
  intros Ha.
  assert (E : forall base,
            get_model_path base path_exists model_name version
            = if String.eqb model_name "" || String.eqb version "" then
                Raise (ValueError "Model name and version must be provided")
              else if path_exists (model_name ++ "-" ++ version)%string then
                Ok (model_name ++ "-" ++ version)%string
              else if negb (path_exists (model_name ++ ".pt")%string) then
                Raise (ValueError ("Model not found at path: "
                                   ++ (model_name ++ ".pt")))
              else Ok (model_name ++ ".pt")%string).
  { intros base. unfold get_model_path, join. cbn [fold_left].
    rewrite !(join2_absolute _ (model_name ++ "-" ++ version))
      by (apply is_absolute_app, Ha).
    rewrite !(join2_absolute _ (model_name ++ ".pt"))
      by (apply is_absolute_app, Ha).
    reflexivity. }
  split.
  - intros other. now rewrite !E.
  - intros path. rewrite E.
    destruct (String.eqb model_name "" || String.eqb version "");
      [discriminate|].
    destruct (path_exists (model_name ++ "-" ++ version)%string).
    + intros [= <-]. now left.
    + destruct (path_exists (model_name ++ ".pt")%string);
        [|discriminate]. intros [= <-]. now right.
Qed.

Lemma get_model_path_absolute_name_witness :
  (forall other,
     get_model_path other (only_file "/tmp/m.pt") "/tmp/m" "1"
     = get_model_path "/srv/ai" (only_file "/tmp/m.pt") "/tmp/m" "1") /\
  (forall path,
     get_model_path "/srv/ai" (only_file "/tmp/m.pt") "/tmp/m" "1"
       = Ok path ->
     path = ("/tmp/m" ++ "-" ++ "1")%string \/
     path = ("/tmp/m" ++ ".pt")%string).
Proof.
  refine (@get_model_path_absolute_name "/srv/ai" (only_file "/tmp/m.pt")
            "/tmp/m" "1" _).
  reflexivity.
Defined.

End ConfigFacts.
(* ================================================================== *)
(** ** The audience analyzer *)
(* ================================================================== *)

Module AnalyzerFacts.

Import Ext AudienceAnalyzer ManagerSpec ManagerFacts MoreManagerFacts.
Import ServiceFacts MoreServiceFacts.

Lemma predict_features_raises e processed_features st :
  exists x st',
    PytorchService.predict e "audience_embeddings"
      [("features", processed_features)] [("batch_size", VInt BATCH_SIZE)]
      st = (Raise x, st').
Proof.
  destruct (PytorchService.predict e "audience_embeddings" _ _ st)
    as [[r|x] st'] eqn:H; [exfalso | eauto].
  unfold PytorchService.predict in H.
  apply monitor_inv_ok in H as (st1 & H).
  apply predict_body_ok_inv in H as (_ & (text & Ht) & _).
  discriminate Ht.
Qed.

Lemma analyze_raises e datetime_now preprocess_audience_data build_result
  cache_key audience_data analysis_params language self w :
  exists x st',
    analyze e datetime_now preprocess_audience_data build_result cache_key
      audience_data analysis_params language (self, w) = (Raise x, st') /\
    _cache (fst st') = _cache self.
Proof.
  unfold analyze. unfold bind at 1, self_. cbn [fst].
  unfold bind at 1, outside. cbn [fst snd].
  destruct (preprocess_audience_data audience_data (_platform self) language
              w) as [[processed|x] w1]; [|eauto].
  unfold bind at 1, on_service. cbn [fst snd].
  destruct (predict_features_raises e processed (_pytorch_service self, w1))
    as (x & [service w2] & ->).
  eauto.
Qed.

(** X21.  While the cache of the analyzer is empty, as [__init__]
    leaves it, [analyze_audience] raises and leaves the cache empty, so
    that no call on an analyzer ever returns an analysis: the embeddings
    are asked of [predict] with an input that has no "text" entry and a
    configuration that has no "model_path", and the cache is written
    only behind that call. *)
Theorem analyze_audience_never_returns e datetime_now cache_key_of
  preprocess_audience_data build_result audience_data analysis_params
  language self w :
  _cache self = [] ->
  exists x st',
    analyze_audience e datetime_now cache_key_of preprocess_audience_data
      build_result audience_data analysis_params language (self, w)
    = (Raise x, st') /\
    _cache (fst st') = [].
Proof.
  intros Hc. unfold analyze_audience, performance_monitored.
  unfold bind at 1, ask at 1, bind at 1, tick, ret at 1. cbn [fst snd].
  unfold try_except_reraise at 1, bind at 1.
  unfold analyze_audience_body, try_except_reraise at 1.
  unfold bind at 1, self_. cbn [fst]. rewrite Hc. cbn [Dict.get].
  destruct (analyze_raises e datetime_now preprocess_audience_data
              build_result (cache_key_of audience_data language)
              audience_data analysis_params language self (advance w))
    as (x & st' & -> & Hst).
  unfold log_error, ret. exists x, st'. split; [reflexivity|].
  now rewrite Hst.
Qed.

Lemma analyze_audience_never_returns_witness :
  exists x st',
    analyze_audience Examples.host AnalyzerExamples.clock
      AnalyzerExamples.key_of AnalyzerExamples.hand_on
      AnalyzerExamples.prediction_only AnalyzerExamples.audience VNone "en"
      (__init__ Examples.host "linkedin", Examples.world0)
    = (Raise x, st') /\
    _cache (fst st') = [].
Proof.
  refine (@analyze_audience_never_returns Examples.host
            AnalyzerExamples.clock AnalyzerExamples.key_of
            AnalyzerExamples.hand_on AnalyzerExamples.prediction_only
            AnalyzerExamples.audience VNone "en"
            (__init__ Examples.host "linkedin") Examples.world0 _).
  reflexivity.
Defined.

(** *** The clean-up of the cache *)

Lemma del_cache_run ks :
  forall self w,
    NoDup (Dict.keys (_cache self)) -> NoDup ks ->
    incl ks (Dict.keys (_cache self)) ->
    exists units,
      MlUtils.for_each del_cache ks (self, w)
      = (Ok units, (with_cache (drop ks (_cache self)) self, w)).
Proof.
  induction ks as [|k ks IH]; intros self w ND NDk Hin;
    cbn [MlUtils.for_each].
  - exists []. unfold ret. rewrite drop_nil. now destruct self.
  - inversion NDk as [|? ? Hk NDk']; subst.
    assert (Hc : Dict.contains (_cache self) k = true).
    { apply DictFacts.contains_keys, Hin. now left. }
    unfold bind at 1, del_cache at 1, bind at 1, self_, Dict.del.
    cbn [fst snd]. rewrite Hc. unfold modify. cbn [fst snd].
    destruct (IH (with_cache (Dict.remove (_cache self) k) self) w)
      as (units & Hrun).
    + cbn [_cache with_cache].
      rewrite DictFacts.remove_filter by assumption.
      now apply DictFacts.keys_filter_nodup.
    + exact NDk'.
    + cbn [_cache with_cache]. intros k' Hk'. apply remove_keys_in.
      * intros ->. contradiction.
      * apply Hin. now right.
    + unfold bind at 1. rewrite Hrun. cbn [_cache with_cache].
      rewrite drop_cons by assumption.
      exists (tt :: units). reflexivity.
Qed.

Lemma keys_filter_in {V} (f : string * V -> bool) (d : Dict.t V) k :
  NoDup (Dict.keys d) ->
  existsb (String.eqb k) (map fst (filter f d))
  = match Dict.get d k with
    | Some v => f (k, v)
    | None => false
    end.
Proof.
  induction d as [|[k0 v0] r IH]; intros ND; simpl; [reflexivity|].
  inversion ND as [|? ? Hk0 ND']; subst.
  destruct (String.eqb k0 k) eqn:E.
  - apply String.eqb_eq in E. subst k0.
    assert (Hnone : existsb (String.eqb k) (map fst (filter f r)) = false).
    { apply not_true_is_false. intros H. apply existsb_exists in H
        as (k' & Hin & Hk'). apply String.eqb_eq in Hk'. subst k'.
      apply Hk0. apply in_map_iff in Hin as ([k1 v1] & <- & Hf).
      apply filter_In in Hf as [Hf _].
      apply in_map_iff. now exists (k1, v1). }
    destruct (f (k, v0)); simpl; [now rewrite String.eqb_refl|exact Hnone].
  - destruct (f (k0, v0)); simpl.
    + rewrite String.eqb_sym, E. simpl. now apply IH.
    + now apply IH.
Qed.

Lemma seconds_of_days days rest :
  (0 <= rest < 86400000000)%Z ->
  timedelta_seconds (days * 86400000000 + rest) = (rest / 1000000)%Z.
Proof.
  intros H. unfold timedelta_seconds.
  rewrite Z.add_comm, Z_mod_plus_full, Z.mod_small by lia. reflexivity.
Qed.

(** X22.  [_cleanup_cache] compares [CACHE_TTL] with the seconds field
    of the age and not with the age: it removes exactly the entries
    whose age, the whole days left out, is more than an hour.  An entry
    that is a whole number of days and at most an hour old is kept,
    however many the days. *)
Theorem cleanup_cache_ignores_days datetime_now self w :
  NoDup (Dict.keys (_cache self)) ->
  exists st',
    _cleanup_cache datetime_now (self, w) = (Ok tt, st') /\
    (forall k entry,
       Dict.get (_cache self) k = Some entry ->
       Dict.get (_cache (fst st')) k
       = if (CACHE_TTL <? timedelta_seconds
                            (datetime_now (calls w) - timestamp entry))%Z
         then None else Some entry) /\
    (forall k entry days rest,
       Dict.get (_cache self) k = Some entry ->
       (datetime_now (calls w) - timestamp entry
        = days * 86400000000 + rest)%Z ->
       (0 <= rest < 3601000000)%Z ->
       Dict.get (_cache (fst st')) k = Some entry).
Proof.
  intros ND. unfold _cleanup_cache.
  unfold bind at 1, ask at 1, bind at 1, tick, ret at 1. cbn [fst snd].
  unfold bind at 1, self_. cbn [fst].
  set (expired := fun kv : string * CacheEntry =>
         (CACHE_TTL <? timedelta_seconds
                         (datetime_now (calls w) - timestamp (snd kv)))%Z).
  destruct (del_cache_run (ks := map fst (filter expired (_cache self)))
              self (advance w)) as (units & Hrun).
  - exact ND.
  - change (map fst (filter expired (_cache self)))
      with (Dict.keys (filter expired (_cache self))).
    now apply DictFacts.keys_filter_nodup.
  - intros k Hk. apply in_map_iff in Hk as (kv & <- & Hf).
    apply filter_In in Hf as [Hf _]. now apply in_map.
  - unfold bind at 1. rewrite Hrun. unfold ret.
    eexists. split; [reflexivity|]. cbn [fst _cache with_cache].
    assert (Hget : forall k entry,
              Dict.get (_cache self) k = Some entry ->
              Dict.get (drop (map fst (filter expired (_cache self)))
                          (_cache self)) k
              = if expired (k, entry) then None else Some entry).
    { intros k entry Hk. rewrite get_drop, keys_filter_in by exact ND.
      rewrite Hk. now destruct (expired (k, entry)). }
    split.
    + intros k entry Hk. now rewrite (Hget k entry Hk).
    + intros k entry days rest Hk Hage Hrest.
      rewrite (Hget k entry Hk). unfold expired. cbn [snd].
      rewrite Hage, seconds_of_days by lia.
      assert (rest / 1000000 <= 3600)%Z
        by (apply Z.lt_succ_r, Z.div_lt_upper_bound; lia).
      unfold CACHE_TTL.
      destruct (Z.ltb_spec 3600 (rest / 1000000)); [lia | reflexivity].
Qed.

Lemma cleanup_cache_ignores_days_witness :
  exists st',
    _cleanup_cache AnalyzerExamples.a_day_later
      (AnalyzerExamples.stale, Examples.world0) = (Ok tt, st') /\
    (forall k entry,
       Dict.get (_cache AnalyzerExamples.stale) k = Some entry ->
       Dict.get (_cache (fst st')) k
       = if (CACHE_TTL <? timedelta_seconds
                            (AnalyzerExamples.a_day_later
                               (calls Examples.world0)
                             - timestamp entry))%Z
         then None else Some entry) /\
    (forall k entry days rest,
       Dict.get (_cache AnalyzerExamples.stale) k = Some entry ->
       (AnalyzerExamples.a_day_later (calls Examples.world0)
        - timestamp entry
        = days * 86400000000 + rest)%Z ->
       (0 <= rest < 3601000000)%Z ->
       Dict.get (_cache (fst st')) k = Some entry).
Proof.
  refine (@cleanup_cache_ignores_days AnalyzerExamples.a_day_later
            AnalyzerExamples.stale Examples.world0 _).
  repeat constructor. simpl. intuition.
Defined.

End AnalyzerFacts.
